(** * sync-plug: connection lifecycle and publish engine

    A shallow embedding of the TypeScript sources of sync-plug
    (adapters/memory.ts, adapters/firestore.ts, utils/security.ts,
    utils/media.ts, connections/*.ts, handlers/*.ts, dispatcher.ts,
    client.ts) together with the properties that the specification
    states about them and further properties of the code.

    Conventions of the embedding.
    - A JavaScript object used as a record (a PlatformConnection, a
      Partial<PlatformConnection>) is a finite map from field names to
      JavaScript values, so that object spread is map union.
    - JavaScript numbers that hold byte counts, HTTP status codes and
      millisecond timestamps are integers below 2^53; they are modelled
      as [Z] and [Math.ceil (a / b)] as integer ceiling division.
    - Asynchronous code is run to completion in a state-and-exception
      monad over the in-memory adapter; every call that leaves the
      process (HTTP, SDK, file system, clock) takes its outcome from an
      explicit record of responses and is appended to a log of events.
      The responses are given per call and do not depend on the request
      bodies, which are therefore not built.
    - Responses of remote services have the shape that the source's own
      type annotations and casts declare for them, and every request is
      answered: a response record describes a run in which each awaited
      call settles.
    - A long method is cut into the blocks its comments name (media
      upload, publish); [sendPost] is their composition.
    - The texts that a handler puts into a request (title, tags, message
      content) and the parsing of what a caller passes (a webhook URL)
      are pure functions of the source; they are embedded on their own.
    - Strings are ASCII strings: [trim] removes ASCII white space, and
      [toLowerCase], [\d] and [\w] are those of ASCII.
    - A JavaScript [Map] is a finite map; what is listed from it
      ([getConnections]) is meant up to order. *)

From Stdlib Require Import ZArith Lia Bool List Ascii String.
From Stdlib.Strings Require Byte.
From stdpp Require Import base option gmap strings list fin_maps pretty.

Local Open Scope string_scope.
Local Open Scope Z_scope.

(** ** JavaScript values and truthiness *)

Inductive JsVal : Type :=
| VUndefined
| VNull
| VBool (b : bool)
| VNum (n : Z)
| VStr (s : string)
| VDate (ms : Z)           (* a Date, by its getTime() *)
| VTimestamp (ms : Z)      (* a store timestamp object, by its toMillis() *)
| VStrs (l : list string). (* an array of strings *)

Definition nonEmpty (s : string) : bool :=
  match s with EmptyString => false | _ => true end.

(** [!!v] in JavaScript. *)
Definition truthy (v : JsVal) : bool :=
  match v with
  | VUndefined | VNull => false
  | VBool b => b
  | VNum n => negb (n =? 0)
  | VStr s => nonEmpty s
  | VDate _ | VTimestamp _ | VStrs _ => true
  end.

(** [s || d] on strings. *)
Definition strOr (s d : string) : string := if nonEmpty s then s else d.

(** A JavaScript object: field name to value.  A missing field reads as
    [undefined]. *)
Abbreviation Obj := (gmap string JsVal).

Definition field (o : Obj) (f : string) : JsVal := default VUndefined (o !! f).

(** [{...a, ...b}]: the fields of [b] win. *)
Definition spread (a b : Obj) : Obj := b ∪ a.

(** ** types.ts *)

Inductive Platform : Type :=
| twitter | linkedin | bluesky | tiktok | devto | threads | discord | github.

#[global] Instance Platform_eq_dec : EqDecision Platform.
Proof. solve_decision. Defined.

Definition platformName (p : Platform) : string :=
  match p with
  | twitter => "twitter" | linkedin => "linkedin" | bluesky => "bluesky"
  | tiktok => "tiktok" | devto => "devto" | threads => "threads"
  | discord => "discord" | github => "github"
  end.

Record OAuthState : Type := mkOAuthState {
  os_uid : string;
  os_codeVerifier : string;
  os_state : string;
  os_createdAt : Z
}.

(** ** adapters/memory.ts *)

Module MemoryAdapter.

Record t : Type := mk {
  connections : gmap string (gmap string JsVal);
  oauthStates : gmap string OAuthState
}.

Definition empty : t := mk ∅ ∅.

Definition getKey (userId : string) (platform : Platform) : string :=
  userId +:+ ":" +:+ platformName platform.

Definition saveConnection (userId : string) (platform : Platform)
    (connection : Obj) (s : t) : t :=
  mk (<[getKey userId platform := connection]> (connections s)) (oauthStates s).

(** [this.connections.get(key) || null]; [None] is [null]. *)
Definition getConnection (userId : string) (platform : Platform) (s : t)
    : option Obj :=
  connections s !! getKey userId platform.

Definition updateConnection (userId : string) (platform : Platform)
    (updates : Obj) (s : t) : t :=
  let key := getKey userId platform in
  match connections s !! key with
  | Some existing =>
      mk (<[key := spread existing updates]> (connections s)) (oauthStates s)
  | None => s
  end.

Definition deleteConnection (userId : string) (platform : Platform) (s : t) : t :=
  mk (delete (getKey userId platform) (connections s)) (oauthStates s).

Definition saveOAuthState (state : string) (data : OAuthState) (s : t) : t :=
  mk (connections s) (<[state := data]> (oauthStates s)).

Definition getOAuthState (state : string) (s : t) : option OAuthState :=
  oauthStates s !! state.

Definition deleteOAuthState (state : string) (s : t) : t :=
  mk (connections s) (delete state (oauthStates s)).

(** [getConnections(userId)]: the connections whose key starts with
    [`${userId}:`].  The entries are listed by key; the insertion order
    of the JavaScript [Map] is not kept, so the list is meant up to
    order. *)
Definition getConnections (userId : string) (s : t) : list Obj :=
  snd <$> filter (fun entry => String.prefix (userId +:+ ":") (fst entry) = true)
            (map_to_list (connections s)).

Definition clear (s : t) : t := mk ∅ ∅.

End MemoryAdapter.

(** ** adapters/firestore.ts: the conversion of stored documents *)

Module FirestoreAdapter.

(** The data of a stored document.  A Firestore [Timestamp] is given by
    the [Date] that its [toDate()] returns; [Timestamp.fromDate] builds
    the timestamp of a [Date]. *)
#[local] Unset Elimination Schemes.
Inductive Data : Type :=
| DUndefined
| DNull
| DBool (b : bool)
| DNum (n : Z)
| DStr (s : string)
| DDate (ms : Z)
| DTimestamp (ms : Z)
| DArray (items : list Data)
| DObject (fields : list (string * Data)).
#[local] Set Elimination Schemes.

Section Convert.

(** What the [for ... in] loop of [convertDatesToTimestamps] builds from
    a [Timestamp] object: a plain object with its own enumerable
    properties. *)
Variable timestampCopy : Z -> Data.

(** [convertDatesToTimestamps(obj)] *)
Fixpoint convertDatesToTimestamps (obj : Data) : Data :=
  match obj with
  | DNull | DUndefined => obj
  | DDate ms => DTimestamp ms
  | DArray items => DArray (map convertDatesToTimestamps items)
  | DObject fields =>
      DObject (map (fun kv => let '(key, value) := kv in
                              (key, convertDatesToTimestamps value)) fields)
  | DTimestamp ms => timestampCopy ms
  | DBool _ | DNum _ | DStr _ => obj
  end.

End Convert.

(** [convertTimestampsToDates(obj)]; a [Date] has no [toDate] and no own
    enumerable property, so the loop over its keys gives [{}]. *)
Fixpoint convertTimestampsToDates (obj : Data) : Data :=
  match obj with
  | DNull | DUndefined => obj
  | DTimestamp ms => DDate ms
  | DArray items => DArray (map convertTimestampsToDates items)
  | DObject fields =>
      DObject (map (fun kv => let '(key, value) := kv in
                              (key, convertTimestampsToDates value)) fields)
  | DDate _ => DObject []
  | DBool _ | DNum _ | DStr _ => obj
  end.

End FirestoreAdapter.

(** ** Errors, outcomes and the monad of handlers *)

(** The fields of a thrown value that the sources inspect. *)
Record JsError : Type := mkJsError {
  message : string;                    (* err.message *)
  err_status : option Z;               (* err.status *)
  err_responseStatus : option Z;       (* err.response.status *)
  err_code : option Z;                 (* err.code, when numeric *)
  isApiResponseError : bool;           (* err instanceof ApiResponseError *)
  err_data : option string;            (* err.data.error || .type || .title *)
  err_responseMessage : option string  (* err.response.data.error.message *)
}.

(** [new Error(msg)] *)
Definition Error (msg : string) : JsError :=
  mkJsError msg None None None false None None.

Inductive Outcome (A : Type) : Type :=
| Returned (a : A)
| Thrown (e : JsError).
Arguments Returned {A} a.
Arguments Thrown {A} e.

Inductive Event : Type :=
| EvRefreshToken (p : Platform)   (* connectionProvider.refreshToken entered *)
| EvTokenRequest (p : Platform)   (* request to the token endpoint *)
| EvUserInfo (p : Platform)       (* request for the account identity *)
| EvResume (p : Platform)         (* agent.resumeSession *)
| EvMedia (p : Platform)          (* media download or upload request *)
| EvPublish (p : Platform)        (* request that creates or publishes the post *)
| EvSleep (ms : Z)                (* setTimeout wait *)
| EvCleanup (path : string).      (* temp file removal *)

#[global] Instance Event_eq_dec : EqDecision Event.
Proof. solve_decision. Defined.

Record World : Type := mkWorld {
  db : MemoryAdapter.t;
  log : list Event
}.

Definition M (A : Type) : Type := World -> Outcome A * World.

Definition ret {A} (a : A) : M A := fun w => (Returned a, w).

Definition throw {A} (e : JsError) : M A := fun w => (Thrown e, w).

Definition bind {A B} (m : M A) (k : A -> M B) : M B :=
  fun w =>
    match m w with
    | (Returned a, w') => k a w'
    | (Thrown e, w') => (Thrown e, w')
    end.

#[global] Instance M_ret : MRet M := @ret.
#[global] Instance M_bind : MBind M := fun A B k m => bind m k.

(** [try { m } catch (e) { h e }] *)
Definition tryCatch {A} (m : M A) (h : JsError -> M A) : M A :=
  fun w =>
    match m w with
    | (Returned a, w') => (Returned a, w')
    | (Thrown e, w') => h e w'
    end.

(** [try { m } finally { f }], for an [f] that does not throw. *)
Definition tryFinally {A} (m : M A) (f : M unit) : M A :=
  fun w =>
    match m w with
    | (r, w') => (r, snd (f w'))
    end.

(** A call that leaves the process: logged, outcome taken from the
    responses. *)
Definition call {A} (ev : Event) (r : Outcome A) : M A :=
  fun w => (r, mkWorld (db w) (log w ++ [ev])).

Definition emit (ev : Event) : M unit := call ev (Returned tt).

(** Store operations lifted to the monad; the in-memory adapter's
    methods never reject. *)
Definition dbRead {A} (f : MemoryAdapter.t -> A) : M A :=
  fun w => (Returned (f (db w)), w).

Definition dbWrite (f : MemoryAdapter.t -> MemoryAdapter.t) : M unit :=
  fun w => (Returned tt, mkWorld (f (db w)) (log w)).

(** A [return] from inside a block, against falling through it. *)
Inductive Flow (R A : Type) : Type :=
| Return_ (r : R)
| Next (a : A).
Arguments Return_ {R A} r.
Arguments Next {R A} a.

(** ** String primitives of the JavaScript runtime (ASCII) *)

Definition lowerChar (c : ascii) : ascii :=
  let n := nat_of_ascii c in
  if ((65 <=? n) && (n <=? 90))%nat then ascii_of_nat (n + 32) else c.

Fixpoint toLowerCase (s : string) : string :=
  match s with
  | EmptyString => EmptyString
  | String c r => String (lowerChar c) (toLowerCase r)
  end.

(** [s.includes(sub)] *)
Definition includes (s sub : string) : bool :=
  match String.index 0 sub s with Some _ => true | None => false end.

(** [s.startsWith(pre)] *)
Definition startsWith (s pre : string) : bool := String.prefix pre s.

(** [s.endsWith(suf)] *)
Definition endsWith (s suf : string) : bool :=
  let n := String.length s in
  let m := String.length suf in
  ((m <=? n)%nat && String.eqb (String.substring (n - m) m s) suf)%bool.

(** [s.split(",")] *)
Fixpoint splitComma (s : string) : list string :=
  match s with
  | EmptyString => [EmptyString]
  | String c r =>
      if Ascii.eqb c "," then EmptyString :: splitComma r
      else match splitComma r with
           | h :: t => String c h :: t
           | [] => [String c EmptyString]
           end
  end.

(** White space of [String.prototype.trim] (ASCII): tab, line feed,
    vertical tab, form feed, carriage return, space. *)
Definition isSpace (c : ascii) : bool :=
  let n := nat_of_ascii c in
  (((9 <=? n) && (n <=? 13)) || (n =? 32))%nat.

Fixpoint trimStart (s : string) : string :=
  match s with
  | EmptyString => EmptyString
  | String c r => if isSpace c then trimStart r else s
  end.

Fixpoint trimEnd (s : string) : string :=
  match s with
  | EmptyString => EmptyString
  | String c r =>
      match trimEnd r with
      | EmptyString => if isSpace c then EmptyString else String c EmptyString
      | r' => String c r'
      end
  end.

(** [s.trim()] *)
Definition trim (s : string) : string := trimEnd (trimStart s).

(** The line feed ["\n"]. *)
Definition LF : ascii := ascii_of_nat 10.

(** [s.split("\n")] *)
Fixpoint splitLines (s : string) : list string :=
  match s with
  | EmptyString => [EmptyString]
  | String c r =>
      if Ascii.eqb c LF then EmptyString :: splitLines r
      else match splitLines r with
           | h :: t => String c h :: t
           | [] => [String c EmptyString]
           end
  end.

(** [lines.join("\n")] *)
Definition joinLines (lines : list string) : string :=
  String.concat (String LF EmptyString) lines.

(** [\d] and [\w] of a regular expression. *)
Definition isDigit (c : ascii) : bool :=
  let n := nat_of_ascii c in ((48 <=? n) && (n <=? 57))%nat.

Definition isWordChar (c : ascii) : bool :=
  let n := nat_of_ascii c in
  (((65 <=? n) && (n <=? 90)) || ((97 <=? n) && (n <=? 122)) || isDigit c || (n =? 95))%nat.

(** The longest prefix of characters that satisfy [f], and what comes
    after it. *)
Fixpoint takeWhile (f : ascii -> bool) (s : string) : string :=
  match s with
  | EmptyString => EmptyString
  | String c r => if f c then String c (takeWhile f r) else EmptyString
  end.

Fixpoint dropWhile (f : ascii -> bool) (s : string) : string :=
  match s with
  | EmptyString => EmptyString
  | String c r => if f c then dropWhile f r else s
  end.

(** Matches the lower-case literal [literal] at the head of [s] without
    regard to case (the [i] flag): what follows it. *)
Fixpoint stripPrefixCI (literal s : string) : option string :=
  match literal with
  | EmptyString => Some s
  | String a literal' =>
      match s with
      | EmptyString => None
      | String b s' =>
          if Ascii.eqb (lowerChar b) a then stripPrefixCI literal' s' else None
      end
  end.

(** An optional group [(?:literal)?] in front of a part that cannot
    start like [literal]. *)
Definition optionalPrefixCI (literal s : string) : string :=
  default s (stripPrefixCI literal s).

(** A field read at its declared type [string]. *)
Definition str (v : JsVal) : string :=
  match v with VStr s => s | _ => EmptyString end.

(** [a ?? b] for an optional string against a stored value. *)
Definition coalesce (a : option string) (b : JsVal) : JsVal :=
  match a with Some s => VStr s | None => b end.

(** An optional string as a value: absent is [undefined]. *)
Definition optStr (a : option string) : JsVal := coalesce a VUndefined.

(** [a || b] for an optional string [a] against an optional string [b]. *)
Definition orElse (a b : option string) : JsVal :=
  match a with
  | Some s => if nonEmpty s then VStr s else optStr b
  | None => optStr b
  end.

(** [a || undefined] *)
Definition orUndefined (a : option string) : JsVal :=
  match a with
  | Some s => if nonEmpty s then VStr s else VUndefined
  | None => VUndefined
  end.

(** ** Libraries the sources import: crypto, jwt-decode, URL *)

Record JwtPayload : Type := mkJwtPayload {
  exp : JsVal   (* the [exp] claim; [VUndefined] when missing *)
}.

Class Libs : Type := {
  md5hex : string -> string;                (* createHash("md5").update(s).digest("hex") *)
  sha256Base64Url : string -> string;       (* base64UrlEncode(sha256(s)) *)
  jwtDecode : string -> Outcome JwtPayload; (* jwtDecode<JwtPayload>(token) *)
  encodeURIComponent : string -> string;
  urlWithParams : string -> list (string * string) -> string;
    (* new URL(base) with searchParams.append(k, v) in order, toString() *)
  jsonErrorField : string -> option string;
    (* JSON.parse(text).error, absent when the text is not JSON *)
  numberOfString : string -> option Z
    (* Number(s); absent for NaN *)
}.

(** ** utils/security.ts *)

Module Security.
Section WithLibs.
Context `{Libs}.

(** [generateState()]: 32 random bytes, base64url; the bytes' encoding
    is the [entropy]. *)
Definition generateState (entropy : string) : string := entropy.

(** [generateId()] at clock reading [now]. *)
Definition generateId (now : Z) : string := md5hex (pretty now).

(** [generateCodeVerifier(length)] over the base64url text of the random
    buffer. *)
Definition generateCodeVerifier (length : Z) (entropy : string) : Outcome string :=
  if (length <? 43) || (128 <? length)
  then Thrown (Error "PKCE code_verifier must be between 43 and 128 characters")
  else Returned (String.substring 0 (Z.to_nat length) entropy).

Definition generateCodeChallenge (codeVerifier : string) : string :=
  sha256Base64Url codeVerifier.

(** [isTokenExpired(token)] at clock reading [now] (milliseconds).
    [nowInSeconds >= decoded.exp] is [now / 1000 >= exp]. *)
Definition isTokenExpired (token : JsVal) (now : Z) : bool :=
  if negb (truthy token) then true
  else
    match token with
    | VStr s =>
        match jwtDecode s with
        | Returned decoded =>
            match exp decoded with
            | VNum e => e * 1000 <=? now
            | _ => true
            end
        | Thrown _ => true
        end
    | _ => true   (* jwtDecode rejects a non-string *)
    end.

End WithLibs.

(** [a || b] on optional numbers. *)
Definition numOr (a b : option Z) : option Z :=
  match a with
  | Some n => if n =? 0 then b else a
  | None => b
  end.

Definition statusIs (s : option Z) (n : Z) : bool :=
  match s with Some m => m =? n | None => false end.

(** [isAuthError(platform, err)] *)
Definition isAuthError (platform : string) (err : JsError) : bool :=
  let message := toLowerCase (message err) in
  let status := numOr (numOr (err_status err) (err_responseStatus err)) (err_code err) in
  if statusIs status 401 || statusIs status 403 then true
  else if includes message "authentication" || includes message "authenticate" then true
  else if includes message "invalid_token" || includes message "invalid_grant" then true
  else if String.eqb platform "twitter" then
    match err_data err with
    | Some d =>
        let twitterDataError := toLowerCase d in
        nonEmpty d &&
        (includes twitterDataError "invalid_token"
         || includes twitterDataError "invalid request"
         || includes twitterDataError "authenticity token required")
    | None => false
    end
  else if String.eqb platform "bluesky" then
    if statusIs status 400 && includes message "invalid handle or password" then true
    else includes message "could not resolve handle"
  else if String.eqb platform "linkedin" then
    includes message "unauthorized" || includes message "invalid_token"
  else false.

(** [Buffer.toString("base64")]: RFC 4648 §4, with padding. *)
Definition base64Alphabet : string :=
  "ABCDEFGHIJKLMNOPQRSTUVWXYZabcdefghijklmnopqrstuvwxyz0123456789+/".

Definition base64Digit (n : N) : ascii :=
  match String.get (N.to_nat n) base64Alphabet with
  | Some c => c
  | None => "A"%char
  end.

Fixpoint base64 (buffer : list Byte.byte) : string :=
  match buffer with
  | [] => ""
  | [a] =>
      let n := Byte.to_N a in
      String (base64Digit (n / 4))
        (String (base64Digit ((n mod 4) * 16)) "==")%N
  | [a; b] =>
      let n := (Byte.to_N a * 256 + Byte.to_N b)%N in
      String (base64Digit (n / 1024))
        (String (base64Digit ((n / 16) mod 64))
           (String (base64Digit ((n mod 16) * 4)) "="))%N
  | a :: b :: c :: rest =>
      let n := (Byte.to_N a * 65536 + Byte.to_N b * 256 + Byte.to_N c)%N in
      String (base64Digit (n / 262144))
        (String (base64Digit ((n / 4096) mod 64))
           (String (base64Digit ((n / 64) mod 64))
              (String (base64Digit (n mod 64)) (base64 rest))))%N
  end.

(** [s.replace(/c/g, d)] for one character [c]. *)
Fixpoint replaceAll (c d : ascii) (s : string) : string :=
  match s with
  | EmptyString => EmptyString
  | String x r => String (if Ascii.eqb x c then d else x) (replaceAll c d r)
  end.

(** [s.replace(/=+$/, "")] *)
Fixpoint stripPadding (s : string) : string :=
  match s with
  | EmptyString => EmptyString
  | String x r =>
      match stripPadding r with
      | EmptyString => if Ascii.eqb x "=" then EmptyString else String x EmptyString
      | r' => String x r'
      end
  end.

(** [base64UrlEncode(buffer)]: URL-safe base64 without padding. *)
Definition base64UrlEncode (buffer : list Byte.byte) : string :=
  stripPadding (replaceAll "/" "_" (replaceAll "+" "-" (base64 buffer))).

(** [Math.ceil((length * 3) / 4)]: the size of the random buffer that
    [generateCodeVerifier] draws. *)
Definition codeVerifierBytes (length : Z) : Z := - ((- (length * 3)) / 4).

End Security.

(** ** utils/media.ts *)

Module Media.

Definition hasExt (exts : list string) (urlOrPath : string) : bool :=
  existsb (fun e => endsWith (toLowerCase urlOrPath) ("." +:+ e)) exts.

Definition isVideoFile (urlOrPath : string) : bool :=
  hasExt ["mp4"; "mov"; "avi"; "wmv"; "flv"; "webm"; "mkv"; "m4v"] urlOrPath.

Definition isImageFile (urlOrPath : string) : bool :=
  hasExt ["jpeg"; "jpg"; "png"; "gif"; "webp"; "bmp"; "svg"] urlOrPath.

(** [PLATFORM_MEDIA_LIMITS[platform]?.video || 512 * 1024 * 1024] *)
Definition maxSize (platform : string) : Z :=
  if String.eqb platform "twitter" then 512 * 1024 * 1024
  else if String.eqb platform "bluesky" then 50 * 1024 * 1024
  else if String.eqb platform "linkedin" then 5 * 1024 * 1024 * 1024
  else if String.eqb platform "tiktok" then 500 * 1024 * 1024
  else 512 * 1024 * 1024.

(** What [fetchWithRetry(url)] settled with: the response's status line,
    content type and body length. *)
Record Fetched : Type := mkFetched {
  f_status : Z;
  f_statusText : string;
  f_contentType : option string;
  f_length : Z
}.

Definition okStatus (status : Z) : bool := (200 <=? status) && (status <=? 299).

(** How one [fetch(input, init)] settles, with what the [catch] of
    [fetchWithRetry] reads off a rejection. *)
Record Attempt : Type := mkAttempt {
  a_outcome : Outcome Fetched;
  a_socketError : bool;   (* err?.code === "UND_ERR_SOCKET" *)
  a_typeError : bool      (* err instanceof TypeError *)
}.

(** [throw lastErr] while [lastErr] is still [undefined]. *)
Definition thrownUndefined : JsError := mkJsError "" None None None false None None.

(** The [for] loop of [fetchWithRetry] from index [i] on, with
    [remaining] iterations left; [request] is the event of the [fetch]
    call and [attempts i] is how the [i]-th call settles. *)
Fixpoint fetchLoop (request : Event) (attempts : nat -> Attempt)
    (retries backoffMs : Z) (remaining : nat) (i : Z) (lastErr : JsError)
    : M Fetched :=
  match remaining with
  | O => throw lastErr
  | S remaining' =>
      let attempt := attempts (Z.to_nat i) in
      tryCatch
        (call request (a_outcome attempt))
        (fun err =>
           let isTransient := a_socketError attempt || a_typeError attempt in
           if negb isTransient || (i =? retries - 1) then throw err
           else
             emit (EvSleep (backoffMs * (i + 1)));;
             fetchLoop request attempts retries backoffMs remaining' (i + 1) err)
  end.

(** [fetchWithRetry(input, init, retries, backoffMs)] *)
Definition fetchWithRetry (request : Event) (attempts : nat -> Attempt)
    (retries backoffMs : Z) : M Fetched :=
  fetchLoop request attempts retries backoffMs (Z.to_nat retries) 0 thrownUndefined.

(** [downloadMedia(platform, url)]: the body length and MIME type. *)
Definition downloadMedia (p : Platform) (fetched : Outcome Fetched)
    : M (Z * option string) :=
  tryCatch
    (response ← call (EvMedia p) fetched;
     if negb (okStatus (f_status response)) then
       throw (Error ("Failed to fetch media (" +:+ pretty (f_status response)
                     +:+ "): " +:+ f_statusText response))
     else if maxSize (platformName p) <? f_length response then
       throw (Error ("Media file size exceeds the general limit ("
                     +:+ pretty (maxSize (platformName p) / 1024 / 1024) +:+ "MB)."))
     else ret (f_length response, f_contentType response))
    (fun error => throw (Error ("Failed to download media: " +:+ message error))).

(** [getTwitterMediaTypeCategory(mimeType)], by its category. *)
Definition getTwitterMediaTypeCategory (mimeType : string) : Outcome string :=
  if negb (nonEmpty mimeType) then Thrown (Error "Invalid or missing mimeType")
  else if startsWith mimeType "video/" then Returned "tweet_video"
  else if String.eqb mimeType "image/gif" then Returned "tweet_gif"
  else if startsWith mimeType "image/" then Returned "tweet_image"
  else if String.eqb mimeType "text/plain" then Returned "subtitles"
  else Thrown (Error ("Unsupported mimeType: " +:+ mimeType)).

End Media.

(** ** HTTP responses as [fetch] returns them *)

Record Response (J : Type) : Type := mkResponse {
  r_status : Z;
  r_statusText : string;
  r_text : Outcome string;   (* await response.text() *)
  r_json : Outcome J         (* await response.json() *)
}.
Arguments mkResponse {J} _ _ _ _.
Arguments r_status {J} _.
Arguments r_statusText {J} _.
Arguments r_text {J} _.
Arguments r_json {J} _.

(** [response.ok] *)
Definition r_ok {J} (r : Response J) : bool := Media.okStatus (r_status r).

(** An outcome that was already awaited, without a new request. *)
Definition settle {A} (o : Outcome A) : M A := fun w => (o, w).

(** An object literal. *)
Definition obj (fields : list (string * JsVal)) : Obj := list_to_map fields.

(** [connection.uid], a declared string. *)
Definition uidOf (connection : Obj) : string := str (field connection "uid").

(** ** connections/base.ts *)

Module BaseConnectionProvider.

Definition disconnect (platform : Platform) (userId : string) : M unit :=
  dbWrite (MemoryAdapter.deleteConnection userId platform).

Definition saveOAuthState (state : string) (data : OAuthState) : M unit :=
  dbWrite (MemoryAdapter.saveOAuthState state data).

Definition getOAuthState (state : string) : M (option OAuthState) :=
  dbRead (MemoryAdapter.getOAuthState state).

Definition deleteOAuthState (state : string) : M unit :=
  dbWrite (MemoryAdapter.deleteOAuthState state).

Definition saveConnection (platform : Platform) (userId : string)
    (connection : Obj) : M unit :=
  dbWrite (MemoryAdapter.saveConnection userId platform connection).

End BaseConnectionProvider.

(** [database.updateConnection(userId, platform, updates)] *)
Definition updateConnection (userId : string) (platform : Platform)
    (updates : Obj) : M unit :=
  dbWrite (MemoryAdapter.updateConnection userId platform updates).

(** The two validity write-backs of the handlers. *)
Definition markInvalid : Obj :=
  obj [("isValid", VBool false); ("needsReconnection", VBool true)].

Definition markValid (now : Z) : Obj :=
  obj [("isValid", VBool true); ("needsReconnection", VBool false);
       ("lastValidated", VDate now)].

(** Client credentials of the OAuth providers ([clientKey] for TikTok). *)
Record OAuthConfig : Type := mkOAuthConfig {
  clientId : string;
  clientSecret : string
}.

(** [!this.config.clientId || !this.config.clientSecret] is false. *)
Definition configured (c : OAuthConfig) : bool :=
  nonEmpty (clientId c) && nonEmpty (clientSecret c).

(** ** connections/twitter.ts *)

Module TwitterConnectionProvider.

Record TokenGrant : Type := mkTokenGrant {
  tg_accessToken : string;
  tg_refreshToken : option string;
  tg_expiresIn : Z;
  tg_scope : list string
}.

Record User : Type := mkUser { id : string; username : string }.

Record AuthNet : Type := mkAuthNet {
  ia_now : Z;                     (* clock read by generateId *)
  ia_link : string * string;      (* generateOAuth2AuthLink: url, codeVerifier *)
  ia_createdAt : Z
}.

Record CallbackNet : Type := mkCallbackNet {
  cb_login : Outcome TokenGrant;  (* client.loginWithOAuth2 *)
  cb_me : Outcome (option User);  (* userClient.v2.me: data *)
  cb_now : Z;                     (* Date.now() for expiresAt *)
  cb_validated : Z                (* new Date() for lastValidated *)
}.

Record RefreshNet : Type := mkRefreshNet {
  rf_grant : Outcome TokenGrant;  (* client.refreshOAuth2Token *)
  rf_now : Z;
  rf_validated : Z
}.

Section WithLibs.
Context `{Libs}.

Definition initiateAuth (config : OAuthConfig) (userId redirectUri : string)
    (net : AuthNet) : M (string * string) :=
  if negb (configured config) then
    throw (Error "Twitter Client ID/Secret not configured")
  else
    let state := Security.generateId (ia_now net) in
    let '(url, codeVerifier) := ia_link net in
    BaseConnectionProvider.saveOAuthState state
      (mkOAuthState userId codeVerifier state (ia_createdAt net));;
    mret (url, state).

End WithLibs.

Definition handleCallback (config : OAuthConfig) (code state redirectUri : string)
    (net : CallbackNet) : M Obj :=
  if negb (configured config) then
    throw (Error "Twitter Client ID/Secret not configured")
  else
    storedState ← BaseConnectionProvider.getOAuthState state;
    match storedState with
    | None => throw (Error "Invalid or expired state parameter")
    | Some stored =>
        BaseConnectionProvider.deleteOAuthState state;;
        grant ← call (EvTokenRequest twitter) (cb_login net);
        userObject ← call (EvUserInfo twitter) (cb_me net);
        match userObject with
        | None => throw (Error "Failed to fetch user details from Twitter")
        | Some user =>
            let connection := obj [
              ("uid", VStr (os_uid stored));
              ("twitterUserId", VStr (id user));
              ("screenName", VStr (username user));
              ("platform", VStr "twitter");
              ("authVersion", VStr "oauth2");
              ("accessToken", VStr (tg_accessToken grant));
              ("refreshToken", optStr (tg_refreshToken grant));
              ("expiresAt", VDate (cb_now net + tg_expiresIn grant * 1000));
              ("scopes", VStrs (tg_scope grant));
              ("lastValidated", VDate (cb_validated net));
              ("isValid", VBool true);
              ("needsReconnection", VBool false) ] in
            BaseConnectionProvider.saveConnection twitter (os_uid stored) connection;;
            mret connection
        end
    end.

Definition refreshToken (config : OAuthConfig) (connection : Obj)
    (net : RefreshNet) : M Obj :=
  emit (EvRefreshToken twitter);;
  if negb (configured config) then
    throw (Error "Twitter Client ID/Secret not configured")
  else if negb (truthy (field connection "refreshToken")) then
    throw (Error "Cannot refresh: Missing Twitter refresh token")
  else
    grant ← call (EvTokenRequest twitter) (rf_grant net);
    let updated := spread connection (obj [
      ("accessToken", VStr (tg_accessToken grant));
      ("refreshToken", coalesce (tg_refreshToken grant) (field connection "refreshToken"));
      ("expiresAt", VDate (rf_now net + tg_expiresIn grant * 1000));
      ("lastValidated", VDate (rf_validated net));
      ("isValid", VBool true);
      ("needsReconnection", VBool false) ]) in
    updateConnection (uidOf connection) twitter updated;;
    mret updated.

End TwitterConnectionProvider.

(** ** connections/linkedin.ts *)

Module LinkedInConnectionProvider.

Record TokenData : Type := mkTokenData {
  access_token : string;
  expires_in : Z;
  id_token : option string;
  refresh_token : option string
}.

Record AuthNet : Type := mkAuthNet {
  ia_now : Z;          (* clock read by generateId *)
  ia_createdAt : Z
}.

Record CallbackNet : Type := mkCallbackNet {
  cb_token : Outcome TokenData;  (* axios.post oauth/v2/accessToken: data *)
  cb_profile : Outcome string;   (* axios.get userinfo: data.sub *)
  cb_now : Z;
  cb_validated : Z
}.

Record RefreshNet : Type := mkRefreshNet {
  rf_token : Outcome TokenData;
  rf_now : Z;
  rf_validated : Z
}.

Section WithLibs.
Context `{Libs}.

Definition initiateAuth (config : OAuthConfig) (userId redirectUri : string)
    (net : AuthNet) : M (string * string) :=
  if negb (configured config) then
    throw (Error "LinkedIn Client ID/Secret not configured")
  else
    let state := Security.generateId (ia_now net) in
    let authorizationUrl :=
      urlWithParams "https://www.linkedin.com/oauth/v2/authorization"
        [("response_type", "code"); ("client_id", clientId config);
         ("redirect_uri", redirectUri); ("state", state);
         ("scope", "openid profile email w_member_social")] in
    BaseConnectionProvider.saveOAuthState state
      (mkOAuthState userId "" state (ia_createdAt net));;
    mret (authorizationUrl, state).

End WithLibs.

Definition handleCallback (config : OAuthConfig) (code state redirectUri : string)
    (net : CallbackNet) : M Obj :=
  if negb (configured config) then
    throw (Error "LinkedIn Client ID/Secret not configured")
  else
    storedState ← BaseConnectionProvider.getOAuthState state;
    match storedState with
    | None => throw (Error "Invalid or expired state parameter")
    | Some stored =>
        BaseConnectionProvider.deleteOAuthState state;;
        token ← call (EvTokenRequest linkedin) (cb_token net);
        sub ← call (EvUserInfo linkedin) (cb_profile net);
        let connection := obj [
          ("uid", VStr (os_uid stored));
          ("linkedInUserId", VStr sub);
          ("platform", VStr "linkedin");
          ("authVersion", VStr "oauth2");
          ("accessToken", VStr (access_token token));
          ("refreshToken",
             match refresh_token token with
             | Some t => if nonEmpty t then VStr t else VNull
             | None => VNull
             end);
          ("idToken", optStr (id_token token));
          ("expiresAt", VDate (cb_now net + expires_in token * 1000));
          ("lastValidated", VDate (cb_validated net));
          ("isValid", VBool true);
          ("needsReconnection", VBool false) ] in
        BaseConnectionProvider.saveConnection linkedin (os_uid stored) connection;;
        mret connection
    end.

Definition refreshToken (config : OAuthConfig) (connection : Obj)
    (net : RefreshNet) : M Obj :=
  emit (EvRefreshToken linkedin);;
  if negb (configured config) then
    throw (Error "LinkedIn Client ID/Secret not configured")
  else if negb (truthy (field connection "refreshToken")) then
    throw (Error "Cannot refresh: Missing LinkedIn refresh token")
  else
    token ← call (EvTokenRequest linkedin) (rf_token net);
    let updated := spread connection (obj [
      ("accessToken", VStr (access_token token));
      ("refreshToken", coalesce (refresh_token token) (field connection "refreshToken"));
      ("expiresAt", VDate (rf_now net + expires_in token * 1000));
      ("lastValidated", VDate (rf_validated net));
      ("isValid", VBool true);
      ("needsReconnection", VBool false) ]) in
    updateConnection (uidOf connection) linkedin updated;;
    mret updated.

End LinkedInConnectionProvider.

(** ** connections/tiktok.ts *)

Module TikTokConnectionProvider.

Record TokenData : Type := mkTokenData {
  access_token : string;
  refresh_token : option string;
  expires_in : Z;
  scope : string
}.

Record User : Type := mkUser { open_id : string; display_name : string }.

Record AuthNet : Type := mkAuthNet {
  ia_now : Z;            (* clock read by generateId *)
  ia_entropy : string;   (* random buffer of generateCodeVerifier, base64url *)
  ia_createdAt : Z
}.

Record CallbackNet : Type := mkCallbackNet {
  cb_token : Outcome TokenData;  (* axios.post oauth/token: data *)
  cb_user : Outcome User;        (* axios.get user/info: data.data.user *)
  cb_now : Z;
  cb_validated : Z
}.

Record RefreshNet : Type := mkRefreshNet {
  rf_token : Outcome TokenData;
  rf_now : Z;
  rf_validated : Z
}.

Section WithLibs.
Context `{Libs}.

(** [config.clientKey] is [clientId config]. *)
Definition initiateAuth (config : OAuthConfig) (userId redirectUri : string)
    (net : AuthNet) : M (string * string) :=
  if negb (configured config) then
    throw (Error "TikTok Client Key/Secret not configured")
  else
    let state := Security.generateId (ia_now net) in
    codeVerifier ← settle (Security.generateCodeVerifier 64 (ia_entropy net));
    let codeChallenge := Security.generateCodeChallenge codeVerifier in
    let url :=
      "https://www.tiktok.com/v2/auth/authorize/?client_key="
      +:+ encodeURIComponent (clientId config)
      +:+ "&scope=user.info.basic,video.upload,video.publish&response_type=code&redirect_uri="
      +:+ encodeURIComponent redirectUri
      +:+ "&state=" +:+ state
      +:+ "&code_challenge=" +:+ codeChallenge
      +:+ "&code_challenge_method=S256" in
    BaseConnectionProvider.saveOAuthState state
      (mkOAuthState userId codeVerifier state (ia_createdAt net));;
    mret (url, state).

End WithLibs.

Definition handleCallback (config : OAuthConfig) (code state redirectUri : string)
    (net : CallbackNet) : M Obj :=
  if negb (configured config) then
    throw (Error "TikTok Client Key/Secret not configured")
  else
    storedState ← BaseConnectionProvider.getOAuthState state;
    match storedState with
    | None => throw (Error "Invalid or expired state parameter")
    | Some stored =>
        BaseConnectionProvider.deleteOAuthState state;;
        token ← call (EvTokenRequest tiktok) (cb_token net);
        user ← call (EvUserInfo tiktok) (cb_user net);
        let connection := obj [
          ("uid", VStr (os_uid stored));
          ("tiktokUserId", VStr (open_id user));
          ("displayName", VStr (display_name user));
          ("platform", VStr "tiktok");
          ("authVersion", VStr "oauth2");
          ("accessToken", VStr (access_token token));
          ("refreshToken", optStr (refresh_token token));
          ("expiresAt", VDate (cb_now net + expires_in token * 1000));
          ("scopes", VStrs (splitComma (scope token)));
          ("lastValidated", VDate (cb_validated net));
          ("isValid", VBool true);
          ("needsReconnection", VBool false) ] in
        BaseConnectionProvider.saveConnection tiktok (os_uid stored) connection;;
        mret connection
    end.

Definition refreshToken (config : OAuthConfig) (connection : Obj)
    (net : RefreshNet) : M Obj :=
  emit (EvRefreshToken tiktok);;
  if negb (configured config) then
    throw (Error "TikTok Client Key/Secret not configured")
  else if negb (truthy (field connection "refreshToken")) then
    throw (Error "Cannot refresh: Missing TikTok refresh token")
  else
    token ← call (EvTokenRequest tiktok) (rf_token net);
    let updated := spread connection (obj [
      ("accessToken", VStr (access_token token));
      ("refreshToken", coalesce (refresh_token token) (field connection "refreshToken"));
      ("expiresAt", VDate (rf_now net + expires_in token * 1000));
      ("scopes", VStrs (splitComma (scope token)));
      ("lastValidated", VDate (rf_validated net));
      ("isValid", VBool true);
      ("needsReconnection", VBool false) ]) in
    updateConnection (uidOf connection) tiktok updated;;
    mret updated.

End TikTokConnectionProvider.

(** ** connections/threads.ts *)

Module ThreadsConnectionProvider.

Record TokenData : Type := mkTokenData {
  access_token : string;
  expires_in : option Z
}.

Record AuthNet : Type := mkAuthNet {
  ia_entropy : string;   (* randomBytes(32), base64url *)
  ia_createdAt : Z
}.

Record CallbackNet : Type := mkCallbackNet {
  cb_tokenResponse : Outcome (Response TokenData); (* fetch oauth/access_token *)
  cb_userResponse : Outcome (Response string);     (* fetch /me; json is its id *)
  cb_now : Z;
  cb_validated : Z
}.

Section WithLibs.
Context `{Libs}.

Definition initiateAuth (config : OAuthConfig) (userId redirectUri : string)
    (net : AuthNet) : M (string * string) :=
  if negb (configured config) then
    throw (Error "Threads Client ID/Secret not configured")
  else
    let state := Security.generateState (ia_entropy net) in
    BaseConnectionProvider.saveOAuthState state
      (mkOAuthState userId "" state (ia_createdAt net));;
    let authUrl :=
      urlWithParams "https://threads.net/oauth/authorize"
        [("client_id", clientId config); ("redirect_uri", redirectUri);
         ("scope", "threads_content_publish,threads_basic");
         ("response_type", "code"); ("state", state)] in
    mret (authUrl, state).

End WithLibs.

Definition handleCallback (config : OAuthConfig) (code state redirectUri : string)
    (net : CallbackNet) : M Obj :=
  if negb (configured config) then
    throw (Error "Threads Client ID/Secret not configured")
  else
    storedState ← BaseConnectionProvider.getOAuthState state;
    match storedState with
    | None => throw (Error "Invalid or expired state parameter")
    | Some stored =>
        BaseConnectionProvider.deleteOAuthState state;;
        tokenResponse ← call (EvTokenRequest threads) (cb_tokenResponse net);
        if negb (r_ok tokenResponse) then
          errorText ← settle (r_text tokenResponse);
          throw (Error ("Failed to exchange code for token: "
                        +:+ pretty (r_status tokenResponse) +:+ " - " +:+ errorText))
        else
          tokenData ← settle (r_json tokenResponse);
          userResponse ← call (EvUserInfo threads) (cb_userResponse net);
          if negb (r_ok userResponse) then
            throw (Error "Failed to fetch Threads user info")
          else
            threadsUserId ← settle (r_json userResponse);
            let expiresAt :=
              match expires_in tokenData with
              | Some n => if n =? 0 then VUndefined else VDate (cb_now net + n * 1000)
              | None => VUndefined
              end in
            let connection := obj [
              ("uid", VStr (os_uid stored));
              ("threadsUserId", VStr threadsUserId);
              ("platform", VStr "threads");
              ("accessToken", VStr (access_token tokenData));
              ("expiresAt", expiresAt);
              ("isValid", VBool true);
              ("needsReconnection", VBool false);
              ("lastValidated", VDate (cb_validated net)) ] in
            BaseConnectionProvider.saveConnection threads (os_uid stored) connection;;
            mret connection
    end.

(** Long-lived tokens: the connection is returned as it is. *)
Definition refreshToken (connection : Obj) : M Obj :=
  emit (EvRefreshToken threads);;
  mret connection.

End ThreadsConnectionProvider.

(** ** connections/bluesky.ts *)

Module BlueskyConnectionProvider.

Record RefreshData : Type := mkRefreshData {
  accessJwt : string;
  refreshJwt : string;
  handle : string;
  did : string
}.

Record RefreshNet : Type := mkRefreshNet {
  rf_response : Outcome (Response RefreshData); (* fetch refreshSession *)
  rf_validated : Z
}.

Section WithLibs.
Context `{Libs}.

Definition refreshToken (connection : Obj) (net : RefreshNet) : M Obj :=
  emit (EvRefreshToken bluesky);;
  if negb (truthy (field connection "refreshJwt")) then
    throw (Error "Cannot refresh: Missing Bluesky refresh token")
  else
    response ← call (EvTokenRequest bluesky) (rf_response net);
    if negb (r_ok response) then
      errorText ← settle (r_text response);
      let errorData := jsonErrorField errorText in
      (if bool_decide (errorData = Some "ExpiredToken")
          || bool_decide (errorData = Some "InvalidToken")
       then updateConnection (uidOf connection) bluesky markInvalid
       else mret tt);;
      throw (Error ("Failed to refresh Bluesky session: "
                    +:+ pretty (r_status response) +:+ " - " +:+ errorText))
    else
      refreshData ← settle (r_json response);
      let updated := spread connection (obj [
        ("accessJwt", VStr (accessJwt refreshData));
        ("refreshJwt", VStr (refreshJwt refreshData));
        ("handle", VStr (handle refreshData));
        ("did", VStr (did refreshData));
        ("lastValidated", VDate (rf_validated net));
        ("isValid", VBool true);
        ("needsReconnection", VBool false) ]) in
      updateConnection (uidOf connection) bluesky updated;;
      mret updated.

End WithLibs.

Record LoginData : Type := mkLoginData {
  l_success : bool;
  l_handle : string;
  l_accessJwt : string;
  l_refreshJwt : string;
  l_did : string
}.

Record ConnectNet : Type := mkConnectNet {
  cn_login : Outcome LoginData;            (* agent.login: success and data *)
  cn_profile : Outcome (Response unit);    (* fetch app.bsky.actor.getProfile *)
  cn_validated : Z
}.

(** [connect(userId, { handle, password, authFactorToken })]; the two
    [agent.login] calls differ in their arguments only. *)
Definition connect (userId handle password : string) (authFactorToken : option string)
    (net : ConnectNet) : M Obj :=
  response ←
    tryCatch
      (call (EvTokenRequest bluesky) (cn_login net))
      (fun loginError =>
         if nonEmpty (message loginError)
            && includes (message loginError)
                 "A sign in code has been sent to your email address"
         then throw (Error "authFactorToken required")
         else throw (Error ("Bluesky authentication failed: "
                            +:+ strOr (message loginError) "Unknown error")));
  if negb (l_success response) then throw (Error "Invalid Bluesky credentials")
  else
    tryCatch
      (profileResponse ← call (EvUserInfo bluesky) (cn_profile net);
       if r_ok profileResponse then settle (r_json profileResponse) else mret tt)
      (fun error => mret tt);;
    let connection := obj [
      ("uid", VStr userId);
      ("handle", VStr (l_handle response));
      ("accessJwt", VStr (l_accessJwt response));
      ("refreshJwt", VStr (l_refreshJwt response));
      ("did", VStr (l_did response));
      ("platform", VStr "bluesky");
      ("lastValidated", VDate (cn_validated net));
      ("isValid", VBool true);
      ("needsReconnection", VBool false) ] in
    BaseConnectionProvider.saveConnection bluesky userId connection;;
    mret connection.

Definition initiateAuth (userId redirectUri : string) : M (string * string) :=
  throw (Error "Bluesky uses handle/password authentication. Use connect() method instead.").

Definition handleCallback (code state redirectUri : string) : M Obj :=
  throw (Error "Bluesky does not use OAuth callbacks").

End BlueskyConnectionProvider.

(** ** connections/devto.ts *)

Module DevtoConnectionProvider.

Record UserData : Type := mkUserData {
  username : option string;
  name : option string
}.

Record ConnectNet : Type := mkConnectNet {
  cn_response : Outcome (Response UserData);   (* fetch /users/me *)
  cn_validated : Z
}.

Definition connect (userId apiKey : string) (net : ConnectNet) : M Obj :=
  response ← call (EvUserInfo devto) (cn_response net);
  if negb (r_ok response) then
    if (r_status response =? 401) || (r_status response =? 403) then
      throw (Error "Invalid API key. Please check your Dev.to API key.")
    else
      throw (Error ("Dev.to API error: " +:+ pretty (r_status response) +:+ " - "
                    +:+ r_statusText response))
  else
    userData ← settle (r_json response);
    let connection := obj [
      ("uid", VStr userId);
      ("apiKey", VStr (trim apiKey));
      ("username",
         match orUndefined (username userData) with
         | VUndefined => orUndefined (name userData)
         | v => v
         end);
      ("platform", VStr "devto");
      ("isValid", VBool true);
      ("needsReconnection", VBool false);
      ("lastValidated", VDate (cn_validated net)) ] in
    BaseConnectionProvider.saveConnection devto userId connection;;
    mret connection.

Definition initiateAuth (userId redirectUri : string) : M (string * string) :=
  throw (Error "Dev.to uses API key authentication. Use connect() method instead.").

Definition handleCallback (code state redirectUri : string) : M Obj :=
  throw (Error "Dev.to does not use OAuth callbacks").

Definition refreshToken (connection : Obj) : M Obj := mret connection.

End DevtoConnectionProvider.

(** ** connections/github.ts *)

Module GitHubConnectionProvider.

Record UserData : Type := mkUserData {
  login : option string;
  id : option Z;
  avatar_url : option string
}.

Record ConnectNet : Type := mkConnectNet {
  cn_response : Outcome (Response UserData);   (* fetch api.github.com/user *)
  cn_validated : Z
}.

Definition connect (userId token : string) (net : ConnectNet) : M Obj :=
  response ← call (EvUserInfo github) (cn_response net);
  if negb (r_ok response) then
    if (r_status response =? 401) || (r_status response =? 403) then
      throw (Error "Invalid token. Please check your GitHub Personal Access Token.")
    else
      throw (Error ("GitHub API error: " +:+ pretty (r_status response) +:+ " - "
                    +:+ r_statusText response))
  else
    userData ← settle (r_json response);
    let connection := obj [
      ("uid", VStr userId);
      ("token", VStr (trim token));
      ("username", orUndefined (login userData));
      ("userId", orUndefined (pretty <$> id userData));
      ("avatar", orUndefined (avatar_url userData));
      ("platform", VStr "github");
      ("isValid", VBool true);
      ("needsReconnection", VBool false);
      ("lastValidated", VDate (cn_validated net)) ] in
    BaseConnectionProvider.saveConnection github userId connection;;
    mret connection.

Definition initiateAuth (userId redirectUri : string) : M (string * string) :=
  throw (Error "GitHub uses token authentication. Use connect() method instead.").

Definition handleCallback (code state redirectUri : string) : M Obj :=
  throw (Error "GitHub does not use OAuth callbacks in this implementation").

Definition refreshToken (connection : Obj) : M Obj := mret connection.

End GitHubConnectionProvider.

(** ** connections/discord.ts *)

Module DiscordConnectionProvider.

Record WebhookData : Type := mkWebhookData {
  channel_id : option string;
  guild_id : option string
}.

Record ConnectNet : Type := mkConnectNet {
  cn_response : Outcome (Response WebhookData);   (* fetch(webhookUrl) *)
  cn_validated : Z
}.

(** [parseWebhookUrl]: the match of
    [/^https:\/\/(?:(?:ptb|canary)\.)?discord(?:app)?\.com\/api\/webhooks\/(\d+)\/([\w-]+)/i]
    against the trimmed URL, as [(webhookId, webhookToken)]. *)
Definition parseWebhookUrl (webhookUrl : string) : option (string * string) :=
  afterScheme ← stripPrefixCI "https://" (trim webhookUrl);
  let afterSubdomain :=
    match stripPrefixCI "ptb." afterScheme with
    | Some rest => rest
    | None => optionalPrefixCI "canary." afterScheme
    end in
  afterName ← stripPrefixCI "discord" afterSubdomain;
  afterPath ← stripPrefixCI ".com/api/webhooks/" (optionalPrefixCI "app" afterName);
  let webhookId := takeWhile isDigit afterPath in
  if negb (nonEmpty webhookId) then None
  else
    afterId ← stripPrefixCI "/" (dropWhile isDigit afterPath);
    let webhookToken := takeWhile (fun c => isWordChar c || Ascii.eqb c "-") afterId in
    if negb (nonEmpty webhookToken) then None
    else Some (webhookId, webhookToken).

Definition connect (userId webhookUrl : string) (channelName guildName : option string)
    (net : ConnectNet) : M Obj :=
  match parseWebhookUrl webhookUrl with
  | None =>
      throw (Error "Please enter a Discord webhook URL that matches https://discord.com/api/webhooks/{id}/{token}")
  | Some (webhookId, webhookToken) =>
      response ← call (EvUserInfo discord) (cn_response net);
      if negb (r_ok response) then
        throw (Error "Discord rejected the webhook URL. Please make sure it is still active.")
      else
        webhookData ← settle (r_json response);
        let connection := obj [
          ("uid", VStr userId);
          ("webhookUrl", VStr webhookUrl);
          ("webhookId", VStr webhookId);
          ("webhookToken", VStr webhookToken);
          ("channelName", orElse channelName (channel_id webhookData));
          ("guildName", orElse guildName (guild_id webhookData));
          ("platform", VStr "discord");
          ("isValid", VBool true);
          ("needsReconnection", VBool false);
          ("lastValidated", VDate (cn_validated net)) ] in
        BaseConnectionProvider.saveConnection discord userId connection;;
        mret connection
  end.

Definition initiateAuth (userId redirectUri : string) : M (string * string) :=
  throw (Error "Discord uses webhook authentication. Use connect() method instead.").

Definition handleCallback (code state redirectUri : string) : M Obj :=
  throw (Error "Discord does not use OAuth callbacks").

Definition refreshToken (connection : Obj) : M Obj := mret connection.

End DiscordConnectionProvider.

(** ** Post options and results (types.ts) *)

Record PostOptions : Type := mkPostOptions {
  text : string;
  mediaUrl : option string;      (* absent for null / undefined *)
  mediaAltText : option string;
  projectName : option string;
  postData : option Obj
}.

Record PostResult : Type := mkPostResult {
  platform : option string;
  success : bool;
  result : option Obj;
  error : option string
}.

Definition succeeded (p : Platform) (r : Obj) : PostResult :=
  mkPostResult (Some (platformName p)) true (Some r) None.

Definition failed (p : Platform) (msg : string) : PostResult :=
  mkPostResult (Some (platformName p)) false None (Some msg).

(** [options.mediaUrl] when truthy. *)
Definition media (options : PostOptions) : option string :=
  match mediaUrl options with
  | Some url => if nonEmpty url then Some url else None
  | None => None
  end.

(** The outcome of a computation as a value. *)
Definition attempt {A} (m : M A) : M (Outcome A) :=
  fun w => match m w with (o, w') => (Returned o, w') end.

(** ** handlers/twitter.ts *)

Module TwitterHandler.

Definition REFRESH_BUFFER_SECONDS : Z := 300.

Record Net : Type := mkNet {
  now : Z;                                           (* Date.now() *)
  proactive : TwitterConnectionProvider.RefreshNet;
  download : Outcome Media.Fetched;                  (* fetchWithRetry(mediaUrl) *)
  upload : Outcome string;                           (* v2.uploadMedia *)
  tweet : Outcome string;                            (* v2.tweet: result.data.id *)
  validated : Z;                                     (* new Date() *)
  reactive : TwitterConnectionProvider.RefreshNet;
  retry : Outcome string;                            (* v2.tweet after the refresh *)
  revalidated : Z
}.

Section WithLibs.
Context `{Libs}.

(** [expiresAt instanceof Date ? expiresAt.getTime()
     : expiresAt.toMillis?.() || expiresAt], as the number it compares
    as; [None] is NaN. *)
Definition expiryTime (expiresAt : JsVal) : option Z :=
  match expiresAt with
  | VDate ms => Some ms
  | VTimestamp ms => if ms =? 0 then None else Some ms
  | VNum n => Some n
  | VBool b => Some (if b then 1 else 0)
  | VStr s => numberOfString s
  | VStrs l => numberOfString (String.concat "," l)
  | VNull => Some 0
  | VUndefined => None
  end.

(** The proactive refresh check. *)
Definition needsRefresh (connection : Obj) (now : Z) : bool :=
  let expiresAt := field connection "expiresAt" in
  if negb (truthy expiresAt) then true
  else
    match expiryTime expiresAt with
    | Some t => t <=? now + REFRESH_BUFFER_SECONDS * 1000
    | None => false
    end.

Definition isAuthErrorTwitter (tweetError : JsError) : bool :=
  isApiResponseError tweetError
  && (Security.statusIs (err_code tweetError) 401
      || Security.statusIs (err_code tweetError) 403).

Definition tweeted (tweetId : string) : PostResult :=
  succeeded twitter (obj [("id", VStr tweetId); ("tweetId", VStr tweetId)]).

(** The media upload block: any failure continues without media. *)
Definition uploadMedia (options : PostOptions) (net : Net) : M (option string) :=
  match media options with
  | Some url =>
      tryCatch
        ('(_, mimeType) ← Media.downloadMedia twitter (download net);
         match mimeType with
         | Some mt =>
             if negb (nonEmpty mt) then
               throw (Error "Could not determine media MIME type")
             else
               settle (Media.getTwitterMediaTypeCategory mt);;
               uploadResult ← call (EvMedia twitter) (upload net);
               mret (Some uploadResult)
         | None => throw (Error "Could not determine media MIME type")
         end)
        (fun mediaError => mret None)
  | None => mret None
  end.

(** The "Send Tweet" block: the tweet, the write-back, and the reactive
    refresh with one retry. *)
Definition publish (config : OAuthConfig) (userId : string) (twitterConn : Obj)
    (needsRefresh : bool) (net : Net) : M PostResult :=
  tryCatch
    (tweetId ← call (EvPublish twitter) (tweet net);
     updateConnection userId twitter (markValid (validated net));;
     mret (tweeted tweetId))
    (fun tweetError =>
       if isAuthErrorTwitter tweetError && negb needsRefresh then
         tryCatch
           (TwitterConnectionProvider.refreshToken config twitterConn (reactive net);;
            tweetId ← call (EvPublish twitter) (retry net);
            updateConnection userId twitter (markValid (revalidated net));;
            mret (tweeted tweetId))
           (fun refreshOrRetryError =>
              updateConnection userId twitter markInvalid;;
              mret (failed twitter ("Twitter reactive refresh/retry failed: "
                                    +:+ message refreshOrRetryError)))
       else
         (if isAuthErrorTwitter tweetError
          then updateConnection userId twitter markInvalid
          else mret tt);;
         mret (failed twitter (strOr (message tweetError) "Unknown Twitter Error"))).

Definition sendPost (config : OAuthConfig) (userId : string) (connection : Obj)
    (options : PostOptions) (net : Net) : M PostResult :=
  if negb (truthy (field connection "accessToken")) then
    throw (Error "Missing Twitter accessToken")
  else
    let needsRefresh := needsRefresh connection (now net) in
    twitterConn ←
      (if needsRefresh then
         tryCatch
           (TwitterConnectionProvider.refreshToken config connection (proactive net))
           (fun refreshError =>
              updateConnection userId twitter markInvalid;;
              throw (Error ("Twitter token refresh failed: " +:+ message refreshError)))
       else mret connection);
    if negb (truthy (field twitterConn "accessToken")) then
      throw (Error "Missing Twitter accessToken")
    else
      mediaUploadId ← uploadMedia options net;
      publish config userId twitterConn needsRefresh net.

End WithLibs.

End TwitterHandler.

(** ** handlers/linkedin.ts *)

Module LinkedInHandler.

Record Net : Type := mkNet {
  now : Z;                                          (* Date.now() in isTokenExpired *)
  refresh : LinkedInConnectionProvider.RefreshNet;
  register : Outcome (string * string);             (* registerUpload: uploadUrl, asset *)
  binaryGet : Outcome unit;                         (* axios.get(fileUrl) *)
  binaryPut : Outcome unit;                         (* axios.put(uploadUrl) *)
  ugcPosts : Outcome (Response unit);               (* fetch ugcPosts *)
  restLiId : option string;                         (* headers.get("x-restli-id") *)
  validated : Z
}.

(** [/(\.mp4|\.mov|\.avi|\.webm)(\?|$)/i.test(url)] *)
Definition isVideo (url : string) : bool :=
  let u := toLowerCase url in
  existsb (fun e => endsWith u e || includes u (e +:+ "?"))
          [".mp4"; ".mov"; ".avi"; ".webm"].

(** [{ id: restLiId || undefined }] *)
Definition posted (restLiId : option string) : PostResult :=
  succeeded linkedin (obj [("id",
    match restLiId with
    | Some i => if nonEmpty i then VStr i else VUndefined
    | None => VUndefined
    end)]).

(** The UGC post request with its write-back. *)
Definition publish (userId : string) (net : Net) : M PostResult :=
  tryCatch
    (response ← call (EvPublish linkedin) (ugcPosts net);
     if negb (r_ok response) then
       errorBody ← settle (r_text response);
       updateConnection userId linkedin markInvalid;;
       mret (failed linkedin
               ("LinkedIn API Error: " +:+ pretty (r_status response) +:+ " - "
                +:+ r_statusText response +:+ " - " +:+ errorBody))
     else
       updateConnection userId linkedin (markValid (validated net));;
       mret (posted (restLiId net)))
    (fun error =>
       updateConnection userId linkedin markInvalid;;
       mret (failed linkedin (strOr (message error) "Unknown LinkedIn error"))).

Section WithLibs.
Context `{Libs}.

(** The media block: register, fetch, PUT; any failure continues without
    media. *)
Definition uploadMedia (options : PostOptions) (net : Net) : M (option string) :=
  match media options with
  | Some url =>
      tryCatch
        ('(uploadUrl, asset) ← call (EvMedia linkedin) (register net);
         call (EvMedia linkedin) (binaryGet net);;
         call (EvMedia linkedin) (binaryPut net);;
         mret (Some asset))
        (fun mediaError => mret None)
  | None => mret None
  end.

Definition sendPost (config : OAuthConfig) (userId : string) (connection : Obj)
    (options : PostOptions) (net : Net) : M PostResult :=
  if negb (truthy (field connection "accessToken")) then
    throw (Error "Missing LinkedIn accessToken")
  else if negb (truthy (field connection "linkedInUserId")) then
    throw (Error "Missing LinkedIn memberId. Ensure this is stored upon user connection.")
  else
    linkedinConn ←
      (if Security.isTokenExpired (field connection "accessToken") (now net) then
         tryCatch
           (LinkedInConnectionProvider.refreshToken config connection (refresh net))
           (fun refreshError =>
              updateConnection userId linkedin markInvalid;;
              throw (Error ("LinkedIn token refresh failed: " +:+ message refreshError)))
       else mret connection);
    mediaPayload ← uploadMedia options net;
    publish userId net.

End WithLibs.

End LinkedInHandler.

(** ** handlers/tiktok.ts *)

Module TikTokHandler.

Definition MIN_CHUNK_SIZE_BYTES : Z := 5 * 1024 * 1024.
Definition MAX_CHUNK_SIZE_BYTES : Z := 64 * 1024 * 1024.
Definition DEFAULT_CHUNK_SIZE_BYTES : Z := 20 * 1024 * 1024.

(** [Math.ceil(a / b)] for a positive divisor. *)
Definition ceilDiv (a b : Z) : Z := - ((- a) / b).

(** The chunk-sizing policy at the head of [handleVideoUpload]:
    [(effectiveChunkSize, totalChunks)]. *)
Definition chunkSizing (fileSize : Z) : Z * Z :=
  if fileSize <? MIN_CHUNK_SIZE_BYTES then (fileSize, 1)
  else if fileSize <=? MAX_CHUNK_SIZE_BYTES then (fileSize, 1)
  else
    let effectiveChunkSize := DEFAULT_CHUNK_SIZE_BYTES in
    let totalChunks := ceilDiv fileSize effectiveChunkSize in
    if 1000 <? totalChunks then
      let effectiveChunkSize := ceilDiv fileSize 1000 in
      let effectiveChunkSize := Z.max effectiveChunkSize MIN_CHUNK_SIZE_BYTES in
      let effectiveChunkSize := Z.min effectiveChunkSize MAX_CHUNK_SIZE_BYTES in
      (effectiveChunkSize, ceilDiv fileSize effectiveChunkSize)
    else (effectiveChunkSize, totalChunks).

Definition effectiveChunkSize (fileSize : Z) : Z := fst (chunkSizing fileSize).
Definition totalChunks (fileSize : Z) : Z := snd (chunkSizing fileSize).

Record InitData : Type := mkInitData { publish_id : string; upload_url : string }.

Record Net : Type := mkNet {
  now : Z;                                     (* Date.now() in isTokenExpired *)
  refresh : TikTokConnectionProvider.RefreshNet;
  download : Outcome string;                   (* downloadFileFromUrl: temp path *)
  stat : Outcome Z;                            (* fs.statSync(filePath).size *)
  videoInit : Outcome (option InitData);       (* video/init: response.data.data *)
  putChunk : nat -> Outcome unit;              (* axios.put of the i-th chunk *)
  videoPublish : Outcome unit;                 (* video/publish *)
  photoInit : Outcome (option string);         (* content/init: data.publish_id *)
  photoPublish : Outcome unit;                 (* content/publish *)
  validated : Z
}.

(** The chunks a read stream with the given [highWaterMark] yields, as
    [(start, end)] byte offsets. *)
Fixpoint streamChunks (n : nat) (bytesUploaded fileSize highWaterMark : Z)
    : list (Z * Z) :=
  match n with
  | O => []
  | S n' =>
      if fileSize <=? bytesUploaded then []
      else
        let len := Z.min highWaterMark (fileSize - bytesUploaded) in
        (bytesUploaded, bytesUploaded + len - 1)
          :: streamChunks n' (bytesUploaded + len) fileSize highWaterMark
  end.

Fixpoint putChunks (net : Net) (chunkIndex : nat) (chunks : list (Z * Z)) : M unit :=
  match chunks with
  | [] => mret tt
  | _ :: rest =>
      call (EvMedia tiktok) (putChunk net chunkIndex);;
      putChunks net (S chunkIndex) rest
  end.

Definition initVideoUpload (net : Net) : M InitData :=
  data ← call (EvMedia tiktok) (videoInit net);
  match data with
  | None => throw (Error "TikTok init video upload response missing data.")
  | Some d =>
      if negb (nonEmpty (publish_id d)) || negb (nonEmpty (upload_url d)) then
        throw (Error "TikTok init video upload response missing publish_id or upload_url.")
      else mret d
  end.

Definition handleVideoUpload (fileSize : Z) (net : Net) : M string :=
  let '(effectiveChunkSize, totalChunks) := chunkSizing fileSize in
  init ← initVideoUpload net;
  putChunks net 0
    (if 0 <? effectiveChunkSize
     then streamChunks (Z.to_nat (ceilDiv fileSize effectiveChunkSize))
                       0 fileSize effectiveChunkSize
     else []);;
  call (EvPublish tiktok) (videoPublish net);;
  mret (publish_id init).

Definition initPhotoUpload (net : Net) : M string :=
  data ← call (EvMedia tiktok) (photoInit net);
  match data with
  | None => throw (Error "TikTok init photo upload response missing data.")
  | Some publish_id =>
      if negb (nonEmpty publish_id) then
        throw (Error "TikTok init photo upload response missing publish_id.")
      else mret publish_id
  end.

Definition handlePhotoUpload (net : Net) : M string :=
  publish_id ← initPhotoUpload net;
  call (EvPublish tiktok) (photoPublish net);;
  mret publish_id.

Definition cleanupTempFile (filePath : string) : M unit := emit (EvCleanup filePath).

(** The [post_info] texts of [handleVideoUpload] and [initPhotoUpload]:
    [text.substring(0, Math.min(text.length, n)) || fallback]. *)
Definition clip (n : nat) (text fallback : string) : string :=
  strOr (String.substring 0 (Nat.min (String.length text) n) text) fallback.

Definition videoTitle (text : string) : string := clip 90 text "New Video Post".
Definition videoDescription (text : string) : string := clip 4000 text "".
Definition photoTitle (text : string) : string := clip 90 text "".
Definition photoDescription (text : string) : string := clip 4000 text "".

(** [error.response?.data?.error?.message || error.message || "Unknown TikTok Error"] *)
Definition errorText (error : JsError) : string :=
  match err_responseMessage error with
  | Some m => if nonEmpty m then m else strOr (message error) "Unknown TikTok Error"
  | None => strOr (message error) "Unknown TikTok Error"
  end.

(** The tail of the [try] block once the video branch has set
    [publishId], under the [catch] and the [finally] for the current
    [filePath]. *)
Definition finish (userId : string) (net : Net) (filePath : option string)
    (publishId : M (option string)) : M PostResult :=
  tryFinally
    (tryCatch
       (videoId ← publishId;
        publishId ← match videoId with
                    | Some i => mret i
                    | None => handlePhotoUpload net
                    end;
        if negb (nonEmpty publishId) then
          throw (Error "TikTok publish_id was not received after media handling.")
        else
          updateConnection userId tiktok (markValid (validated net));;
          mret (succeeded tiktok (obj [("publish_id", VStr publishId)])))
       (fun error =>
          updateConnection userId tiktok markInvalid;;
          mret (failed tiktok (errorText error))))
    (match filePath with
     | Some p => cleanupTempFile p
     | None => mret tt
     end).

(** The [try] / [catch] / [finally] block of [sendPost]: download, upload
    as video or photo, publish, write back, clean up. *)
Definition upload (userId url : string) (net : Net) : M PostResult :=
  if Media.isVideoFile url then
    downloaded ← attempt (call (EvMedia tiktok) (download net));
    match downloaded with
    | Thrown e => finish userId net None (throw e)
    | Returned filePath =>
        match stat net with
        | Thrown e => finish userId net (Some filePath) (throw e)
        | Returned fileSize =>
            if negb (Media.isVideoFile filePath) then
              cleanupTempFile filePath;;
              finish userId net None (mret None)
            else
              finish userId net (Some filePath)
                (publishId ← handleVideoUpload fileSize net;
                 mret (if nonEmpty publishId then Some publishId else None))
        end
    end
  else finish userId net None (mret None).

Section WithLibs.
Context `{Libs}.

Definition sendPost (config : OAuthConfig) (userId : string) (connection : Obj)
    (options : PostOptions) (net : Net) : M PostResult :=
  if negb (truthy (field connection "accessToken")) then
    throw (Error "Missing TikTok accessToken")
  else
    match media options with
    | None => throw (Error "Missing mediaUrl for TikTok post")
    | Some url =>
        tiktokConn ←
          (if Security.isTokenExpired (field connection "accessToken") (now net) then
             tryCatch
               (TikTokConnectionProvider.refreshToken config connection (refresh net))
               (fun refreshError =>
                  updateConnection userId tiktok markInvalid;;
                  throw (Error ("TikTok token refresh failed: " +:+ message refreshError)))
           else mret connection);
        upload userId url net
    end.

End WithLibs.

End TikTokHandler.

(** ** handlers/discord.ts *)

Module DiscordHandler.

Record Net : Type := mkNet {
  publish : Outcome (Response unit);   (* fetch(webhookUrl) *)
  validated : Z
}.

Definition sendPost (userId : string) (connection : Obj) (options : PostOptions)
    (net : Net) : M PostResult :=
  if negb (truthy (field connection "webhookUrl")) then
    throw (Error "Discord webhook URL is missing")
  else
    tryCatch
      (response ← call (EvPublish discord) (publish net);
       if negb (r_ok response) then
         errorBody ← settle (r_text response);
         updateConnection userId discord markInvalid;;
         mret (failed discord
                 ("Discord webhook error: " +:+ pretty (r_status response) +:+ " "
                  +:+ r_statusText response))
       else
         updateConnection userId discord (markValid (validated net));;
         mret (succeeded discord ∅))
      (fun error =>
         updateConnection userId discord markInvalid;;
         mret (failed discord (strOr (message error) "Unknown Discord error"))).

Definition DISCORD_CHAR_LIMIT : nat := 2000.

(** [options.projectName ? `Summary update for ${...}` : "Social media update"] *)
Definition fallbackText (options : PostOptions) : string :=
  match projectName options with
  | Some name =>
      if nonEmpty name then "Summary update for " +:+ name else "Social media update"
  | None => "Social media update"
  end.

(** The [content] of the webhook payload:
    [(trimmedText || fallbackText).slice(0, DISCORD_CHAR_LIMIT)]. *)
Definition content (options : PostOptions) : string :=
  String.substring 0 DISCORD_CHAR_LIMIT
    (strOr (trim (text options)) (fallbackText options)).

End DiscordHandler.

(** ** handlers/threads.ts *)

Module ThreadsHandler.

Record Net : Type := mkNet {
  container : Outcome (Response string);  (* fetch /threads; json is its id *)
  publish : Outcome (Response string);    (* fetch /threads_publish; json is its id *)
  validated : Z
}.

Definition apiError (step : string) (response : Response string) (errorBody : string)
    : string :=
  "Threads API Error (" +:+ step +:+ "): " +:+ pretty (r_status response) +:+ " - "
  +:+ r_statusText response +:+ " - " +:+ errorBody.

Definition sendPost (userId : string) (connection : Obj) (options : PostOptions)
    (net : Net) : M PostResult :=
  if negb (truthy (field connection "accessToken")) then
    throw (Error "Missing Threads accessToken")
  else if negb (truthy (field connection "threadsUserId")) then
    throw (Error "Missing Threads userId. Ensure this is stored upon user connection.")
  else
    tryCatch
      (createContainerResponse ← call (EvPublish threads) (container net);
       if negb (r_ok createContainerResponse) then
         errorBody ← settle (r_text createContainerResponse);
         updateConnection userId threads markInvalid;;
         mret (failed threads (apiError "create container" createContainerResponse errorBody))
       else
         mediaContainerId ← settle (r_json createContainerResponse);
         emit (EvSleep 30000);;
         publishResponse ← call (EvPublish threads) (publish net);
         if negb (r_ok publishResponse) then
           errorBody ← settle (r_text publishResponse);
           updateConnection userId threads markInvalid;;
           mret (failed threads (apiError "publish" publishResponse errorBody))
         else
           threadId ← settle (r_json publishResponse);
           updateConnection userId threads (markValid (validated net));;
           mret (succeeded threads (obj [("id", VStr threadId)])))
      (fun error =>
         updateConnection userId threads markInvalid;;
         mret (failed threads (strOr (message error) "Unknown Threads error"))).

End ThreadsHandler.

(** ** handlers/devto.ts *)

Module DevtoHandler.

Record Article : Type := mkArticle { id : Z; url : string; title : string }.

Record Net : Type := mkNet {
  publish : Outcome (Response Article);   (* fetch /articles *)
  validated : Z
}.

Definition isAuthError (status : Z) : bool := (status =? 401) || (status =? 403).

Definition sendPost (userId : string) (connection : Obj) (options : PostOptions)
    (net : Net) : M PostResult :=
  if negb (truthy (field connection "apiKey")) then
    throw (Error "Missing Dev.to API key")
  else
    tryCatch
      (response ← call (EvPublish devto) (publish net);
       if negb (r_ok response) then
         errorBody ← settle (r_text response);
         (if isAuthError (r_status response)
          then updateConnection userId devto markInvalid
          else mret tt);;
         mret (failed devto
                 ("Dev.to API Error: " +:+ pretty (r_status response) +:+ " - "
                  +:+ r_statusText response +:+ " - " +:+ errorBody))
       else
         resultData ← settle (r_json response);
         updateConnection userId devto (markValid (validated net));;
         mret (succeeded devto
                 (obj [("id", VStr (pretty (id resultData)));
                       ("url", VStr (url resultData));
                       ("title", VStr (title resultData))])))
      (fun error =>
         updateConnection userId devto markInvalid;;
         mret (failed devto (strOr (message error) "Unknown Dev.to API error"))).

(** [parseContent(text)]: title and body. *)
Definition parseContent (text : string) : string * string :=
  let lines := splitLines text in
  let line0 := default EmptyString (lines !! 0%nat) in
  let line1 := default EmptyString (lines !! 1%nat) in
  if (3 <=? length lines)%nat && nonEmpty (trim line0) && negb (nonEmpty (trim line1))
  then
    let title := trim line0 in
    let body := trim (joinLines (drop 2 lines)) in
    (title, strOr body text)
  else
    let firstLine := trim line0 in
    let title :=
      if (60 <? String.length firstLine)%nat
      then String.substring 0 57 firstLine +:+ "..."
      else strOr firstLine "Untitled Article" in
    (title, text).

(** The first groups of the matches of [/#(\w+)/g] in the text, in
    order; [current] is the word being read after a [#]. *)
Fixpoint hashtags (text : string) (current : option string) : list string :=
  let finished :=
    match current with
    | Some word => if nonEmpty word then [word] else []
    | None => []
    end in
  match text with
  | EmptyString => finished
  | String c rest =>
      match current with
      | Some word =>
          if isWordChar c then hashtags rest (Some (word +:+ String c EmptyString))
          else finished ++ hashtags rest (if Ascii.eqb c "#" then Some EmptyString else None)
      | None => hashtags rest (if Ascii.eqb c "#" then Some EmptyString else None)
      end
  end.

(** The loop of [extractTags] over the matches. *)
Definition pushTag (tags : list string) (word : string) : list string :=
  let tag := toLowerCase word in
  if ((0 <? String.length tag) && (String.length tag <=? 20))%nat
     && negb (bool_decide (tag ∈ tags))
  then tags ++ [tag] else tags.

(** [extractTags(text)] *)
Definition extractTags (text : string) : list string :=
  take 4 (foldl pushTag [] (hashtags text None)).

(** [tags.length > 0 ? tags : ["general", "development"]] *)
Definition articleTags (tags : list string) : list string :=
  match tags with
  | [] => ["general"; "development"]
  | _ => tags
  end.

End DevtoHandler.

(** ** handlers/github.ts *)

Module GitHubHandler.

Definition sendPost (userId : string) (connection : Obj) (options : PostOptions)
    : M PostResult :=
  if negb (truthy (field connection "token")) then
    throw (Error "Missing GitHub token")
  else
    mret (failed github
            "GitHub posting is not implemented. GitHub is primarily used for repository management, not social posting.").

End GitHubHandler.

(** ** handlers/bluesky.ts *)

Module BlueskyHandler.

Definition BLUESKY_LIMIT_MB : Z := 1.

Record VideoNet : Type := mkVideoNet {
  serviceAuth : Outcome unit;              (* getServiceAuth *)
  videoFetch : Outcome (Response unit);    (* fetch(videoUrl) and its arrayBuffer *)
  uploadJob : Outcome (option string);     (* uploadVideo: jobStatus.blob *)
  pending : nat;                           (* status polls that report no blob yet *)
  finalStatus : Outcome string;            (* the poll that reports the blob *)
  dimensions : Outcome unit                (* getVideoDimensions *)
}.

Record Net : Type := mkNet {
  now : Z;                                 (* Date.now() in isTokenExpired *)
  resume : Outcome unit;                   (* agent.resumeSession *)
  refresh : BlueskyConnectionProvider.RefreshNet;
  resumeAgain : Outcome unit;
  sessionAtMedia : bool;                   (* agent.session is set *)
  video : VideoNet;
  download : Outcome Media.Fetched;
  uploadBlob : Outcome unit;
  sessionAtPost : bool;
  detectFacets : Outcome unit;
  post : Outcome (string * string);        (* agent.post: uri, cid *)
  validated : Z;
  refreshSession : Outcome unit;           (* agent.com.atproto.server.refreshSession *)
  newSession : option (string * string);   (* agent.session: accessJwt, refreshJwt *)
  revalidated : Z;
  repost : Outcome (string * string)
}.

(** The job-status loop of [uploadVideo], for a job that reports its blob
    after [pending] empty polls. *)
Fixpoint pollJob (pending : nat) (finalStatus : Outcome string) : M string :=
  match pending with
  | O =>
      blob ← call (EvMedia bluesky) finalStatus;
      emit (EvSleep 1000);;
      mret blob
  | S n =>
      call (EvMedia bluesky) (Returned tt);;
      emit (EvSleep 1000);;
      pollJob n finalStatus
  end.

Definition uploadVideo (net : VideoNet) : M string :=
  call (EvMedia bluesky) (serviceAuth net);;
  response ← call (EvMedia bluesky) (videoFetch net);
  if negb (r_ok response) then
    throw (Error ("Failed to fetch video: " +:+ r_statusText response))
  else
    jobBlob ← call (EvMedia bluesky) (uploadJob net);
    blob ← match jobBlob with
           | Some b => mret b
           | None => pollJob (pending net) (finalStatus net)
           end;
    settle (dimensions net);;
    mret blob.

(** [(n / 1024 / 1024).toFixed(2)] *)
Definition toFixed2MB (n : Z) : string :=
  let hundredths := (n * 100 + 524288) / 1048576 in
  let frac := hundredths mod 100 in
  pretty (hundredths / 100) +:+ "."
  +:+ (if frac <? 10 then "0" else "") +:+ pretty frac.

Definition posted (r : string * string) : PostResult :=
  succeeded bluesky (obj [("uri", VStr (fst r)); ("cid", VStr (snd r))]).

(** The media block; a [Return_] leaves [sendPost]. *)
Definition uploadMedia (options : PostOptions) (net : Net) : M (Flow PostResult unit) :=
  match media options with
  | None => mret (Next tt)
  | Some url =>
      tryCatch
        (if Media.isVideoFile url then
           if negb (sessionAtMedia net) then
             mret (Return_ (failed bluesky "Bluesky agent session lost before video upload."))
           else
             uploadVideo (video net);;
             mret (Next tt)
         else
           '(length, mimeType) ← Media.downloadMedia bluesky (download net);
           if BLUESKY_LIMIT_MB * 1024 * 1024 <? length then
             mret (Return_ (failed bluesky
                     ("Bluesky media size (" +:+ toFixed2MB length +:+ " MB) exceeds "
                      +:+ pretty BLUESKY_LIMIT_MB +:+ "MB limit.")))
           else if negb (sessionAtMedia net) then
             mret (Return_ (failed bluesky "Bluesky agent session lost before image upload."))
           else
             call (EvMedia bluesky) (uploadBlob net);;
             mret (Next tt))
        (fun mediaError =>
           mret (Return_ (failed bluesky
                   ("Bluesky media upload failed: " +:+ message mediaError))))
  end.

Section WithLibs.
Context `{Libs}.

(** Session resumption with the reactive refresh of an expired session;
    [Next (connection, sessionRefreshedProactively)]. *)
Definition resumeSession (userId : string) (connection : Obj) (net : Net)
    : M (Flow PostResult (Obj * bool)) :=
  tryCatch
    (call (EvResume bluesky) (resume net);;
     mret (Next (connection, false)))
    (fun resumeError =>
       if Security.isTokenExpired (field connection "accessJwt") (now net)
          || Security.isAuthError "bluesky" resumeError
       then
         tryCatch
           (bskyConn ← BlueskyConnectionProvider.refreshToken connection (refresh net);
            call (EvResume bluesky) (resumeAgain net);;
            mret (Next (bskyConn, true)))
           (fun refreshError =>
              updateConnection userId bluesky markInvalid;;
              mret (Return_ (failed bluesky
                      ("Bluesky session refresh failed: " +:+ message refreshError))))
       else throw resumeError).

(** The publish block once the post record is built. *)
Definition publish (userId : string) (sessionRefreshedProactively : bool) (net : Net)
    : M PostResult :=
  tryCatch
    (result ← call (EvPublish bluesky) (post net);
     (if negb sessionRefreshedProactively
      then updateConnection userId bluesky (markValid (validated net))
      else mret tt);;
     mret (posted result))
    (fun apiError =>
       retried ←
         (if negb sessionRefreshedProactively && Security.isAuthError "bluesky" apiError
          then
            tryCatch
              (call (EvTokenRequest bluesky) (refreshSession net);;
               match newSession net with
               | Some (accessJwt, refreshJwt) =>
                   if nonEmpty accessJwt && nonEmpty refreshJwt then
                     updateConnection userId bluesky
                       (obj [("accessJwt", VStr accessJwt);
                             ("refreshJwt", VStr refreshJwt);
                             ("isValid", VBool true);
                             ("needsReconnection", VBool false);
                             ("lastValidated", VDate (revalidated net))]);;
                     result ← call (EvPublish bluesky) (repost net);
                     mret (Return_ (posted result))
                   else mret (Next tt)
               | None => mret (Next tt)
               end)
              (fun refreshError => mret (Next tt))
          else mret (Next tt));
       match retried with
       | Return_ r => mret r
       | Next _ =>
           updateConnection userId bluesky
             (obj [("isValid", VBool false);
                   ("needsReconnection", VBool (Security.isAuthError "bluesky" apiError))]);;
           mret (failed bluesky
                   ("Bluesky API Error: " +:+ strOr (message apiError) "Unknown"))
       end).

Definition sendPost (userId : string) (connection : Obj) (options : PostOptions)
    (net : Net) : M PostResult :=
  if negb (truthy (field connection "handle"))
     || negb (truthy (field connection "did"))
     || negb (truthy (field connection "accessJwt"))
     || negb (truthy (field connection "refreshJwt"))
  then
    mret (failed bluesky
            "Missing required Bluesky credentials (handle, did, accessJwt, refreshJwt).")
  else
    resumed ← resumeSession userId connection net;
    match resumed with
    | Return_ r => mret r
    | Next (bskyConn, sessionRefreshedProactively) =>
        uploaded ← uploadMedia options net;
        match uploaded with
        | Return_ r => mret r
        | Next _ =>
            if negb (sessionAtPost net) then
              mret (failed bluesky "Bluesky agent session lost before posting.")
            else
              settle (detectFacets net);;
              publish userId sessionRefreshedProactively net
        end
    end.

End WithLibs.

End BlueskyHandler.

(** ** dispatcher.ts *)

Module PostDispatcher.

(** Which platforms have an entry in the configuration. *)
Record PlatformConfig : Type := mkPlatformConfig {
  cfg_twitter : option OAuthConfig;
  cfg_linkedin : option OAuthConfig;
  cfg_bluesky : bool;
  cfg_tiktok : option OAuthConfig;
  cfg_threads : option OAuthConfig;
  cfg_devto : bool;
  cfg_discord : bool;
  cfg_github : bool
}.

(** The responses that one [postToPlatform] call may consume, by handler. *)
Record Nets : Type := mkNets {
  net_twitter : TwitterHandler.Net;
  net_linkedin : LinkedInHandler.Net;
  net_bluesky : BlueskyHandler.Net;
  net_tiktok : TikTokHandler.Net;
  net_devto : DevtoHandler.Net;
  net_threads : ThreadsHandler.Net;
  net_discord : DiscordHandler.Net
}.

(** [PlatformHandler.sendPost] *)
Definition PlatformHandler : Type := string -> Obj -> PostOptions -> Nets -> M PostResult.

Definition present (b : bool) (h : PlatformHandler) : option PlatformHandler :=
  if b then Some h else None.

Section WithLibs.
Context `{Libs}.

(** [this.handlers.get(platform)] after [initializeHandlers]. *)
Definition handlers (config : PlatformConfig) (platform : Platform)
    : option PlatformHandler :=
  match platform with
  | twitter =>
      c ← cfg_twitter config;
      Some (fun u conn o n => TwitterHandler.sendPost c u conn o (net_twitter n))
  | linkedin =>
      c ← cfg_linkedin config;
      Some (fun u conn o n => LinkedInHandler.sendPost c u conn o (net_linkedin n))
  | bluesky =>
      present (cfg_bluesky config)
        (fun u conn o n => BlueskyHandler.sendPost u conn o (net_bluesky n))
  | tiktok =>
      c ← cfg_tiktok config;
      Some (fun u conn o n => TikTokHandler.sendPost c u conn o (net_tiktok n))
  | devto =>
      present (cfg_devto config)
        (fun u conn o n => DevtoHandler.sendPost u conn o (net_devto n))
  | threads =>
      match cfg_threads config with
      | Some _ => Some (fun u conn o n => ThreadsHandler.sendPost u conn o (net_threads n))
      | None => None
      end
  | discord =>
      present (cfg_discord config)
        (fun u conn o n => DiscordHandler.sendPost u conn o (net_discord n))
  | github =>
      present (cfg_github config)
        (fun u conn o n => GitHubHandler.sendPost u conn o)
  end.

(** [Array.from(this.handlers.keys())], in insertion order. *)
Definition keys (config : PlatformConfig) : list Platform :=
  filter (fun p => is_Some (handlers config p))
    [twitter; linkedin; bluesky; tiktok; devto; threads; discord; github].

(** [postToPlatform] up to its first suspension: the handler lookup and
    the [getConnection] call run when the method is called; what is left
    runs when the promise is resumed. *)
Definition start (config : PlatformConfig) (platform : Platform) (userId : string)
    (options : PostOptions) (nets : Nets) : M (M PostResult) :=
  match handlers config platform with
  | None =>
      mret (throw (Error ("Unsupported platform: " +:+ platformName platform)))
  | Some handler =>
      connection ← dbRead (MemoryAdapter.getConnection userId platform);
      mret
        match connection with
        | None =>
            throw (Error ("No connection found for platform " +:+ platformName platform
                          +:+ " and user " +:+ userId))
        | Some connection =>
            tryCatch
              (handler userId connection options nets)
              (fun error =>
                 mret (mkPostResult (Some (platformName platform)) false None
                         (Some (strOr (message error) "Unknown error occurred"))))
        end
  end.

Definition postToPlatform (config : PlatformConfig) (platform : Platform)
    (userId : string) (options : PostOptions) (nets : Nets) : M PostResult :=
  rest ← start config platform userId options nets;
  rest.

(** [targetPlatforms.map(platform => this.postToPlatform(...))]: every
    call runs to its first suspension, in request order. *)
Fixpoint startAll (config : PlatformConfig) (userId : string) (options : PostOptions)
    (nets : nat -> Nets) (index : nat) (targetPlatforms : list Platform)
    : M (list (M PostResult)) :=
  match targetPlatforms with
  | [] => mret []
  | platform :: more =>
      job ← start config platform userId options (nets index);
      jobs ← startAll config userId options nets (S index) more;
      mret (job :: jobs)
  end.

End WithLibs.

(** [Promise.allSettled]: the pending calls complete one after another
    in [order] (calls that [order] leaves out complete afterwards, by
    index); each outcome is stored at the index of its call. *)
Definition complete (jobs : list (M PostResult))
    (slots : list (option (Outcome PostResult))) (index : nat)
    : M (list (option (Outcome PostResult))) :=
  match jobs !! index, slots !! index with
  | Some job, Some None =>
      outcome ← attempt job;
      mret (<[index := Some outcome]> slots)
  | _, _ => mret slots
  end.

Fixpoint completeAll (jobs : list (M PostResult))
    (slots : list (option (Outcome PostResult))) (order : list nat)
    : M (list (option (Outcome PostResult))) :=
  match order with
  | [] => mret slots
  | index :: later =>
      slots' ← complete jobs slots index;
      completeAll jobs slots' later
  end.

Definition allSettled (jobs : list (M PostResult)) (order : list nat)
    : M (list (Outcome PostResult)) :=
  slots ← completeAll jobs (replicate (length jobs) None)
            (order ++ seq 0 (length jobs));
  mret (omap id slots).

(** The callback of [results.map] in [postToAll]. *)
Definition settled (targetPlatforms : list Platform) (index : nat)
    (result : Outcome PostResult) : PostResult :=
  match result with
  | Returned value => value
  | Thrown reason =>
      mkPostResult (platformName <$> targetPlatforms !! index) false None
        (Some (strOr (message reason) "Unknown error"))
  end.

Section WithLibs.
Context `{Libs}.

Definition postToAll (config : PlatformConfig) (userId : string)
    (options : PostOptions) (platforms : option (list Platform))
    (nets : nat -> Nets) (order : list nat) : M (list PostResult) :=
  let targetPlatforms := default (keys config) platforms in
  jobs ← startAll config userId options nets 0 targetPlatforms;
  results ← allSettled jobs order;
  mret (imap (settled targetPlatforms) results).

End WithLibs.

End PostDispatcher.

(** ** client.ts *)

Module SocialAuth.

Record CallbackNets : Type := mkCallbackNets {
  cb_twitter : TwitterConnectionProvider.CallbackNet;
  cb_linkedin : LinkedInConnectionProvider.CallbackNet;
  cb_tiktok : TikTokConnectionProvider.CallbackNet;
  cb_threads : ThreadsConnectionProvider.CallbackNet
}.

Definition handleCallback (config : PostDispatcher.PlatformConfig)
    (platform : Platform) (code state redirectUri : string)
    (nets : CallbackNets) : M Obj :=
  match platform with
  | twitter =>
      match PostDispatcher.cfg_twitter config with
      | None => throw (Error "Twitter not configured")
      | Some c =>
          TwitterConnectionProvider.handleCallback c code state redirectUri
            (cb_twitter nets)
      end
  | linkedin =>
      match PostDispatcher.cfg_linkedin config with
      | None => throw (Error "LinkedIn not configured")
      | Some c =>
          LinkedInConnectionProvider.handleCallback c code state redirectUri
            (cb_linkedin nets)
      end
  | tiktok =>
      match PostDispatcher.cfg_tiktok config with
      | None => throw (Error "TikTok not configured")
      | Some c =>
          TikTokConnectionProvider.handleCallback c code state redirectUri
            (cb_tiktok nets)
      end
  | threads =>
      match PostDispatcher.cfg_threads config with
      | None => throw (Error "Threads not configured")
      | Some c =>
          ThreadsConnectionProvider.handleCallback c code state redirectUri
            (cb_threads nets)
      end
  | _ =>
      throw (Error ("Platform " +:+ platformName platform
                    +:+ " does not use OAuth callbacks"))
  end.

(** The client credentials of an OAuth platform, when it has an entry. *)
Definition oauthConfig (config : PostDispatcher.PlatformConfig)
    (platform : Platform) : option OAuthConfig :=
  match platform with
  | twitter => PostDispatcher.cfg_twitter config
  | linkedin => PostDispatcher.cfg_linkedin config
  | tiktok => PostDispatcher.cfg_tiktok config
  | threads => PostDispatcher.cfg_threads config
  | _ => None
  end.

Definition notConfigured (platform : Platform) : string :=
  match platform with
  | twitter => "Twitter not configured"
  | linkedin => "LinkedIn not configured"
  | tiktok => "TikTok not configured"
  | _ => "Threads not configured"
  end.

Definition disconnect (config : PostDispatcher.PlatformConfig)
    (platform : Platform) (userId : string) : M unit :=
  match platform with
  | twitter | linkedin | tiktok | threads =>
      match oauthConfig config platform with
      | None => throw (Error (notConfigured platform))
      | Some _ => BaseConnectionProvider.disconnect platform userId
      end
  | _ => BaseConnectionProvider.disconnect platform userId
  end.

Definition getConnection (userId : string) (platform : Platform) : M (option Obj) :=
  dbRead (MemoryAdapter.getConnection userId platform).

Definition getConnections (userId : string) : M (list Obj) :=
  dbRead (MemoryAdapter.getConnections userId).

(** The [options] of [connect], field by field; an absent field or an
    absent [options] reads [undefined]. *)
Record ConnectOptions : Type := mkConnectOptions {
  co_redirectUri : option string;
  co_handle : option string;
  co_password : option string;
  co_authFactorToken : option string;
  co_apiKey : option string;
  co_webhookUrl : option string;
  co_channelName : option string;
  co_guildName : option string;
  co_token : option string
}.

(** [{ authUrl }] or [{ connection }] *)
Inductive Connected : Type :=
| AuthUrl (authUrl : string)
| Connection (connection : Obj).

Record ConnectNets : Type := mkConnectNets {
  cn_twitter : TwitterConnectionProvider.AuthNet;
  cn_linkedin : LinkedInConnectionProvider.AuthNet;
  cn_tiktok : TikTokConnectionProvider.AuthNet;
  cn_threads : ThreadsConnectionProvider.AuthNet;
  cn_bluesky : BlueskyConnectionProvider.ConnectNet;
  cn_devto : DevtoConnectionProvider.ConnectNet;
  cn_discord : DiscordConnectionProvider.ConnectNet;
  cn_github : GitHubConnectionProvider.ConnectNet
}.

Record RefreshNets : Type := mkRefreshNets {
  rn_twitter : TwitterConnectionProvider.RefreshNet;
  rn_linkedin : LinkedInConnectionProvider.RefreshNet;
  rn_bluesky : BlueskyConnectionProvider.RefreshNet;
  rn_tiktok : TikTokConnectionProvider.RefreshNet
}.

(** [options?.field] when truthy. *)
Definition given (value : option string) : option string :=
  match value with
  | Some s => if nonEmpty s then Some s else None
  | None => None
  end.

Section WithLibs.
Context `{Libs}.

Definition connect (config : PostDispatcher.PlatformConfig) (platform : Platform)
    (userId : string) (options : ConnectOptions) (nets : ConnectNets) : M Connected :=
  let redirectUri := default EmptyString (co_redirectUri options) in
  match platform with
  | twitter =>
      match PostDispatcher.cfg_twitter config with
      | None => throw (Error "Twitter not configured")
      | Some c =>
          twitterAuth ← TwitterConnectionProvider.initiateAuth c userId redirectUri
                          (cn_twitter nets);
          mret (AuthUrl (fst twitterAuth))
      end
  | linkedin =>
      match PostDispatcher.cfg_linkedin config with
      | None => throw (Error "LinkedIn not configured")
      | Some c =>
          linkedinAuth ← LinkedInConnectionProvider.initiateAuth c userId redirectUri
                           (cn_linkedin nets);
          mret (AuthUrl (fst linkedinAuth))
      end
  | bluesky =>
      match given (co_handle options), given (co_password options) with
      | Some handle, Some password =>
          blueskyConn ← BlueskyConnectionProvider.connect userId handle password
                          (co_authFactorToken options) (cn_bluesky nets);
          mret (Connection blueskyConn)
      | _, _ => throw (Error "Bluesky handle and password are required")
      end
  | tiktok =>
      match PostDispatcher.cfg_tiktok config with
      | None => throw (Error "TikTok not configured")
      | Some c =>
          tiktokAuth ← TikTokConnectionProvider.initiateAuth c userId redirectUri
                         (cn_tiktok nets);
          mret (AuthUrl (fst tiktokAuth))
      end
  | threads =>
      match PostDispatcher.cfg_threads config with
      | None => throw (Error "Threads not configured")
      | Some c =>
          threadsAuth ← ThreadsConnectionProvider.initiateAuth c userId redirectUri
                          (cn_threads nets);
          mret (AuthUrl (fst threadsAuth))
      end
  | devto =>
      match given (co_apiKey options) with
      | None => throw (Error "Dev.to API key is required")
      | Some apiKey =>
          devtoConn ← DevtoConnectionProvider.connect userId apiKey (cn_devto nets);
          mret (Connection devtoConn)
      end
  | discord =>
      match given (co_webhookUrl options) with
      | None => throw (Error "Discord webhook URL is required")
      | Some webhookUrl =>
          discordConn ← DiscordConnectionProvider.connect userId webhookUrl
                          (co_channelName options) (co_guildName options)
                          (cn_discord nets);
          mret (Connection discordConn)
      end
  | github =>
      match given (co_token options) with
      | None => throw (Error "GitHub token is required")
      | Some token =>
          githubConn ← GitHubConnectionProvider.connect userId token (cn_github nets);
          mret (Connection githubConn)
      end
  end.

Definition refreshToken (config : PostDispatcher.PlatformConfig) (platform : Platform)
    (userId : string) (nets : RefreshNets) : M unit :=
  connection ← dbRead (MemoryAdapter.getConnection userId platform);
  match connection with
  | None =>
      throw (Error ("No connection found for platform " +:+ platformName platform))
  | Some connection =>
      updated ←
        match platform with
        | twitter =>
            match PostDispatcher.cfg_twitter config with
            | None => throw (Error "Twitter not configured")
            | Some c =>
                TwitterConnectionProvider.refreshToken c connection (rn_twitter nets)
            end
        | linkedin =>
            match PostDispatcher.cfg_linkedin config with
            | None => throw (Error "LinkedIn not configured")
            | Some c =>
                LinkedInConnectionProvider.refreshToken c connection (rn_linkedin nets)
            end
        | bluesky => BlueskyConnectionProvider.refreshToken connection (rn_bluesky nets)
        | tiktok =>
            match PostDispatcher.cfg_tiktok config with
            | None => throw (Error "TikTok not configured")
            | Some c =>
                TikTokConnectionProvider.refreshToken c connection (rn_tiktok nets)
            end
        | _ =>
            throw (Error ("Token refresh not supported for platform: "
                          +:+ platformName platform))
        end;
      updateConnection userId platform updated
  end.

Definition post (config : PostDispatcher.PlatformConfig) (platform : Platform)
    (userId : string) (options : PostOptions) (nets : PostDispatcher.Nets)
    : M PostResult :=
  PostDispatcher.postToPlatform config platform userId options nets.

Definition postToAll (config : PostDispatcher.PlatformConfig) (userId : string)
    (options : PostOptions) (platforms : option (list Platform))
    (nets : nat -> PostDispatcher.Nets) (order : list nat) : M (list PostResult) :=
  PostDispatcher.postToAll config userId options platforms nets order.

End WithLibs.

End SocialAuth.

(** ** A stand-in for the imported libraries

    It fixes the library functions on a few inputs so that the
    definitions above can be evaluated on concrete data. *)

Definition sampleJwtDecode (token : string) : Outcome JwtPayload :=
  if String.eqb token "header.exp1700000000.sig" then
    Returned (mkJwtPayload (VNum 1700000000))
  else if String.eqb token "header.noexp.sig" then
    Returned (mkJwtPayload VUndefined)
  else Thrown (Error "Invalid token specified").

Definition sampleLibs : Libs := {|
  md5hex := fun s => "md5:" +:+ s;
  sha256Base64Url := fun s => "sha256:" +:+ s;
  jwtDecode := sampleJwtDecode;
  encodeURIComponent := fun s => s;
  urlWithParams := fun base params =>
    base +:+ "?" +:+ String.concat "&" (map (fun kv => fst kv +:+ "=" +:+ snd kv) params);
  jsonErrorField := fun _ => None;
  numberOfString := fun _ => None
|}.

(** ** Sample data

    One user with a Discord, a Dev.to, a Threads and a LinkedIn
    connection; the Dev.to connection lacks its API key and the Threads
    token expired long ago. *)

Definition sampleConfig : PostDispatcher.PlatformConfig :=
  PostDispatcher.mkPlatformConfig None (Some (mkOAuthConfig "client" "secret")) false None
    (Some (mkOAuthConfig "client" "secret")) true true false.

Definition sampleOptions : PostOptions :=
  mkPostOptions "Hello" None None None None.

Definition discordConnection : Obj :=
  obj [("uid", VStr "u1"); ("platform", VStr "discord");
       ("webhookUrl", VStr "https://discord.com/api/webhooks/1/token");
       ("isValid", VBool true); ("needsReconnection", VBool false)].

Definition devtoConnection : Obj :=
  obj [("uid", VStr "u1"); ("platform", VStr "devto");
       ("isValid", VBool true); ("needsReconnection", VBool false)].

Definition threadsConnection : Obj :=
  obj [("uid", VStr "u1"); ("platform", VStr "threads");
       ("threadsUserId", VStr "t-1"); ("accessToken", VStr "THQ-token");
       ("expiresAt", VDate 1000);
       ("isValid", VBool true); ("needsReconnection", VBool false)].

Definition linkedinConnection : Obj :=
  obj [("uid", VStr "u1"); ("platform", VStr "linkedin");
       ("linkedInUserId", VStr "member-1");
       ("accessToken", VStr "AQV-opaque-token");
       ("refreshToken", VStr "AQR-refresh-token");
       ("expiresAt", VDate 1700003600000);
       ("isValid", VBool true); ("needsReconnection", VBool false)].

Definition sampleStore : MemoryAdapter.t :=
  MemoryAdapter.saveConnection "u1" linkedin linkedinConnection
    (MemoryAdapter.saveConnection "u1" threads threadsConnection
       (MemoryAdapter.saveConnection "u1" devto devtoConnection
          (MemoryAdapter.saveConnection "u1" discord discordConnection
             MemoryAdapter.empty))).

Definition sampleWorld : World := mkWorld sampleStore [].

(** Responses of a network that is down. *)
Definition offline {A} : Outcome A := Thrown (Error "fetch failed").

Definition twitterOffline : TwitterHandler.Net :=
  TwitterHandler.mkNet 0 (TwitterConnectionProvider.mkRefreshNet offline 0 0)
    offline offline offline 0 (TwitterConnectionProvider.mkRefreshNet offline 0 0)
    offline 0.

Definition linkedinOffline : LinkedInHandler.Net :=
  LinkedInHandler.mkNet 0 (LinkedInConnectionProvider.mkRefreshNet offline 0 0)
    offline offline offline offline None 0.

Definition blueskyOffline : BlueskyHandler.Net :=
  BlueskyHandler.mkNet 0 offline (BlueskyConnectionProvider.mkRefreshNet offline 0)
    offline false
    (BlueskyHandler.mkVideoNet offline offline offline 0 offline offline)
    offline offline false offline offline 0 offline None 0 offline.

Definition tiktokOffline : TikTokHandler.Net :=
  TikTokHandler.mkNet 0 (TikTokConnectionProvider.mkRefreshNet offline 0 0)
    offline offline offline (fun _ => offline) offline offline offline 0.

(** Responses of the platforms in the sample runs. *)
Definition discordDelivered : DiscordHandler.Net :=
  DiscordHandler.mkNet
    (Returned (mkResponse 204 "No Content" (Returned "") offline)) 1700000000000.

Definition discordServerError : DiscordHandler.Net :=
  DiscordHandler.mkNet
    (Returned (mkResponse 500 "Internal Server Error" (Returned "") offline))
    1700000000000.

Definition threadsPublished : ThreadsHandler.Net :=
  ThreadsHandler.mkNet
    (Returned (mkResponse 200 "OK" (Returned "") (Returned "container-1")))
    (Returned (mkResponse 200 "OK" (Returned "") (Returned "thread-1")))
    1700000030000.

Definition linkedinCreatedWithoutId : LinkedInHandler.Net :=
  LinkedInHandler.mkNet 1700000000000
    (LinkedInConnectionProvider.mkRefreshNet
       (Returned (LinkedInConnectionProvider.mkTokenData "AQV-new-token" 3600 None None))
       1700000000000 1700000000000)
    offline offline offline
    (Returned (mkResponse 201 "Created" (Returned "") (Returned tt)))
    None 1700000001000.

Definition sampleNets : PostDispatcher.Nets :=
  PostDispatcher.mkNets twitterOffline linkedinCreatedWithoutId blueskyOffline
    tiktokOffline (DevtoHandler.mkNet offline 0) threadsPublished discordDelivered.

(** ** Further sample data *)

(** A document with a date at the top and dates inside an array. *)
Definition sampleDocument : FirestoreAdapter.Data :=
  FirestoreAdapter.DObject
    [("uid", FirestoreAdapter.DStr "u1");
     ("expiresAt", FirestoreAdapter.DDate 1700003600000);
     ("scopes", FirestoreAdapter.DArray
                  [FirestoreAdapter.DStr "tweet.read"; FirestoreAdapter.DStr "tweet.write"]);
     ("history", FirestoreAdapter.DArray
                   [FirestoreAdapter.DDate 1700000000000; FirestoreAdapter.DNull])].

(** A Bluesky connection and a refresh that the service rejects. *)
Definition blueskyConnection : Obj :=
  obj [("uid", VStr "u1"); ("platform", VStr "bluesky");
       ("handle", VStr "alice.bsky.social"); ("did", VStr "did:plc:alice");
       ("accessJwt", VStr "access"); ("refreshJwt", VStr "refresh");
       ("isValid", VBool true); ("needsReconnection", VBool false)].

Definition blueskyRefreshRejected : BlueskyConnectionProvider.RefreshNet :=
  BlueskyConnectionProvider.mkRefreshNet
    (Returned (mkResponse 400 "Bad Request" (Returned "Bad Request") offline)) 0.

(** A LinkedIn callback whose state is stored and whose token request
    fails. *)
Definition linkedinCallbackOffline : SocialAuth.CallbackNets :=
  SocialAuth.mkCallbackNets
    (TwitterConnectionProvider.mkCallbackNet offline offline 0 0)
    (LinkedInConnectionProvider.mkCallbackNet offline offline 0 0)
    (TikTokConnectionProvider.mkCallbackNet offline offline 0 0)
    (ThreadsConnectionProvider.mkCallbackNet offline offline 0 0).

Definition pendingWorld : World :=
  mkWorld (MemoryAdapter.saveOAuthState "s1" (mkOAuthState "u1" "" "s1" 1699999999000)
             sampleStore) [].


(** * Predicates of the specification *)

(** A colon occurs in the string. *)
Fixpoint hasColon (s : string) : bool :=
  match s with
  | EmptyString => false
  | String c r => Ascii.eqb c ":" || hasColon r
  end.

(** The error of a callback whose state is unknown. *)
Definition stateError : JsError := Error "Invalid or expired state parameter".

(** What the four OAuth providers' [handleCallback] have in common: with
    credentials configured, a call leaves no record under [state]; and a
    call that finds no record throws before any request and any write. *)
Definition SingleUse (handleCallback : string -> M Obj) : Prop :=
  forall state w,
    (forall r w', handleCallback state w = (r, w') ->
                  MemoryAdapter.getOAuthState state (db w') = None) /\
    (MemoryAdapter.getOAuthState state (db w) = None ->
     handleCallback state w = (Thrown stateError, w)).

(** The result of a computation does not depend on the store or the log
    it starts from. *)
Definition oblivious {A} (m : M A) : Prop :=
  forall w w', fst (m w) = fst (m w').

(** Every value the computation returns satisfies [Q]. *)
Definition returns {A} (m : M A) (Q : A -> Prop) : Prop :=
  forall w a w', m w = (Returned a, w') -> Q a.

(** The platform's post identifier in a result object. *)
Definition identified (p : Platform) (o : Obj) : Prop :=
  match p with
  | twitter => exists i, o !! "id" = Some (VStr i) /\ o !! "tweetId" = Some (VStr i)
  | linkedin =>
      (exists i, i <> "" /\ o !! "id" = Some (VStr i)) \/ o !! "id" = Some VUndefined
  | bluesky => exists u c, o !! "uri" = Some (VStr u) /\ o !! "cid" = Some (VStr c)
  | tiktok => exists i, i <> "" /\ o !! "publish_id" = Some (VStr i)
  | devto => exists i, o !! "id" = Some (VStr i)
  | threads => exists i, o !! "id" = Some (VStr i)
  | discord => o = ∅
  | github => False
  end.

(** The contract of a [PostResult] for platform [p]. *)
Definition Shape (p : Platform) (r : PostResult) : Prop :=
  platform r = Some (platformName p) /\
  (success r = true ->
     error r = None /\ exists o, result r = Some o /\ identified p o) /\
  (success r = false ->
     result r = None /\ exists msg, error r = Some msg /\ msg <> "").

(** [Shape] for a block that may leave [sendPost] early. *)
Definition flowShape {A} (f : Flow PostResult A) : Prop :=
  match f with Return_ r => Shape bluesky r | Next _ => True end.

(** The outcome of a computation started on an empty store. *)
Definition outcomeOf {A} (m : M A) : Outcome A :=
  fst (m (mkWorld MemoryAdapter.empty [])).

(** Slot [i] of [Promise.allSettled] holds an outcome. *)
Definition filled (slots : list (option (Outcome PostResult))) (i : nat) : Prop :=
  exists o, slots !! i = Some (Some o).

(** Every outcome stored so far is the outcome of the call at its index. *)
Definition agrees (jobs : list (M PostResult))
    (slots : list (option (Outcome PostResult))) : Prop :=
  length slots = length jobs /\
  forall i o, slots !! i = Some (Some o) ->
              exists job, jobs !! i = Some job /\ o = outcomeOf job.

(** The store effects of a handler run from [w] to [w']. *)
Definition WroteValid (u : string) (p : Platform) (now : Z) (w w' : World) : Prop :=
  db w' = MemoryAdapter.updateConnection u p (markValid now) (db w).

Definition WroteInvalid (u : string) (p : Platform) (w w' : World) : Prop :=
  db w' = MemoryAdapter.updateConnection u p markInvalid (db w).

Definition Untouched (w w' : World) : Prop := db w' = db w.

(** The run returns a result; success marked the connection valid, and
    every failure marked it invalid and in need of reconnection. *)
Definition WritesBack (u : string) (p : Platform) (now : Z) (w : World)
    (run : Outcome PostResult * World) : Prop :=
  exists res, fst run = Returned res /\
    ((success res = true /\ WroteValid u p now w (snd run)) \/
     (success res = false /\ WroteInvalid u p w (snd run))).

(** Every event the computation logs satisfies [P]; the log only grows. *)
Definition emits {A} (P : Event -> Prop) (m : M A) : Prop :=
  forall w, exists rest : list Event,
    log (snd (m w)) = (log w ++ rest)%list /\ Forall P rest.

(** The first event the computation logs is [ev]. *)
Definition beginsWith {A} (ev : Event) (m : M A) : Prop :=
  forall w, exists rest : list Event,
    log (snd (m w)) = (log w ++ ev :: rest)%list.

(** ** Predicates on stores, event logs and strings *)

Local Open Scope list_scope.

(** Keys written by the adapter's methods. *)
Definition keyed (s : MemoryAdapter.t) : Prop :=
  forall key, is_Some (MemoryAdapter.connections s !! key) ->
    exists u p, key = MemoryAdapter.getKey u p.

(** No Firestore [Timestamp] occurs in the data. *)
Fixpoint noTimestamp (d : FirestoreAdapter.Data) : bool :=
  match d with
  | FirestoreAdapter.DTimestamp _ => false
  | FirestoreAdapter.DArray items => forallb noTimestamp items
  | FirestoreAdapter.DObject fields =>
      forallb (fun kv => let '(_, value) := kv in noTimestamp value) fields
  | _ => true
  end.

(** No [Date] occurs in the data. *)
Fixpoint noDate (d : FirestoreAdapter.Data) : bool :=
  match d with
  | FirestoreAdapter.DDate _ => false
  | FirestoreAdapter.DArray items => forallb noDate items
  | FirestoreAdapter.DObject fields =>
      forallb (fun kv => let '(_, value) := kv in noDate value) fields
  | _ => true
  end.

(** The characters of a PKCE code verifier that base64url produces:
    letters, digits, [-] and [_] (all unreserved, RFC 3986 §2.3). *)
Definition urlSafe (c : ascii) : bool :=
  let n := nat_of_ascii c in
  ((65 <=? n) && (n <=? 90) || (97 <=? n) && (n <=? 122) || (48 <=? n) && (n <=? 57)
   || (n =? 45) || (n =? 95))%nat.

(** The [n]-th digit of base64url: the base64 digit with [+] and [/]
    replaced as [base64UrlEncode] does. *)
Definition urlDigit (n : N) : ascii :=
  let c := Security.base64Digit n in
  let c := if Ascii.eqb c "+" then "-"%char else c in
  if Ascii.eqb c "/" then "_"%char else c.

(** The requests and waits of [fetchWithRetry] when the first [k] calls,
    numbered from [i], fail and are retried. *)
Fixpoint schedule (request : Event) (backoffMs : Z) (k : nat) (i : Z) : list Event :=
  match k with
  | O => [request]
  | S k' => request :: EvSleep (backoffMs * (i + 1)) :: schedule request backoffMs k' (i + 1)
  end.

(** The call rejects with a transient error. *)
Definition transientFailure (a : Media.Attempt) : Prop :=
  (exists err, Media.a_outcome a = Thrown err) /\
  Media.a_socketError a || Media.a_typeError a = true.

(** Every run of the computation relates the store it starts from to the
    store it ends in by [R]. *)
Definition keeps {A} (R : MemoryAdapter.t -> MemoryAdapter.t -> Prop) (m : M A) : Prop :=
  forall w, R (db w) (db (snd (m w))).

(** From [s] to [s'] no connection was created or deleted, no OAuth
    state was touched, and only records of platform [p] may differ. *)
Definition ownRecords (p : Platform) (s s' : MemoryAdapter.t) : Prop :=
  MemoryAdapter.oauthStates s' = MemoryAdapter.oauthStates s /\
  (forall key, is_Some (MemoryAdapter.connections s' !! key)
               <-> is_Some (MemoryAdapter.connections s !! key)) /\
  (forall u' p', p' <> p ->
     MemoryAdapter.getConnection u' p' s' = MemoryAdapter.getConnection u' p' s).

(** From [s] to [s'] no connection was created or deleted, no OAuth
    state was touched, and only records of the platforms in [targets]
    may differ. *)
Definition onlyPlatforms (targets : list Platform) (s s' : MemoryAdapter.t) : Prop :=
  MemoryAdapter.oauthStates s' = MemoryAdapter.oauthStates s /\
  (forall key, is_Some (MemoryAdapter.connections s' !! key)
               <-> is_Some (MemoryAdapter.connections s !! key)) /\
  (forall u' p', p' ∉ targets ->
     MemoryAdapter.getConnection u' p' s' = MemoryAdapter.getConnection u' p' s).

(** Every run of the computation logs at most [n] events that satisfy
    [P]. *)
Definition atMost {A} (P : Event -> bool) (n : nat) (m : M A) : Prop :=
  forall w, exists rest : list Event,
    log (snd (m w)) = log w ++ rest /\ (length (List.filter P rest) <= n)%nat.

(** The event is a publish request of platform [p]; the event is an
    entry into [refreshToken] of platform [p]. *)
Definition isPublish (p : Platform) (ev : Event) : bool := bool_decide (ev = EvPublish p).

Definition isRefresh (p : Platform) (ev : Event) : bool := bool_decide (ev = EvRefreshToken p).

(** The event is no removal of a temp file. *)
Definition notCleanup (ev : Event) : Prop := forall path, ev <> EvCleanup path.

(** What a successful token refresh returns for [connection]: the new
    access token, the new refresh token or else the old one, the
    validity flags set, and the identity of the connection kept. *)
Definition refreshedFrom (connection updated : Obj) (accessToken : string)
    (refreshToken : option string) : Prop :=
  updated !! "accessToken" = Some (VStr accessToken) /\
  updated !! "refreshToken" = Some (coalesce refreshToken (field connection "refreshToken")) /\
  updated !! "isValid" = Some (VBool true) /\
  updated !! "needsReconnection" = Some (VBool false) /\
  updated !! "uid" = connection !! "uid" /\
  updated !! "platform" = connection !! "platform".

(** The status that [isAuthError] reads: [err.status ||
    err.response.status || err.code]. *)
Definition statusOf (err : JsError) : option Z :=
  Security.numOr (Security.numOr (err_status err) (err_responseStatus err)) (err_code err).

(** The error with its message in lower case. *)
Definition lowerMessage (err : JsError) : JsError :=
  mkJsError (toLowerCase (message err)) (err_status err) (err_responseStatus err)
    (err_code err) (isApiResponseError err) (err_data err) (err_responseMessage err).

(** The computation always returns, leaves the store as it is and logs
    only events that satisfy [P]. *)
Definition harmless {A} (P : Event -> Prop) (m : M A) : Prop :=
  forall w, exists (a : A) (events : list Event),
    m w = (Returned a, mkWorld (db w) (log w ++ events)) /\ Forall P events.

(** Every character of the string satisfies [f]. *)
Fixpoint allChars (f : ascii -> bool) (s : string) : bool :=
  match s with
  | EmptyString => true
  | String c r => f c && allChars f r
  end.

(** A lower-case letter, a digit or [_]. *)
Definition isTagChar (c : ascii) : bool :=
  isWordChar c && Ascii.eqb (lowerChar c) c.

(** A tag as Dev.to takes it from [extractTags]. *)
Definition wellFormedTag (tag : string) : Prop :=
  (1 <= String.length tag <= 20)%nat /\ allChars isTagChar tag = true.

(** The string has a first character, and it satisfies [f]. *)
Definition headSatisfies (f : ascii -> bool) (s : string) : bool :=
  match s with
  | EmptyString => false
  | String c _ => f c
  end.

(** [[\w-]] of the webhook pattern. *)
Definition isTokenChar (c : ascii) : bool := isWordChar c || Ascii.eqb c "-".

(** What the webhook pattern accepts in front of the id, in lower
    case. *)
Definition webhookPrefixes : list string :=
  [ "https://discord.com/api/webhooks/";
    "https://discordapp.com/api/webhooks/";
    "https://ptb.discord.com/api/webhooks/";
    "https://ptb.discordapp.com/api/webhooks/";
    "https://canary.discord.com/api/webhooks/";
    "https://canary.discordapp.com/api/webhooks/" ].

(** The platforms that [connect] connects at once, from a credential
    the caller passes. *)
Definition tokenPlatform (p : Platform) : bool :=
  match p with
  | bluesky | devto | discord | github => true
  | _ => false
  end.

(** The platforms of the [switch] in [SocialAuth.refreshToken]. *)
Definition refreshable (p : Platform) : bool :=
  match p with
  | twitter | linkedin | bluesky | tiktok => true
  | _ => false
  end.

(** * Properties *)

Local Open Scope list_scope.

#[local] Arguments String.append !s1 s2 / : simpl nomatch.

(** ** The in-memory store *)

Lemma platformName_no_colon (p : Platform) : hasColon (platformName p) = false.
Proof. destruct p; reflexivity. Qed.

Lemma platformName_inj (p q : Platform) : platformName p = platformName q -> p = q.
Proof. destruct p, q; simpl; intros E; try reflexivity; discriminate E. Qed.

Lemma hasColon_key (u n : string) : hasColon (u +:+ String ":" n) = true.
Proof. induction u as [|c u IH]; simpl; [reflexivity|]. rewrite IH. apply orb_true_r. Qed.

(** Keys of the connection map identify the user and the platform. *)
Lemma getKey_inj (u u' : string) (p p' : Platform) :
  MemoryAdapter.getKey u p = MemoryAdapter.getKey u' p' -> u = u' /\ p = p'.
Proof.
  unfold MemoryAdapter.getKey. revert u'.
  induction u as [|c u IH]; intros [|c' u'] E; simpl in E.
  - injection E as E. split; [reflexivity|]. by apply platformName_inj.
  - injection E as _ E. pose proof (platformName_no_colon p) as N.
    rewrite E, hasColon_key in N. discriminate N.
  - injection E as _ E. pose proof (platformName_no_colon p') as N.
    rewrite <- E, hasColon_key in N. discriminate N.
  - injection E as -> E. destruct (IH _ E) as [-> ->]. by split.
Qed.

Lemma spread_lookup_update (existing updates : Obj) (f : string) (v : JsVal) :
  updates !! f = Some v -> spread existing updates !! f = Some v.
Proof. intros E. unfold spread. by apply lookup_union_Some_l. Qed.

Lemma spread_lookup_frame (existing updates : Obj) (f : string) :
  updates !! f = None -> spread existing updates !! f = existing !! f.
Proof. intros E. unfold spread. by apply lookup_union_r. Qed.

(** C10. [MemoryAdapter.updateConnection] on a (user, platform) key with
    no stored connection returns normally and leaves the whole store as
    it was; on a stored connection it rewrites exactly the fields that
    the partial update names, keeps every other field of that record,
    every record of another (user, platform) pair and the OAuth
    states. *)
Theorem updateConnection_frame (u : string) (p : Platform) (updates : Obj) (w : World) :
  exists w',
    updateConnection u p updates w = (Returned tt, w') /\
    log w' = log w /\
    MemoryAdapter.oauthStates (db w') = MemoryAdapter.oauthStates (db w) /\
    (MemoryAdapter.getConnection u p (db w) = None -> w' = w) /\
    (forall existing,
        MemoryAdapter.getConnection u p (db w) = Some existing ->
        exists updated,
          MemoryAdapter.getConnection u p (db w') = Some updated /\
          (forall f v, updates !! f = Some v -> updated !! f = Some v) /\
          (forall f, updates !! f = None -> updated !! f = existing !! f)) /\
    (forall u' p',
        (u', p') <> (u, p) ->
        MemoryAdapter.getConnection u' p' (db w') = MemoryAdapter.getConnection u' p' (db w)).
Proof.
  destruct w as [s l].
  unfold updateConnection, dbWrite, MemoryAdapter.updateConnection,
    MemoryAdapter.getConnection; simpl.
  destruct (MemoryAdapter.connections s !! MemoryAdapter.getKey u p) as [existing|] eqn:E.
  - eexists; split; [reflexivity|]; simpl.
    repeat split; try done.
    + intros ex [= <-]. exists (spread existing updates).
      rewrite lookup_insert_eq. split; [reflexivity|]. split.
      * intros f v. apply spread_lookup_update.
      * intros f. apply spread_lookup_frame.
    + intros u' p' Hne. apply lookup_insert_ne.
      intros K. apply getKey_inj in K as [-> ->]. by apply Hne.
  - eexists; split; [reflexivity|]; simpl.
    repeat split; try done.
Qed.

Lemma updateConnection_frame_witness :
  exists updated,
    MemoryAdapter.getConnection "u1" twitter
      (MemoryAdapter.updateConnection "u1" twitter markInvalid
         (MemoryAdapter.saveConnection "u1" twitter
            (obj [("uid", VStr "u1"); ("isValid", VBool true)]) MemoryAdapter.empty))
    = Some updated /\
    updated !! "isValid" = Some (VBool false) /\
    updated !! "uid" = Some (VStr "u1").
Proof.
  pose (w := mkWorld (MemoryAdapter.saveConnection "u1" twitter
            (obj [("uid", VStr "u1"); ("isValid", VBool true)]) MemoryAdapter.empty) []).
  destruct (updateConnection_frame "u1" twitter markInvalid w)
    as (w' & Hrun & _ & _ & _ & Hsome & _).
  injection Hrun as <-.
  destruct (Hsome (obj [("uid", VStr "u1"); ("isValid", VBool true)]))
    as (updated & Hget & Hupd & Hkeep); [reflexivity|].
  exists updated. split; [exact Hget|]. split.
  - apply Hupd. reflexivity.
  - rewrite Hkeep; reflexivity.
Defined.

(** C7. [disconnect] returns normally, after it [getConnection] finds
    nothing for that user and platform, and on a store without that
    connection (in particular when called a second time) it changes
    nothing. *)
Theorem disconnect_idempotent (p : Platform) (u : string) (w : World) :
  exists w',
    BaseConnectionProvider.disconnect p u w = (Returned tt, w') /\
    SocialAuth.getConnection u p w' = (Returned None, w') /\
    (MemoryAdapter.getConnection u p (db w) = None -> w' = w) /\
    BaseConnectionProvider.disconnect p u w' = (Returned tt, w').
Proof.
  destruct w as [[conns states] l].
  unfold BaseConnectionProvider.disconnect, SocialAuth.getConnection, dbWrite, dbRead,
    MemoryAdapter.deleteConnection, MemoryAdapter.getConnection; simpl.
  eexists; split; [reflexivity|]; simpl.
  split; [by rewrite lookup_delete_eq|].
  split.
  - intros E. by rewrite delete_id.
  - by rewrite delete_delete_eq.
Qed.

(** Through the client, [disconnect] is the provider's method for every
    platform that needs no client credentials or has them configured. *)
Lemma socialAuth_disconnect config p u :
  (SocialAuth.oauthConfig config p = None ->
   p = bluesky \/ p = devto \/ p = discord \/ p = github) ->
  SocialAuth.disconnect config p u = BaseConnectionProvider.disconnect p u.
Proof.
  intros Hcfg. unfold SocialAuth.disconnect.
  destruct p; try reflexivity;
    (destruct (SocialAuth.oauthConfig config _) eqn:E; [reflexivity|]);
    destruct (Hcfg eq_refl) as [|[|[|]]]; discriminate.
Qed.

Lemma disconnect_idempotent_witness :
  BaseConnectionProvider.disconnect discord "u1" (mkWorld MemoryAdapter.empty [])
  = (Returned tt, mkWorld MemoryAdapter.empty []).
Proof.
  destruct (disconnect_idempotent discord "u1" (mkWorld MemoryAdapter.empty []))
    as (w' & Hrun & _ & Hsame & _).
  rewrite Hrun. f_equal. apply Hsame. reflexivity.
Defined.

(** ** The TikTok chunk-sizing policy *)

Lemma ceilDiv_spec (a b : Z) :
  0 < b ->
  (TikTokHandler.ceilDiv a b - 1) * b < a <= TikTokHandler.ceilDiv a b * b.
Proof.
  intros Hb. unfold TikTokHandler.ceilDiv.
  pose proof (Z.div_mod (- a) b ltac:(lia)) as Hdm.
  pose proof (Z.mod_pos_bound (- a) b Hb) as Hr.
  nia.
Qed.

Lemma ceilDiv_le (a b k : Z) :
  0 < b -> a <= k * b -> TikTokHandler.ceilDiv a b <= k.
Proof. intros Hb Hk. pose proof (ceilDiv_spec a b Hb). nia. Qed.

Lemma ceilDiv_pos (a b : Z) : 0 < b -> 0 < a -> 1 <= TikTokHandler.ceilDiv a b.
Proof. intros Hb Ha. pose proof (ceilDiv_spec a b Hb). nia. Qed.

(** A one-byte file is uploaded as one chunk of one byte, below the
    5 MiB minimum: the chunk size is not always within the bounds. *)
Lemma chunkSizing_below_minimum :
  0 < 1 /\
  ~ (TikTokHandler.MIN_CHUNK_SIZE_BYTES <= TikTokHandler.effectiveChunkSize 1
     <= TikTokHandler.MAX_CHUNK_SIZE_BYTES).
Proof. split; [lia|]. vm_compute. intros [Hlo _]. apply Hlo. reflexivity. Qed.

(** A file one byte above 1000 maximal chunks needs 1001 chunks. *)
Lemma chunkSizing_above_capacity :
  TikTokHandler.chunkSizing (1000 * TikTokHandler.MAX_CHUNK_SIZE_BYTES + 1)
  = (TikTokHandler.MAX_CHUNK_SIZE_BYTES, 1001).
Proof. vm_compute. reflexivity. Qed.

(** C2, as the code has it.  For every file size [S > 0]: the chunks
    cover the file exactly ([n * c >= S > (n - 1) * c]); a file of at
    most 64 MiB is one chunk, of the file's own size; a file of at least
    5 MiB has a chunk size within [5 MiB, 64 MiB]; and a file of at most
    1000 chunks of 64 MiB is split into at most 1000 chunks. *)
Theorem chunkSizing_policy (S : Z) :
  0 < S ->
  let c := TikTokHandler.effectiveChunkSize S in
  let n := TikTokHandler.totalChunks S in
  (n - 1) * c < S <= n * c /\
  1 <= n /\
  (S <= TikTokHandler.MAX_CHUNK_SIZE_BYTES -> n = 1 /\ c = S) /\
  (TikTokHandler.MIN_CHUNK_SIZE_BYTES <= S ->
     TikTokHandler.MIN_CHUNK_SIZE_BYTES <= c <= TikTokHandler.MAX_CHUNK_SIZE_BYTES) /\
  (S <= 1000 * TikTokHandler.MAX_CHUNK_SIZE_BYTES -> n <= 1000).
Proof.
  intros HS.
  unfold TikTokHandler.effectiveChunkSize, TikTokHandler.totalChunks,
    TikTokHandler.chunkSizing.
  assert (Hmin : TikTokHandler.MIN_CHUNK_SIZE_BYTES = 5242880) by reflexivity.
  assert (Hmax : TikTokHandler.MAX_CHUNK_SIZE_BYTES = 67108864) by reflexivity.
  assert (Hdef : TikTokHandler.DEFAULT_CHUNK_SIZE_BYTES = 20971520) by reflexivity.
  rewrite Hmin, Hmax, Hdef.
  destruct (Z.ltb_spec S 5242880); simpl; [lia|].
  destruct (Z.leb_spec S 67108864); simpl; [lia|].
  destruct (Z.ltb_spec 1000 (TikTokHandler.ceilDiv S 20971520)) as [Hmany|Hfew]; simpl.
  - set (c := Z.min (Z.max (TikTokHandler.ceilDiv S 1000) 5242880) 67108864).
    assert (Hc : 5242880 <= c <= 67108864) by (unfold c; lia).
    pose proof (ceilDiv_spec S c ltac:(lia)) as Hcover.
    pose proof (ceilDiv_pos S c ltac:(lia) HS) as Hone.
    repeat split; try lia.
    intros Hcap. apply ceilDiv_le; [lia|].
    pose proof (ceilDiv_spec S 1000 ltac:(lia)) as Hk.
    assert (TikTokHandler.ceilDiv S 1000 <= 67108864)
      by (apply ceilDiv_le; lia).
    unfold c. lia.
  - pose proof (ceilDiv_spec S 20971520 ltac:(lia)) as Hcover.
    pose proof (ceilDiv_pos S 20971520 ltac:(lia) HS) as Hone.
    repeat split; lia.
Qed.

Lemma chunkSizing_policy_witness :
  (TikTokHandler.totalChunks 100000000 - 1) * TikTokHandler.effectiveChunkSize 100000000
    < 100000000
    <= TikTokHandler.totalChunks 100000000 * TikTokHandler.effectiveChunkSize 100000000.
Proof. apply (chunkSizing_policy 100000000). lia. Defined.

(** ** Token expiry and state generation (utils/security.ts) *)

(** C9. [isTokenExpired] answers [true] for a null, undefined or empty
    token, for a string that [jwtDecode] rejects, and for a decoded
    token whose [exp] is not a number; for a numeric [exp] it answers
    [true] exactly when the clock, in seconds, has reached [exp]. *)
Theorem isTokenExpired_fails_closed `{Libs} (now : Z) :
  Security.isTokenExpired VNull now = true /\
  Security.isTokenExpired VUndefined now = true /\
  Security.isTokenExpired (VStr "") now = true /\
  (forall s e, jwtDecode s = Thrown e -> Security.isTokenExpired (VStr s) now = true) /\
  (forall s d,
      jwtDecode s = Returned d -> (forall n, exp d <> VNum n) ->
      Security.isTokenExpired (VStr s) now = true) /\
  (forall s d n,
      s <> "" -> jwtDecode s = Returned d -> exp d = VNum n ->
      (Security.isTokenExpired (VStr s) now = true <-> n * 1000 <= now)).
Proof.
  unfold Security.isTokenExpired.
  split; [reflexivity|]. split; [reflexivity|]. split; [reflexivity|].
  split; [|split].
  - intros s e E. destruct s; simpl; [reflexivity|]. by rewrite E.
  - intros s d E Hn. destruct s; simpl; [reflexivity|]. rewrite E.
    destruct (exp d); try reflexivity. by destruct (Hn n).
  - intros s d n Hs E En. destruct s; [done|]. simpl. rewrite E, En.
    apply Z.leb_le.
Qed.

Lemma isTokenExpired_fails_closed_witness :
  @Security.isTokenExpired sampleLibs (VStr "header.exp1700000000.sig") 1700000000000 = true
  /\ @Security.isTokenExpired sampleLibs (VStr "opaque-access-token") 0 = true.
Proof.
  split.
  - destruct (@isTokenExpired_fails_closed sampleLibs 1700000000000)
      as (_ & _ & _ & _ & _ & Hnum).
    apply (Hnum "header.exp1700000000.sig" (mkJwtPayload (VNum 1700000000)) 1700000000);
      [discriminate|reflexivity|reflexivity|lia].
  - destruct (@isTokenExpired_fails_closed sampleLibs 0) as (_ & _ & _ & Hbad & _).
    apply (Hbad "opaque-access-token" (Error "Invalid token specified")). reflexivity.
Defined.

(** C6, on the code: two [initiateAuth] calls that read the same clock
    value get the same state token, and the second handshake's record
    replaces the first one's. *)
Theorem initiateAuth_reuses_state `{Libs} (w : World) :
  let config := mkOAuthConfig "client" "secret" in
  let net := LinkedInConnectionProvider.mkAuthNet 1700000000000 1700000000000 in
  exists url1 url2 state w1 w2,
    LinkedInConnectionProvider.initiateAuth config "alice" "https://app/cb" net w
      = (Returned (url1, state), w1) /\
    LinkedInConnectionProvider.initiateAuth config "bob" "https://app/cb" net w1
      = (Returned (url2, state), w2) /\
    state = md5hex "1700000000000" /\
    os_uid <$> MemoryAdapter.getOAuthState state (db w1) = Some "alice" /\
    os_uid <$> MemoryAdapter.getOAuthState state (db w2) = Some "bob".
Proof.
  simpl. unfold LinkedInConnectionProvider.initiateAuth. simpl.
  do 5 eexists. split; [reflexivity|]. split; [reflexivity|].
  split; [reflexivity|].
  unfold MemoryAdapter.getOAuthState; simpl.
  by rewrite !lookup_insert_eq.
Qed.

(** ** Single use of the OAuth state (connections/*.ts, client.ts) *)

(** Unfolds the monad so that a run can be followed call by call. *)
Ltac unfold_monad :=
  unfold mbind, M_bind, mret, M_ret, bind, ret, throw, tryCatch, tryFinally,
    call, emit, settle, attempt, dbRead, dbWrite in *.

Ltac single_use :=
  intros Hc state [s l]; split;
  [ intros r w'; unfold_monad; simpl; rewrite Hc; simpl;
    unfold BaseConnectionProvider.getOAuthState, BaseConnectionProvider.deleteOAuthState,
      BaseConnectionProvider.saveConnection; unfold_monad; simpl;
    destruct (MemoryAdapter.getOAuthState state s) eqn:E; simpl;
    [ repeat case_match; intros; simplify_eq/=;
      unfold MemoryAdapter.getOAuthState; simpl; apply lookup_delete_eq
    | intros; by simplify_eq/= ]
  | simpl; intros E; unfold_monad; simpl; rewrite Hc; simpl;
    unfold BaseConnectionProvider.getOAuthState; unfold_monad; simpl;
    by rewrite E ].

Lemma twitter_single_use config code redirectUri net :
  configured config = true ->
  SingleUse (fun state =>
    TwitterConnectionProvider.handleCallback config code state redirectUri net).
Proof. unfold TwitterConnectionProvider.handleCallback. single_use. Qed.

Lemma linkedin_single_use config code redirectUri net :
  configured config = true ->
  SingleUse (fun state =>
    LinkedInConnectionProvider.handleCallback config code state redirectUri net).
Proof. unfold LinkedInConnectionProvider.handleCallback. single_use. Qed.

Lemma tiktok_single_use config code redirectUri net :
  configured config = true ->
  SingleUse (fun state =>
    TikTokConnectionProvider.handleCallback config code state redirectUri net).
Proof. unfold TikTokConnectionProvider.handleCallback. single_use. Qed.

Lemma threads_single_use config code redirectUri net :
  configured config = true ->
  SingleUse (fun state =>
    ThreadsConnectionProvider.handleCallback config code state redirectUri net).
Proof. unfold ThreadsConnectionProvider.handleCallback. single_use. Qed.

Lemma socialAuth_single_use config platform c code redirectUri nets :
  SocialAuth.oauthConfig config platform = Some c ->
  configured c = true ->
  SingleUse (fun state =>
    SocialAuth.handleCallback config platform code state redirectUri nets).
Proof.
  intros Hcfg Hc.
  destruct platform; simpl in Hcfg; try discriminate Hcfg;
    unfold SocialAuth.handleCallback; rewrite Hcfg.
  - by apply twitter_single_use.
  - by apply linkedin_single_use.
  - by apply tiktok_single_use.
  - by apply threads_single_use.
Qed.

Lemma socialAuth_unconfigured config platform code state redirectUri nets w :
  (forall c, SocialAuth.oauthConfig config platform = Some c -> configured c = false) ->
  exists e, SocialAuth.handleCallback config platform code state redirectUri nets w
            = (Thrown e, w).
Proof.
  intros Hno.
  destruct platform; simpl in Hno; unfold SocialAuth.handleCallback;
    try (eexists; reflexivity);
    match goal with
    | |- context [match ?cfg with Some _ => _ | None => _ end] =>
        destruct cfg as [c|]; [|eexists; reflexivity];
        specialize (Hno c eq_refl)
    end.
  - unfold TwitterConnectionProvider.handleCallback. rewrite Hno. eexists; reflexivity.
  - unfold LinkedInConnectionProvider.handleCallback. rewrite Hno. eexists; reflexivity.
  - unfold TikTokConnectionProvider.handleCallback. rewrite Hno. eexists; reflexivity.
  - unfold ThreadsConnectionProvider.handleCallback. rewrite Hno. eexists; reflexivity.
Qed.

(** C3. Of two [handleCallback] calls made one after the other with the
    same [state], at most one returns a connection.  For a provider whose
    client credentials are configured, the first call leaves no record
    under [state] whatever the token exchange does afterwards, so the
    second call throws "Invalid or expired state parameter" without
    issuing a request and without touching the store. *)
Theorem handleCallback_single_use
    (config : PostDispatcher.PlatformConfig) (platform : Platform)
    (state code1 redirectUri1 code2 redirectUri2 : string)
    (nets1 nets2 : SocialAuth.CallbackNets) (w w1 w2 : World)
    (r1 r2 : Outcome Obj) :
  SocialAuth.handleCallback config platform code1 state redirectUri1 nets1 w = (r1, w1) ->
  SocialAuth.handleCallback config platform code2 state redirectUri2 nets2 w1 = (r2, w2) ->
  (forall c1 c2, ~ (r1 = Returned c1 /\ r2 = Returned c2)) /\
  (forall c,
      SocialAuth.oauthConfig config platform = Some c -> configured c = true ->
      MemoryAdapter.getOAuthState state (db w1) = None /\
      r2 = Thrown stateError /\
      w2 = w1).
Proof.
  intros H1 H2.
  assert (Hconf : forall c,
      SocialAuth.oauthConfig config platform = Some c -> configured c = true ->
      MemoryAdapter.getOAuthState state (db w1) = None /\
      r2 = Thrown stateError /\ w2 = w1).
  { intros c Hcfg Hc.
    destruct (socialAuth_single_use config platform c code1 redirectUri1 nets1
                Hcfg Hc state w) as [Hgone _].
    specialize (Hgone _ _ H1).
    destruct (socialAuth_single_use config platform c code2 redirectUri2 nets2
                Hcfg Hc state w1) as [_ Habsent].
    rewrite (Habsent Hgone) in H2. by injection H2 as <- <-. }
  split; [|exact Hconf].
  intros c1 c2 [-> ->].
  destruct (SocialAuth.oauthConfig config platform) as [c|] eqn:Hcfg.
  - destruct (configured c) eqn:Hc.
    + by destruct (Hconf c eq_refl Hc) as (_ & ? & _).
    + destruct (socialAuth_unconfigured config platform code1 state redirectUri1
                  nets1 w) as [e He]; [|congruence].
      intros c' Hc'. congruence.
  - destruct (socialAuth_unconfigured config platform code1 state redirectUri1
                nets1 w) as [e He]; [|congruence].
    intros c' Hc'. congruence.
Qed.

Lemma handleCallback_single_use_witness :
  let config := PostDispatcher.mkPlatformConfig
                  None (Some (mkOAuthConfig "client" "secret")) false None None
                  false false false in
  let nets := SocialAuth.mkCallbackNets
    (TwitterConnectionProvider.mkCallbackNet (Thrown (Error "")) (Thrown (Error "")) 0 0)
    (LinkedInConnectionProvider.mkCallbackNet
       (Returned (LinkedInConnectionProvider.mkTokenData "token" 3600 None None))
       (Returned "member-1") 1700000000000 1700000000000)
    (TikTokConnectionProvider.mkCallbackNet (Thrown (Error "")) (Thrown (Error "")) 0 0)
    (ThreadsConnectionProvider.mkCallbackNet (Thrown (Error "")) (Thrown (Error "")) 0 0) in
  let w := mkWorld (MemoryAdapter.saveOAuthState "s1"
                      (mkOAuthState "alice" "" "s1" 1699999999000) MemoryAdapter.empty) [] in
  let first := SocialAuth.handleCallback config linkedin "code" "s1" "https://app/cb" nets w in
  let second := SocialAuth.handleCallback config linkedin "code" "s1" "https://app/cb" nets
                  (snd first) in
  is_Some (MemoryAdapter.getOAuthState "s1" (db w)) /\ fst second = Thrown stateError.
Proof.
  intros config nets w first second. split.
  - eexists. reflexivity.
  - destruct (handleCallback_single_use config linkedin "s1" "code" "https://app/cb"
                "code" "https://app/cb" nets nets w (snd first) (snd second)
                (fst first) (fst second)) as [_ H].
    + apply surjective_pairing.
    + apply surjective_pairing.
    + destruct (H (mkOAuthConfig "client" "secret") eq_refl eq_refl) as (_ & -> & _).
      reflexivity.
Defined.

(** ** Results do not depend on the store (handlers/*.ts) *)

Lemma obl_ret {A} (a : A) : oblivious (mret a : M A).
Proof. by intros w w'. Qed.

Lemma obl_throw {A} (e : JsError) : oblivious (throw e : M A).
Proof. by intros w w'. Qed.

Lemma obl_call {A} ev (o : Outcome A) : oblivious (call ev o).
Proof. by intros w w'. Qed.

Lemma obl_emit ev : oblivious (emit ev).
Proof. by intros w w'. Qed.

Lemma obl_settle {A} (o : Outcome A) : oblivious (settle o).
Proof. by intros w w'. Qed.

Lemma obl_dbWrite f : oblivious (dbWrite f).
Proof. by intros w w'. Qed.

Lemma obl_updateConnection u p upd : oblivious (updateConnection u p upd).
Proof. by intros w w'. Qed.

Lemma obl_bind {A B} (m : M A) (k : A -> M B) :
  oblivious m -> (forall a, oblivious (k a)) -> oblivious (m ≫= k).
Proof.
  intros Hm Hk w w'. unfold mbind, M_bind, bind.
  specialize (Hm w w').
  destruct (m w) as [[a|e] w1], (m w') as [[a'|e'] w1']; simpl in Hm; simplify_eq; try done.
  apply Hk.
Qed.

Lemma obl_tryCatch {A} (m : M A) (h : JsError -> M A) :
  oblivious m -> (forall e, oblivious (h e)) -> oblivious (tryCatch m h).
Proof.
  intros Hm Hh w w'. unfold tryCatch.
  specialize (Hm w w').
  destruct (m w) as [[a|e] w1], (m w') as [[a'|e'] w1']; simpl in Hm; simplify_eq; try done.
  apply Hh.
Qed.

Lemma obl_tryFinally {A} (m : M A) (f : M unit) :
  oblivious m -> oblivious (tryFinally m f).
Proof.
  intros Hm w w'. unfold tryFinally. specialize (Hm w w').
  by destruct (m w), (m w').
Qed.

Lemma obl_attempt {A} (m : M A) : oblivious m -> oblivious (attempt m).
Proof.
  intros Hm w w'. unfold attempt. specialize (Hm w w').
  destruct (m w), (m w'); simpl in *; congruence.
Qed.

Ltac obl_step :=
  first
    [ apply obl_ret | apply obl_throw | apply obl_call | apply obl_emit
    | apply obl_settle | apply obl_updateConnection | apply obl_dbWrite
    | apply obl_bind; [|intros ?]
    | apply obl_tryCatch; [|intros ?]
    | apply obl_tryFinally
    | apply obl_attempt
    | match goal with
      | |- oblivious (if ?b then _ else _) => destruct b
      | |- oblivious (match ?x with _ => _ end) => destruct x
      | |- oblivious (let '(_, _) := ?x in _) => destruct x
      end ].

Ltac obl := repeat obl_step.


Section Oblivious.
Context `{Libs}.

Lemma obl_twitter_refresh config conn net :
  oblivious (TwitterConnectionProvider.refreshToken config conn net).
Proof. unfold TwitterConnectionProvider.refreshToken. obl. Qed.

Lemma obl_linkedin_refresh config conn net :
  oblivious (LinkedInConnectionProvider.refreshToken config conn net).
Proof. unfold LinkedInConnectionProvider.refreshToken. obl. Qed.

Lemma obl_tiktok_refresh config conn net :
  oblivious (TikTokConnectionProvider.refreshToken config conn net).
Proof. unfold TikTokConnectionProvider.refreshToken. obl. Qed.

Lemma obl_bluesky_refresh conn net :
  oblivious (BlueskyConnectionProvider.refreshToken conn net).
Proof. unfold BlueskyConnectionProvider.refreshToken. obl. Qed.

Lemma obl_twitter config u conn o net :
  oblivious (TwitterHandler.sendPost config u conn o net).
Proof.
  unfold TwitterHandler.sendPost, TwitterHandler.uploadMedia, Media.downloadMedia.
  obl; apply obl_twitter_refresh.
Qed.

Lemma obl_linkedin config u conn o net :
  oblivious (LinkedInHandler.sendPost config u conn o net).
Proof.
  unfold LinkedInHandler.sendPost, LinkedInHandler.uploadMedia.
  obl; apply obl_linkedin_refresh.
Qed.

Lemma obl_putChunks net chunks i : oblivious (TikTokHandler.putChunks net i chunks).
Proof. revert i. induction chunks as [|c chunks IH]; intros i; simpl; obl. apply IH. Qed.

Lemma obl_handleVideoUpload fileSize net :
  oblivious (TikTokHandler.handleVideoUpload fileSize net).
Proof.
  unfold TikTokHandler.handleVideoUpload, TikTokHandler.initVideoUpload.
  obl; apply obl_putChunks.
Qed.

Lemma obl_tiktok config u conn o net :
  oblivious (TikTokHandler.sendPost config u conn o net).
Proof.
  unfold TikTokHandler.sendPost, TikTokHandler.upload, TikTokHandler.cleanupTempFile.
  obl; first [apply obl_tiktok_refresh | apply obl_handleVideoUpload].
Qed.

Lemma obl_discord u conn o net : oblivious (DiscordHandler.sendPost u conn o net).
Proof. unfold DiscordHandler.sendPost. obl. Qed.

Lemma obl_threads u conn o net : oblivious (ThreadsHandler.sendPost u conn o net).
Proof. unfold ThreadsHandler.sendPost. obl. Qed.

Lemma obl_devto u conn o net : oblivious (DevtoHandler.sendPost u conn o net).
Proof. unfold DevtoHandler.sendPost. obl. Qed.

Lemma obl_github u conn o : oblivious (GitHubHandler.sendPost u conn o).
Proof. unfold GitHubHandler.sendPost. obl. Qed.

Lemma obl_pollJob n final : oblivious (BlueskyHandler.pollJob n final).
Proof. induction n as [|n IH]; simpl; obl. apply IH. Qed.

Lemma obl_bluesky u conn o net : oblivious (BlueskyHandler.sendPost u conn o net).
Proof.
  unfold BlueskyHandler.sendPost, BlueskyHandler.resumeSession,
    BlueskyHandler.uploadMedia, BlueskyHandler.publish, BlueskyHandler.uploadVideo,
    Media.downloadMedia.
  obl; try apply obl_bluesky_refresh; apply obl_pollJob.
Qed.

Lemma obl_handlers config p h u conn o nets :
  PostDispatcher.handlers config p = Some h -> oblivious (h u conn o nets).
Proof.
  destruct config as [tw li bs tt th dv dc gh].
  destruct p; simpl; unfold PostDispatcher.present; intros E;
    [destruct tw|destruct li|destruct bs|destruct tt|destruct dv
    |destruct th|destruct dc|destruct gh]; simplify_eq/=.
  - apply obl_twitter.
  - apply obl_linkedin.
  - apply obl_bluesky.
  - apply obl_tiktok.
  - apply obl_devto.
  - apply obl_threads.
  - apply obl_discord.
  - apply obl_github.
Qed.

End Oblivious.

(** ** The shape of results (handlers/*.ts, dispatcher.ts) *)

Lemma ret_ret {A} (a : A) (Q : A -> Prop) : Q a -> returns (mret a : M A) Q.
Proof. intros HQ w a' w' E. by injection E as <- _. Qed.

Lemma ret_throw {A} (e : JsError) (Q : A -> Prop) : returns (throw e : M A) Q.
Proof. intros w a' w' E. discriminate E. Qed.

Lemma ret_bind_with {A B} (m : M A) (k : A -> M B) (P : A -> Prop) (Q : B -> Prop) :
  returns m P -> (forall a, P a -> returns (k a) Q) -> returns (m ≫= k) Q.
Proof.
  intros Hm Hk w b w'. unfold mbind, M_bind, bind.
  destruct (m w) as [[a|e] w1] eqn:E; [|discriminate].
  apply (Hk a (Hm _ _ _ E)).
Qed.

Lemma ret_bind {A B} (m : M A) (k : A -> M B) (Q : B -> Prop) :
  (forall a, returns (k a) Q) -> returns (m ≫= k) Q.
Proof.
  intros Hk. apply (ret_bind_with m k (fun _ => True)); [done|]. intros a _. apply Hk.
Qed.

Lemma ret_tryCatch {A} (m : M A) (h : JsError -> M A) (Q : A -> Prop) :
  returns m Q -> (forall e, returns (h e) Q) -> returns (tryCatch m h) Q.
Proof.
  intros Hm Hh w a w'. unfold tryCatch.
  destruct (m w) as [[a'|e] w1] eqn:E.
  - intros [= <- _]. by apply (Hm _ _ _ E).
  - apply Hh.
Qed.

Lemma ret_tryFinally {A} (m : M A) (f : M unit) (Q : A -> Prop) :
  returns m Q -> returns (tryFinally m f) Q.
Proof.
  intros Hm w a w'. unfold tryFinally.
  destruct (m w) as [r w1] eqn:E. intros [= -> _]. by apply (Hm _ _ _ E).
Qed.

Lemma strOr_nonEmpty (s d : string) : d <> "" -> strOr s d <> "".
Proof. unfold strOr. destruct s; simpl; [done|discriminate]. Qed.

Lemma nonEmpty_ne (s : string) : nonEmpty s = true -> s <> "".
Proof. by destruct s. Qed.

Lemma shape_failed (p : Platform) (msg : string) : msg <> "" -> Shape p (failed p msg).
Proof.
  intros Hm. split; [reflexivity|]. split; [discriminate|].
  intros _. split; [reflexivity|]. by exists msg.
Qed.

Lemma shape_succeeded (p : Platform) (o : Obj) : identified p o -> Shape p (succeeded p o).
Proof.
  intros Hi. split; [reflexivity|]. split; [|discriminate].
  intros _. split; [reflexivity|]. by exists o.
Qed.

Lemma negb_nonEmpty_ne (s : string) : negb (nonEmpty s) = false -> s <> "".
Proof. by destruct s. Qed.

Lemma errorText_nonEmpty (e : JsError) : TikTokHandler.errorText e <> "".
Proof.
  unfold TikTokHandler.errorText.
  destruct (err_responseMessage e) as [m|]; [destruct (nonEmpty m) eqn:E|].
  - by apply nonEmpty_ne.
  - by apply strOr_nonEmpty.
  - by apply strOr_nonEmpty.
Qed.

Ltac nonempty :=
  first [ apply strOr_nonEmpty; discriminate
        | apply errorText_nonEmpty
        | by apply nonEmpty_ne
        | by apply negb_nonEmpty_ne
        | simpl; discriminate ].

Ltac ret_step :=
  first
    [ apply ret_throw
    | apply ret_ret
    | apply ret_bind; intros ?
    | apply ret_tryCatch; [|intros ?]
    | apply ret_tryFinally
    | match goal with
      | |- returns (if ?b then _ else _) _ => destruct b eqn:?
      | |- returns (match ?x with _ => _ end) _ => destruct x eqn:?
      | |- returns (let '(_, _) := ?x in _) _ => destruct x eqn:?
      end ].

Section Shapes.
Context `{Libs}.

Lemma shape_twitter config u conn o net :
  returns (TwitterHandler.sendPost config u conn o net) (Shape twitter).
Proof.
  unfold TwitterHandler.sendPost.
  repeat ret_step;
    first [ apply shape_failed; nonempty
          | apply shape_succeeded; eexists; split; reflexivity ].
Qed.

Ltac shape :=
  repeat ret_step;
  first [ apply shape_failed; nonempty
        | apply shape_succeeded; simpl;
          first [ reflexivity
                | eexists; split; [|reflexivity]; nonempty
                | eexists; split; reflexivity
                | eexists; reflexivity
                | do 2 eexists; split; reflexivity ] ].

Lemma shape_linkedin config u conn o net :
  returns (LinkedInHandler.sendPost config u conn o net) (Shape linkedin).
Proof.
  unfold LinkedInHandler.sendPost.
  repeat ret_step; try (apply shape_failed; nonempty).
  apply shape_succeeded. unfold LinkedInHandler.posted. simpl.
  destruct (LinkedInHandler.restLiId net) as [i|]; [|by right].
  destruct (nonEmpty i) eqn:E; [left|by right].
  exists i. split; [by apply nonEmpty_ne|reflexivity].
Qed.

Lemma shape_tiktok config u conn o net :
  returns (TikTokHandler.sendPost config u conn o net) (Shape tiktok).
Proof.
  unfold TikTokHandler.sendPost, TikTokHandler.upload, TikTokHandler.finish. shape.
Qed.

Lemma shape_discord u conn o net :
  returns (DiscordHandler.sendPost u conn o net) (Shape discord).
Proof. unfold DiscordHandler.sendPost. shape. Qed.

Lemma shape_threads u conn o net :
  returns (ThreadsHandler.sendPost u conn o net) (Shape threads).
Proof. unfold ThreadsHandler.sendPost. shape. Qed.

Lemma shape_devto u conn o net :
  returns (DevtoHandler.sendPost u conn o net) (Shape devto).
Proof. unfold DevtoHandler.sendPost. shape. Qed.

Lemma shape_github u conn o :
  returns (GitHubHandler.sendPost u conn o) (Shape github).
Proof. unfold GitHubHandler.sendPost. shape. Qed.

Lemma shape_bluesky_resume u conn net :
  returns (BlueskyHandler.resumeSession u conn net) flowShape.
Proof.
  unfold BlueskyHandler.resumeSession.
  repeat ret_step; simpl; try done. apply shape_failed; nonempty.
Qed.

Lemma shape_bluesky_media o net :
  returns (BlueskyHandler.uploadMedia o net) flowShape.
Proof.
  unfold BlueskyHandler.uploadMedia.
  repeat ret_step; simpl; try done; apply shape_failed; nonempty.
Qed.

Lemma shape_bluesky_publish u refreshed net :
  returns (BlueskyHandler.publish u refreshed net) (Shape bluesky).
Proof.
  unfold BlueskyHandler.publish, BlueskyHandler.posted.
  apply ret_tryCatch; [shape|]. intros apiError.
  eapply (ret_bind_with _ _ flowShape).
  - repeat ret_step; simpl; try done.
    apply shape_succeeded. simpl. do 2 eexists; split; reflexivity.
  - intros [r|[]] Hr; [by apply ret_ret|]. shape.
Qed.

Lemma shape_bluesky u conn o net :
  returns (BlueskyHandler.sendPost u conn o net) (Shape bluesky).
Proof.
  unfold BlueskyHandler.sendPost.
  destruct (_ || _); [shape|].
  eapply ret_bind_with; [apply shape_bluesky_resume|].
  intros [r|[bskyConn refreshed]] Hr; [by apply ret_ret|].
  eapply ret_bind_with; [apply shape_bluesky_media|].
  intros [r|[]] Hm; [by apply ret_ret|].
  destruct (negb _); [shape|].
  apply ret_bind; intros _. apply shape_bluesky_publish.
Qed.

Lemma shape_handlers config p h u conn o nets :
  PostDispatcher.handlers config p = Some h -> returns (h u conn o nets) (Shape p).
Proof.
  destruct config as [tw li bs tt th dv dc gh].
  destruct p; simpl; unfold PostDispatcher.present; intros E;
    [destruct tw|destruct li|destruct bs|destruct tt|destruct dv
    |destruct th|destruct dc|destruct gh]; simplify_eq/=.
  - apply shape_twitter.
  - apply shape_linkedin.
  - apply shape_bluesky.
  - apply shape_tiktok.
  - apply shape_devto.
  - apply shape_threads.
  - apply shape_discord.
  - apply shape_github.
Qed.

End Shapes.

(** ** The dispatcher (dispatcher.ts) *)

Lemma oblivious_outcome {A} (m : M A) (w : World) :
  oblivious m -> fst (m w) = outcomeOf m.
Proof. intros Hm. apply Hm. Qed.

Lemma omap_id_Some {A B} (f : A -> B) (l : list A) :
  omap id (map (fun x => Some (f x)) l) = map f l.
Proof. induction l as [|x l IH]; [done|]. cbn. by rewrite IH. Qed.

Section Settle.
Variable jobs : list (M PostResult).
Hypothesis jobs_oblivious : forall i job, jobs !! i = Some job -> oblivious job.

Lemma complete_spec slots index w :
  agrees jobs slots ->
  exists slots' w',
    PostDispatcher.complete jobs slots index w = (Returned slots', w') /\
    agrees jobs slots' /\
    (forall i, filled slots i -> filled slots' i) /\
    (index < length jobs -> filled slots' index)%nat.
Proof.
  intros [Hlen Hag]. unfold PostDispatcher.complete.
  destruct (jobs !! index) as [job|] eqn:Hjob.
  - assert (Hlt : (index < length slots)%nat)
      by (rewrite Hlen; by eapply lookup_lt_Some).
    destruct (slots !! index) as [[o|]|] eqn:Hslot.
    + exists slots, w. split; [reflexivity|]. split; [by split|]. split; [done|].
      intros _. by exists o.
    + unfold mbind, M_bind, bind, attempt.
      destruct (job w) as [o w1] eqn:Hrun. simpl.
      exists (<[index := Some o]> slots), w1. split; [reflexivity|].
      split; [split|split].
      * by rewrite length_insert.
      * intros i o' Hi. destruct (decide (i = index)) as [->|Hne].
        -- rewrite list_lookup_insert_eq in Hi by done. injection Hi as <-.
           exists job. split; [done|].
           rewrite <- (oblivious_outcome job w (jobs_oblivious _ _ Hjob)).
           by rewrite Hrun.
        -- rewrite list_lookup_insert_ne in Hi by done. by apply Hag.
      * intros i [o' Hi]. destruct (decide (i = index)) as [->|Hne].
        -- congruence.
        -- exists o'. by rewrite list_lookup_insert_ne.
      * intros _. exists o. by rewrite list_lookup_insert_eq.
    + apply lookup_ge_None in Hslot. lia.
  - exists slots, w. split; [reflexivity|]. split; [by split|]. split; [done|].
    intros Hlt. apply lookup_ge_None in Hjob. lia.
Qed.

Lemma completeAll_spec order : forall slots w,
  agrees jobs slots ->
  exists slots' w',
    PostDispatcher.completeAll jobs slots order w = (Returned slots', w') /\
    agrees jobs slots' /\
    (forall i, filled slots i -> filled slots' i) /\
    (forall i, i ∈ order -> (i < length jobs)%nat -> filled slots' i).
Proof.
  induction order as [|index later IH]; intros slots w Hag; simpl.
  - exists slots, w. split; [reflexivity|]. split; [done|]. split; [done|].
    intros i Hi. by apply elem_of_nil in Hi.
  - destruct (complete_spec slots index w Hag) as (s1 & w1 & Hrun & Hag1 & Hkeep1 & Hfill1).
    destruct (IH s1 w1 Hag1) as (s2 & w2 & Hrun2 & Hag2 & Hkeep2 & Hfill2).
    exists s2, w2. unfold mbind, M_bind, bind. rewrite Hrun. split; [exact Hrun2|].
    split; [done|]. split; [by auto|].
    intros i Hi Hlt. apply elem_of_cons in Hi as [->|Hi]; [|by auto].
    apply Hkeep2. by apply Hfill1.
Qed.

Lemma omap_id_filled (slots : list (option (Outcome PostResult))) :
  agrees jobs slots ->
  (forall i, (i < length jobs)%nat -> filled slots i) ->
  omap id slots = map outcomeOf jobs.
Proof.
  intros [Hlen Hag] Hall.
  assert (Hs : slots = map (fun job => Some (outcomeOf job)) jobs).
  { apply list_eq. intros i. rewrite list_lookup_fmap.
    destruct (jobs !! i) as [job|] eqn:Hjob; simpl.
    - destruct (Hall i) as [o Ho]; [by eapply lookup_lt_Some|].
      destruct (Hag _ _ Ho) as (job' & Hjob' & ->). congruence.
    - apply lookup_ge_None. apply lookup_ge_None in Hjob. lia. }
  rewrite Hs. apply omap_id_Some.
Qed.

Lemma allSettled_spec order w :
  exists w', PostDispatcher.allSettled jobs order w
             = (Returned (map outcomeOf jobs), w').
Proof.
  unfold PostDispatcher.allSettled.
  destruct (completeAll_spec (order ++ seq 0 (length jobs))
              (replicate (length jobs) None) w) as (slots & w' & Hrun & Hag & _ & Hfill).
  { split; [by rewrite length_replicate|].
    intros i o Hi. apply lookup_replicate in Hi as [? _]. done. }
  exists w'. unfold mbind, M_bind, bind. rewrite Hrun. unfold mret, M_ret, ret.
  f_equal. f_equal. apply omap_id_filled; [done|].
  intros i Hi. apply Hfill; [|done].
  apply elem_of_app. right. apply elem_of_seq. lia.
Qed.

End Settle.

Section Dispatch.
Context `{Libs}.

Lemma start_spec config p u o n w :
  exists job,
    PostDispatcher.start config p u o n w = (Returned job, w) /\
    oblivious job /\
    returns job (Shape p) /\
    PostDispatcher.postToPlatform config p u o n w = job w /\
    (forall handler connection e w1,
        PostDispatcher.handlers config p = Some handler ->
        MemoryAdapter.getConnection u p (db w) = Some connection ->
        handler u connection o n w = (Thrown e, w1) ->
        fst (job w) = Returned (mkPostResult (Some (platformName p)) false None
                                  (Some (strOr (message e) "Unknown error occurred")))).
Proof.
  unfold PostDispatcher.postToPlatform, PostDispatcher.start.
  destruct (PostDispatcher.handlers config p) as [handler|] eqn:Hh.
  - unfold mbind, M_bind, bind, dbRead, mret, M_ret, ret.
    destruct (MemoryAdapter.getConnection u p (db w)) as [connection|] eqn:Hc.
    + eexists. split; [reflexivity|]. split; [|split; [|split; [reflexivity|]]].
      * apply obl_tryCatch; [by apply (obl_handlers config p)|]. intros e. apply obl_ret.
      * apply ret_tryCatch; [by apply (shape_handlers config p)|]. intros e. apply ret_ret.
        apply shape_failed. by apply strOr_nonEmpty.
      * intros handler' connection' e w1 [= <-] [= <-] Hrun.
        unfold tryCatch. by rewrite Hrun.
    + eexists. split; [reflexivity|]. split; [apply obl_throw|].
      split; [apply ret_throw|]. split; [reflexivity|]. intros; discriminate.
  - unfold mbind, M_bind, bind, mret, M_ret, ret.
    eexists. split; [reflexivity|]. split; [apply obl_throw|].
    split; [apply ret_throw|]. split; [reflexivity|]. intros; discriminate.
Qed.

Lemma startAll_spec config u o nets ps : forall index w,
  exists jobs,
    PostDispatcher.startAll config u o nets index ps w = (Returned jobs, w) /\
    length jobs = length ps /\
    forall i p, ps !! i = Some p ->
      exists job, jobs !! i = Some job /\ oblivious job /\ returns job (Shape p) /\
        PostDispatcher.postToPlatform config p u o (nets (index + i)%nat) w = job w /\
        (forall handler connection e w1,
            PostDispatcher.handlers config p = Some handler ->
            MemoryAdapter.getConnection u p (db w) = Some connection ->
            handler u connection o (nets (index + i)%nat) w = (Thrown e, w1) ->
            fst (job w) = Returned (mkPostResult (Some (platformName p)) false None
                                  (Some (strOr (message e) "Unknown error occurred")))).
Proof.
  induction ps as [|p ps IH]; intros index w; simpl.
  - exists []. split; [reflexivity|]. split; [reflexivity|]. intros i p Hi. done.
  - destruct (start_spec config p u o (nets index) w) as (job & Hstart & Hjob).
    destruct (IH (S index) w) as (jobs & Hrun & Hlen & Hjobs).
    exists (job :: jobs). unfold mbind, M_bind, bind. rewrite Hstart, Hrun.
    split; [reflexivity|]. split; [simpl; by rewrite Hlen|].
    intros [|i] q Hi; simpl in Hi.
    + injection Hi as <-. exists job. rewrite Nat.add_0_r. by split.
    + destruct (Hjobs i q Hi) as (job' & Hj & Hrest). exists job'.
      replace (index + S i)%nat with (S index + i)%nat by lia. by split.
Qed.

(** What [postToAll] computes: index by index, the outcome of the call
    for that platform, whatever the order of completion. *)
Lemma postToAll_run config u o platforms nets order w :
  let targets := default (PostDispatcher.keys config) platforms in
  exists results w',
    PostDispatcher.postToAll config u o platforms nets order w = (Returned results, w') /\
    length results = length targets /\
    forall i p, targets !! i = Some p ->
      exists r,
        results !! i = Some r /\
        r = PostDispatcher.settled targets i
              (fst (PostDispatcher.postToPlatform config p u o (nets i) w)) /\
        Shape p r /\
        (forall handler connection e,
            PostDispatcher.handlers config p = Some handler ->
            MemoryAdapter.getConnection u p (db w) = Some connection ->
            fst (handler u connection o (nets i) w) = Thrown e ->
            r = mkPostResult (Some (platformName p)) false None
                  (Some (strOr (message e) "Unknown error occurred"))).
Proof.
  intros targets. unfold PostDispatcher.postToAll. fold targets.
  destruct (startAll_spec config u o nets targets 0%nat w) as (jobs & Hstart & Hlen & Hjobs).
  destruct (allSettled_spec jobs) with (order := order) (w := w) as [w' Hsettled].
  { intros i job Hi.
    destruct (lookup_lt_is_Some_2 targets i) as [p Hp];
      [rewrite <- Hlen; by eapply lookup_lt_Some|].
    destruct (Hjobs i p Hp) as (job' & Hj & Hobl & _). by simplify_eq. }
  exists (imap (PostDispatcher.settled targets) (map outcomeOf jobs)), w'.
  unfold mbind, M_bind, bind. rewrite Hstart, Hsettled.
  split; [reflexivity|].
  split; [by rewrite length_imap, length_map|].
  intros i p Hp.
  destruct (Hjobs i p Hp) as (job & Hj & Hobl & Hshape & Hpost & Hthrow).
  simpl in Hpost, Hthrow.
  exists (PostDispatcher.settled targets i (outcomeOf job)).
  assert (Hout : outcomeOf job = fst (job w)) by (symmetry; by apply oblivious_outcome).
  split; [|split; [|split]].
  - rewrite list_lookup_imap, list_lookup_fmap, Hj. reflexivity.
  - by rewrite Hpost, Hout.
  - rewrite Hout. destruct (job w) as [[v|e] w1] eqn:Hrun; simpl.
    + by apply (Hshape _ _ _ Hrun).
    + rewrite Hp. apply shape_failed. by apply strOr_nonEmpty.
  - intros handler connection e Hh Hc Hrun.
    destruct (handler u connection o (nets i) w) as [r1 w1] eqn:Hhr. simpl in Hrun.
    subst r1. rewrite Hout, (Hthrow _ _ _ _ Hh Hc Hhr). reflexivity.
Qed.

Lemma postToPlatform_shape config p u o nets :
  returns (PostDispatcher.postToPlatform config p u o nets) (Shape p).
Proof.
  intros w r w' Hrun.
  destruct (start_spec config p u o nets w) as (job & _ & _ & Hshape & Hpost & _).
  rewrite Hpost in Hrun. by apply (Hshape _ _ _ Hrun).
Qed.

End Dispatch.


(** ** Validity write-back (handlers/*.ts) *)

#[local] Arguments Media.getTwitterMediaTypeCategory : simpl never.
#[local] Arguments Media.okStatus : simpl never.
#[local] Arguments Media.maxSize : simpl never.
#[local] Arguments Security.isAuthError : simpl never.
#[local] Arguments Security.isTokenExpired : simpl never.
#[local] Arguments MemoryAdapter.updateConnection : simpl never.
#[local] Arguments markValid : simpl never.
#[local] Arguments markInvalid : simpl never.
#[local] Arguments strOr : simpl never.
#[local] Arguments obj : simpl never.
#[local] Arguments pretty : simpl never.
#[local] Arguments r_ok : simpl never.

Ltac run_step :=
  match goal with
  | |- context [match ?x with _ => _ end] =>
      lazymatch x with
      | context [match _ with _ => _ end] => fail
      | _ => destruct x eqn:?
      end
  end.

Ltac run := unfold_monad; simpl; repeat (run_step; simpl).

Lemma discord_writes_back u conn o net w :
  truthy (field conn "webhookUrl") = true ->
  WritesBack u discord (DiscordHandler.validated net) w
    (DiscordHandler.sendPost u conn o net w).
Proof.
  intros Hurl. unfold DiscordHandler.sendPost. rewrite Hurl. simpl.
  unfold WritesBack, WroteValid, WroteInvalid, updateConnection.
  run; eexists; (split; [reflexivity|]); simpl; auto.
Qed.

Lemma threads_writes_back u conn o net w :
  truthy (field conn "accessToken") = true ->
  truthy (field conn "threadsUserId") = true ->
  WritesBack u threads (ThreadsHandler.validated net) w
    (ThreadsHandler.sendPost u conn o net w).
Proof.
  intros Ht Hu. unfold ThreadsHandler.sendPost. rewrite Ht, Hu. simpl.
  unfold WritesBack, WroteValid, WroteInvalid, updateConnection.
  run; eexists; (split; [reflexivity|]); simpl; auto.
Qed.

Section Validity.
Context `{Libs}.

Lemma linkedin_writes_back u net w :
  WritesBack u linkedin (LinkedInHandler.validated net) w
    (LinkedInHandler.publish u net w).
Proof.
  unfold LinkedInHandler.publish.
  unfold WritesBack, WroteValid, WroteInvalid, updateConnection.
  run; eexists; (split; [reflexivity|]); simpl; auto.
Qed.

Lemma putChunks_db net chunks : forall i w,
  db (snd (TikTokHandler.putChunks net i chunks w)) = db w.
Proof.
  induction chunks as [|c chunks IH]; intros i w; simpl; [reflexivity|].
  unfold_monad. simpl. destruct (TikTokHandler.putChunk net i); simpl; [|reflexivity].
  by rewrite IH.
Qed.

Lemma handleVideoUpload_db fileSize net w :
  db (snd (TikTokHandler.handleVideoUpload fileSize net w)) = db w.
Proof.
  unfold TikTokHandler.handleVideoUpload, TikTokHandler.initVideoUpload.
  destruct (TikTokHandler.chunkSizing fileSize) as [c n].
  unfold_monad. simpl.
  destruct (TikTokHandler.videoInit net) as [[d|]|]; simpl; try reflexivity.
  destruct (_ || _); simpl; [reflexivity|].
  match goal with
  | |- context [TikTokHandler.putChunks net ?i ?cs ?w0] =>
      pose proof (putChunks_db net cs i w0) as Hdb;
      destruct (TikTokHandler.putChunks net i cs w0) as [[[]|e] w1]
  end; simpl in *; [|exact Hdb].
  destruct (TikTokHandler.videoPublish net); simpl; exact Hdb.
Qed.

Lemma finish_writes_back u net filePath publishId w w0 :
  db w0 = db w ->
  (forall w1, db (snd (publishId w1)) = db w1) ->
  WritesBack u tiktok (TikTokHandler.validated net) w
    (TikTokHandler.finish u net filePath publishId w0).
Proof.
  intros Hw Hdb. unfold TikTokHandler.finish, TikTokHandler.handlePhotoUpload,
    TikTokHandler.initPhotoUpload, TikTokHandler.cleanupTempFile.
  unfold WritesBack, WroteValid, WroteInvalid, updateConnection.
  unfold_monad. simpl. specialize (Hdb w0). rewrite <- Hw.
  destruct (publishId w0) as [[videoId|e] w1]; simpl in *.
  - destruct videoId as [i|]; simpl.
    + destruct (negb (nonEmpty i)); simpl; destruct filePath; simpl;
        eexists; (split; [reflexivity|]); simpl; rewrite Hdb; auto.
    + repeat (run_step; simpl); eexists; (split; [reflexivity|]); simpl;
        rewrite Hdb; auto.
  - destruct filePath; simpl; eexists; (split; [reflexivity|]); simpl;
      rewrite Hdb; auto.
Qed.

Lemma tiktok_writes_back u url net w :
  WritesBack u tiktok (TikTokHandler.validated net) w
    (TikTokHandler.upload u url net w).
Proof.
  unfold TikTokHandler.upload.
  destruct (Media.isVideoFile url).
  - unfold mbind at 1, M_bind, bind, attempt, call. simpl.
    destruct (TikTokHandler.download net) as [filePath|e]; simpl.
    + destruct (TikTokHandler.stat net) as [fileSize|e]; simpl.
      * destruct (negb _); simpl.
        -- unfold mbind at 1, M_bind, bind, TikTokHandler.cleanupTempFile, emit, call.
           simpl. by apply finish_writes_back.
        -- apply finish_writes_back; [reflexivity|].
           intros w0. unfold mbind, M_bind, bind, mret, M_ret, ret.
           pose proof (handleVideoUpload_db fileSize net w0) as Hdb.
           by destruct (TikTokHandler.handleVideoUpload fileSize net w0) as [[i|e] w1].
      * by apply finish_writes_back.
    + by apply finish_writes_back.
  - by apply finish_writes_back.
Qed.

Lemma twitter_validity config u conn needsRefresh net w :
  exists res w',
    TwitterHandler.publish config u conn needsRefresh net w = (Returned res, w') /\
    (forall i, TwitterHandler.tweet net = Returned i ->
       success res = true /\ WroteValid u twitter (TwitterHandler.validated net) w w') /\
    (forall e, TwitterHandler.tweet net = Thrown e ->
       TwitterHandler.isAuthErrorTwitter e = false ->
       success res = false /\ Untouched w w') /\
    (forall e, TwitterHandler.tweet net = Thrown e ->
       TwitterHandler.isAuthErrorTwitter e = true ->
       needsRefresh = true ->
       success res = false /\ WroteInvalid u twitter w w') /\
    (forall e, TwitterHandler.tweet net = Thrown e ->
       TwitterHandler.isAuthErrorTwitter e = true ->
       needsRefresh = false ->
       (success res = true /\
        exists s, db w' = MemoryAdapter.updateConnection u twitter
                            (markValid (TwitterHandler.revalidated net)) s) \/
       (success res = false /\
        exists s, db w' = MemoryAdapter.updateConnection u twitter markInvalid s)).
Proof.
  unfold TwitterHandler.publish.
  unfold WroteValid, WroteInvalid, Untouched, TwitterConnectionProvider.refreshToken,
    updateConnection.
  destruct needsRefresh; simpl.
  all: run; eexists _, _; (split; [reflexivity|]);
    (split; [|split; [|split]]); intros; simplify_eq; simpl; eauto.
  all: try congruence.
  all: match goal with
       | Ha : TwitterHandler.isAuthErrorTwitter ?e = _,
         Hb : TwitterHandler.isAuthErrorTwitter ?e && _ = _ |- _ =>
           rewrite Ha in Hb; discriminate Hb
       end.
Qed.

Lemma devto_validity u conn o net w :
  truthy (field conn "apiKey") = true ->
  exists res w',
    DevtoHandler.sendPost u conn o net w = (Returned res, w') /\
    (forall resp article,
       DevtoHandler.publish net = Returned resp -> r_ok resp = true ->
       r_json resp = Returned article ->
       success res = true /\ WroteValid u devto (DevtoHandler.validated net) w w') /\
    (forall resp body,
       DevtoHandler.publish net = Returned resp -> r_ok resp = false ->
       r_text resp = Returned body ->
       success res = false /\
       if DevtoHandler.isAuthError (r_status resp)
       then WroteInvalid u devto w w' else Untouched w w') /\
    (forall e, DevtoHandler.publish net = Thrown e ->
       success res = false /\ WroteInvalid u devto w w').
Proof.
  intros Hk. unfold DevtoHandler.sendPost. rewrite Hk. simpl.
  unfold WroteValid, WroteInvalid, Untouched, updateConnection.
  run; eexists _, _; (split; [reflexivity|]);
    (split; [|split]); intros; simplify_eq/=; eauto.
  all: try congruence.
  all: try match goal with
       | Ha : ?b = _, Hb : negb ?b = _ |- _ => rewrite Ha in Hb; discriminate Hb
       end.
  all: match goal with H : DevtoHandler.isAuthError _ = _ |- _ => rewrite H end; eauto.
Qed.

Lemma bluesky_validity u refreshed net w :
  exists res w',
    BlueskyHandler.publish u refreshed net w = (Returned res, w') /\
    (forall r, BlueskyHandler.post net = Returned r ->
       success res = true /\
       (refreshed = false ->
        WroteValid u bluesky (BlueskyHandler.validated net) w w')) /\
    (forall e, BlueskyHandler.post net = Thrown e ->
       Security.isAuthError "bluesky" e = false ->
       success res = false /\
       db w' = MemoryAdapter.updateConnection u bluesky
                 (obj [("isValid", VBool false); ("needsReconnection", VBool false)])
                 (db w)) /\
    (forall e, BlueskyHandler.post net = Thrown e ->
       Security.isAuthError "bluesky" e = true ->
       success res = false ->
       exists s, db w' = MemoryAdapter.updateConnection u bluesky
                 (obj [("isValid", VBool false); ("needsReconnection", VBool true)]) s).
Proof.
  unfold BlueskyHandler.publish.
  unfold WroteValid, Untouched, updateConnection.
  destruct refreshed; simpl.
  all: run.
  all: eexists _, _; (split; [reflexivity|]).
  all: (split; [|split]); intros; simplify_eq.
  all: try congruence.
  all: repeat match goal with
         | Ha : Security.isAuthError ?p ?e = _ |- context [Security.isAuthError ?p ?e] =>
             rewrite Ha
         end.
  all: first [ by split | by eexists ].
Qed.
End Validity.

(** ** Events and the proactive refresh (handlers/*.ts) *)

Section Emits.
Context (P : Event -> Prop).

Lemma emits_ret {A} (a : A) : emits P (mret a : M A).
Proof. intros w. exists []. by rewrite app_nil_r. Qed.

Lemma emits_throw {A} (e : JsError) : emits P (throw e : M A).
Proof. intros w. exists []. by rewrite app_nil_r. Qed.

Lemma emits_settle {A} (o : Outcome A) : emits P (settle o).
Proof. intros w. exists []. by rewrite app_nil_r. Qed.

Lemma emits_dbWrite f : emits P (dbWrite f).
Proof. intros w. exists []. by rewrite app_nil_r. Qed.

Lemma emits_updateConnection u p upd : emits P (updateConnection u p upd).
Proof. apply emits_dbWrite. Qed.

Lemma emits_call {A} ev (o : Outcome A) : P ev -> emits P (call ev o).
Proof. intros HP w. exists [ev]. split; [reflexivity|]. by constructor. Qed.

Lemma emits_emit ev : P ev -> emits P (emit ev).
Proof. apply emits_call. Qed.

Lemma emits_bind {A B} (m : M A) (k : A -> M B) :
  emits P m -> (forall a, emits P (k a)) -> emits P (m ≫= k).
Proof.
  intros Hm Hk w. unfold mbind, M_bind, bind.
  destruct (Hm w) as (r1 & E1 & F1).
  destruct (m w) as [[a|e] w1]; simpl in *.
  - destruct (Hk a w1) as (r2 & E2 & F2). exists (r1 ++ r2).
    rewrite E2, E1, app_assoc. split; [reflexivity|]. by apply Forall_app.
  - by exists r1.
Qed.

Lemma emits_tryCatch {A} (m : M A) (h : JsError -> M A) :
  emits P m -> (forall e, emits P (h e)) -> emits P (tryCatch m h).
Proof.
  intros Hm Hh w. unfold tryCatch.
  destruct (Hm w) as (r1 & E1 & F1).
  destruct (m w) as [[a|e] w1]; simpl in *.
  - by exists r1.
  - destruct (Hh e w1) as (r2 & E2 & F2). exists (r1 ++ r2).
    rewrite E2, E1, app_assoc. split; [reflexivity|]. by apply Forall_app.
Qed.

Lemma emits_tryFinally {A} (m : M A) (f : M unit) :
  emits P m -> emits P f -> emits P (tryFinally m f).
Proof.
  intros Hm Hf w. unfold tryFinally.
  destruct (Hm w) as (r1 & E1 & F1).
  destruct (m w) as [r w1]; simpl in *.
  destruct (Hf w1) as (r2 & E2 & F2). exists (r1 ++ r2).
  rewrite E2, E1, app_assoc. split; [reflexivity|]. by apply Forall_app.
Qed.

Lemma emits_attempt {A} (m : M A) : emits P m -> emits P (attempt m).
Proof.
  intros Hm w. unfold attempt. destruct (Hm w) as (r1 & E1 & F1).
  destruct (m w) as [r w1]; simpl in *. by exists r1.
Qed.

End Emits.

Lemma begins_emit_bind {A} ev (k : M A) :
  emits (fun _ => True) k -> beginsWith ev (emit ev ≫= fun _ => k).
Proof.
  intros Hk w. unfold mbind, M_bind, bind, emit, call. simpl.
  destruct (Hk (mkWorld (db w) (log w ++ [ev]))) as (r & E & _).
  exists r. rewrite E. simpl. by rewrite <- app_assoc.
Qed.

Lemma begins_bind {A B} ev (m : M A) (k : A -> M B) :
  beginsWith ev m -> (forall a, emits (fun _ => True) (k a)) -> beginsWith ev (m ≫= k).
Proof.
  intros Hm Hk w. unfold mbind, M_bind, bind.
  destruct (Hm w) as (r1 & E1).
  destruct (m w) as [[a|e] w1]; simpl in *.
  - destruct (Hk a w1) as (r2 & E2 & _). exists (r1 ++ r2).
    by rewrite E2, E1, <- app_assoc.
  - by exists r1.
Qed.

Lemma begins_tryCatch {A} ev (m : M A) (h : JsError -> M A) :
  beginsWith ev m -> (forall e, emits (fun _ => True) (h e)) ->
  beginsWith ev (tryCatch m h).
Proof.
  intros Hm Hh w. unfold tryCatch.
  destruct (Hm w) as (r1 & E1).
  destruct (m w) as [[a|e] w1]; simpl in *.
  - by exists r1.
  - destruct (Hh e w1) as (r2 & E2 & _). exists (r1 ++ r2).
    by rewrite E2, E1, <- app_assoc.
Qed.

Ltac emits_step :=
  first
    [ apply emits_ret | apply emits_throw | apply emits_settle
    | apply emits_updateConnection | apply emits_dbWrite
    | apply emits_call | apply emits_emit
    | apply emits_bind; [|intros ?]
    | apply emits_tryCatch; [|intros ?]
    | apply emits_tryFinally
    | apply emits_attempt
    | match goal with
      | |- emits _ (if ?b then _ else _) => destruct b
      | |- emits _ (match ?x with _ => _ end) => destruct x
      | |- emits _ (let '(_, _) := ?x in _) => destruct x
      end ].

Ltac emits_any := repeat emits_step; try exact I.

Section Refresh.
Context `{Libs}.

Lemma emits_twitter_refresh config conn net :
  emits (fun _ => True) (TwitterConnectionProvider.refreshToken config conn net).
Proof. unfold TwitterConnectionProvider.refreshToken. emits_any. Qed.

Lemma twitter_refresh_first config u conn o net :
  truthy (field conn "accessToken") = true ->
  TwitterHandler.needsRefresh conn (TwitterHandler.now net) = true ->
  beginsWith (EvRefreshToken twitter) (TwitterHandler.sendPost config u conn o net).
Proof.
  intros Ht Hn. unfold TwitterHandler.sendPost. rewrite Ht, Hn. simpl.
  apply begins_bind.
  - apply begins_tryCatch.
    + unfold TwitterConnectionProvider.refreshToken. apply begins_emit_bind. emits_any.
    + intros e. emits_any.
  - intros conn'. unfold TwitterHandler.uploadMedia, Media.downloadMedia.
    emits_any. all: apply emits_twitter_refresh.
Qed.

Lemma threads_never_refreshes u conn o net :
  emits (fun ev => ev <> EvRefreshToken threads) (ThreadsHandler.sendPost u conn o net).
Proof. unfold ThreadsHandler.sendPost. repeat emits_step; discriminate. Qed.


Lemma linkedin_refresh_first config u conn o net :
  truthy (field conn "accessToken") = true ->
  truthy (field conn "linkedInUserId") = true ->
  Security.isTokenExpired (field conn "accessToken") (LinkedInHandler.now net) = true ->
  beginsWith (EvRefreshToken linkedin) (LinkedInHandler.sendPost config u conn o net).
Proof.
  intros Ht Hu He. unfold LinkedInHandler.sendPost. rewrite Ht, Hu, He. simpl.
  apply begins_bind.
  - apply begins_tryCatch.
    + unfold LinkedInConnectionProvider.refreshToken. apply begins_emit_bind. emits_any.
    + intros e. emits_any.
  - intros conn'. unfold LinkedInHandler.uploadMedia. emits_any.
Qed.

Lemma emits_putChunks net chunks : forall i,
  emits (fun _ => True) (TikTokHandler.putChunks net i chunks).
Proof.
  induction chunks as [|c chunks IH]; intros i; simpl; emits_any. apply IH.
Qed.

Lemma emits_handleVideoUpload fileSize net :
  emits (fun _ => True) (TikTokHandler.handleVideoUpload fileSize net).
Proof.
  unfold TikTokHandler.handleVideoUpload, TikTokHandler.initVideoUpload.
  emits_any; apply emits_putChunks.
Qed.

Lemma tiktok_refresh_first config u conn o net url :
  truthy (field conn "accessToken") = true ->
  media o = Some url ->
  Security.isTokenExpired (field conn "accessToken") (TikTokHandler.now net) = true ->
  beginsWith (EvRefreshToken tiktok) (TikTokHandler.sendPost config u conn o net).
Proof.
  intros Ht Hm He. unfold TikTokHandler.sendPost. rewrite Ht, Hm, He. simpl.
  apply begins_bind.
  - apply begins_tryCatch.
    + unfold TikTokConnectionProvider.refreshToken. apply begins_emit_bind. emits_any.
    + intros e. emits_any.
  - intros conn'. unfold TikTokHandler.upload, TikTokHandler.cleanupTempFile.
    emits_any; apply emits_handleVideoUpload.
Qed.

Lemma needsRefresh_absent conn now :
  truthy (field conn "expiresAt") = false -> TwitterHandler.needsRefresh conn now = true.
Proof. intros E. unfold TwitterHandler.needsRefresh. by rewrite E. Qed.

Lemma needsRefresh_date conn now t :
  field conn "expiresAt" = VDate t ->
  TwitterHandler.needsRefresh conn now = true <-> t <= now + 300 * 1000.
Proof.
  intros E. unfold TwitterHandler.needsRefresh. rewrite E. simpl.
  unfold TwitterHandler.REFRESH_BUFFER_SECONDS. apply Z.leb_le.
Qed.
End Refresh.

(** ** The claims about the dispatcher and the handlers *)



(** The sample batch: Dev.to's handler throws, its neighbours publish. *)
Example postToAll_sample :
  fst (@PostDispatcher.postToAll sampleLibs sampleConfig "u1" sampleOptions
         (Some [discord; devto; threads]) (fun _ => sampleNets) [2; 0; 1]%nat
         sampleWorld)
  = Returned
      [ succeeded discord ∅;
        failed devto "Missing Dev.to API key";
        succeeded threads (obj [("id", VStr "thread-1")]) ].
Proof. vm_compute. reflexivity. Qed.











(** * Further properties of the code *)

(** ** Listing the connections of a user (adapters/memory.ts) *)

Lemma prefix_cons (a b : ascii) (s t : string) :
  String.prefix (String a s) (String b t) = Ascii.eqb a b && String.prefix s t.
Proof.
  cbn [String.prefix]. destruct (ascii_dec a b) as [->|Hne].
  - by rewrite Ascii.eqb_refl.
  - apply Ascii.eqb_neq in Hne. by rewrite Hne.
Qed.

Lemma prefix_nil (t : string) : String.prefix "" t = true.
Proof. by destruct t. Qed.

Lemma prefix_colon_hasColon (s n : string) :
  String.prefix (s +:+ ":") n = true -> hasColon n = true.
Proof.
  revert n. induction s as [|a s IH]; intros [|b n]; try discriminate.
  - change ("" +:+ ":") with ":". rewrite prefix_cons. rewrite prefix_nil. cbn [hasColon].
    rewrite Ascii.eqb_sym. by destruct (Ascii.eqb b ":").
  - change (String a s +:+ ":") with (String a (s +:+ ":")). rewrite prefix_cons.
    intros [Hab Hp]%andb_true_iff. cbn [hasColon]. rewrite (IH _ Hp). apply orb_true_r.
Qed.

Lemma prefix_getKey (u u' : string) (p : Platform) :
  String.prefix (u +:+ ":") (MemoryAdapter.getKey u' p) = true
  <-> u' = u \/ String.prefix (u +:+ ":") u' = true.
Proof.
  unfold MemoryAdapter.getKey.
  revert u'. induction u as [|a u IH]; intros [|b u'].
  - change ("" +:+ ":" +:+ platformName p) with (String ":" (platformName p)).
    change ("" +:+ ":") with ":". rewrite prefix_cons, prefix_nil.
    split; [by left|reflexivity].
  - change ("" +:+ ":") with ":".
    change (String b u' +:+ ":" +:+ platformName p)
      with (String b (u' +:+ ":" +:+ platformName p)).
    rewrite !prefix_cons, !prefix_nil, !andb_true_r.
    split; [by right|by intros [|]].
  - change (String a u +:+ ":") with (String a (u +:+ ":")).
    change ("" +:+ ":" +:+ platformName p) with (String ":" (platformName p)).
    rewrite prefix_cons. split; [|by intros [|]].
    intros [_ Hp]%andb_true_iff. apply prefix_colon_hasColon in Hp.
    by rewrite platformName_no_colon in Hp.
  - change (String a u +:+ ":") with (String a (u +:+ ":")).
    change (String b u' +:+ ":" +:+ platformName p)
      with (String b (u' +:+ ":" +:+ platformName p)).
    rewrite !prefix_cons, !andb_true_iff, IH, Ascii.eqb_eq.
    split.
    + intros [-> [->|Hp]]; [by left|by right].
    + intros [[= -> ->]|[-> Hp]]; (split; [done|]); [by left|by right].
Qed.

Lemma elem_of_getConnections (u : string) (s : MemoryAdapter.t) (c : Obj) :
  c ∈ MemoryAdapter.getConnections u s
  <-> exists key, String.prefix (u +:+ ":") key = true
                  /\ MemoryAdapter.connections s !! key = Some c.
Proof.
  unfold MemoryAdapter.getConnections. rewrite list_elem_of_fmap. split.
  - intros ([key c'] & -> & Hin). apply list_elem_of_filter in Hin as [Hp Hin].
    apply elem_of_map_to_list in Hin. by exists key.
  - intros (key & Hp & Hk). exists (key, c). split; [done|].
    apply list_elem_of_filter. split; [done|]. by apply elem_of_map_to_list.
Qed.

(** X1. [MemoryAdapter.getConnections] of user [u] lists every stored
    connection of [u], and also every connection of a user whose id
    starts with [u] followed by a colon, since it selects the keys by
    their prefix.  On a store whose keys were all written by the adapter
    it lists nothing else, and it never lists more connections than the
    store holds. *)
Theorem getConnections_by_prefix (u : string) (s : MemoryAdapter.t) :
  (forall p c, MemoryAdapter.getConnection u p s = Some c ->
     c ∈ MemoryAdapter.getConnections u s) /\
  (forall u' p c,
     startsWith u' (u +:+ ":") = true ->
     MemoryAdapter.getConnection u' p s = Some c ->
     c ∈ MemoryAdapter.getConnections u s) /\
  (keyed s ->
   forall c, c ∈ MemoryAdapter.getConnections u s ->
     exists u' p,
       MemoryAdapter.getConnection u' p s = Some c /\
       (u' = u \/ startsWith u' (u +:+ ":") = true)) /\
  (length (MemoryAdapter.getConnections u s) <= size (MemoryAdapter.connections s))%nat.
Proof.
  split; [|split; [|split]].
  - intros p c Hc. apply elem_of_getConnections.
    exists (MemoryAdapter.getKey u p). split; [|done].
    apply prefix_getKey. by left.
  - intros u' p c Hp Hc. apply elem_of_getConnections.
    exists (MemoryAdapter.getKey u' p). split; [|done].
    apply prefix_getKey. by right.
  - intros Hk c (key & Hp & Hc)%elem_of_getConnections.
    destruct (Hk key) as (u' & p & ->); [by eexists|].
    exists u', p. split; [done|]. by apply (prefix_getKey u u' p).
  - unfold MemoryAdapter.getConnections.
    rewrite length_fmap. etrans; [apply length_filter|].
    by rewrite length_map_to_list.
Qed.


(** ** Saving, reading and deleting a connection (adapters/memory.ts) *)

Lemma getKey_eq_iff (u u' : string) (p p' : Platform) :
  MemoryAdapter.getKey u p = MemoryAdapter.getKey u' p' <-> u = u' /\ p = p'.
Proof. split; [apply getKey_inj|by intros [-> ->]]. Qed.

(** X2. After [saveConnection(u, p, c)], [getConnection(u, p)] returns [c]
    and [getConnections(u)] lists it, while every other (user, platform)
    pair and every OAuth state read as before.  A [deleteConnection(u, p)]
    after it leaves nothing under (u, p) and every other pair as it was
    before the save.  Both keep the keys in the form that [getKey] writes,
    and after [clear()] no connection is listed. *)
Theorem saveConnection_round_trip (u : string) (p : Platform) (connection : Obj)
    (s : MemoryAdapter.t) :
  let s' := MemoryAdapter.saveConnection u p connection s in
  MemoryAdapter.getConnection u p s' = Some connection /\
  connection ∈ MemoryAdapter.getConnections u s' /\
  (forall u' p', (u', p') <> (u, p) ->
     MemoryAdapter.getConnection u' p' s' = MemoryAdapter.getConnection u' p' s) /\
  (forall state, MemoryAdapter.getOAuthState state s' = MemoryAdapter.getOAuthState state s) /\
  MemoryAdapter.getConnection u p (MemoryAdapter.deleteConnection u p s') = None /\
  (forall u' p', (u', p') <> (u, p) ->
     MemoryAdapter.getConnection u' p' (MemoryAdapter.deleteConnection u p s')
     = MemoryAdapter.getConnection u' p' s) /\
  (keyed s -> keyed s' /\ keyed (MemoryAdapter.deleteConnection u p s')) /\
  keyed (MemoryAdapter.clear s') /\
  MemoryAdapter.getConnections u (MemoryAdapter.clear s') = [].
Proof.
  cbv zeta.
  assert (Hsaved : MemoryAdapter.getConnection u p
                     (MemoryAdapter.saveConnection u p connection s) = Some connection).
  { unfold MemoryAdapter.getConnection, MemoryAdapter.saveConnection. cbn.
    apply lookup_insert_eq. }
  assert (Hne : forall u' p', (u', p') <> (u, p) ->
            MemoryAdapter.getKey u p <> MemoryAdapter.getKey u' p').
  { intros u' p' Hdiff [-> ->]%getKey_inj. done. }
  split; [exact Hsaved|]. split.
  { apply elem_of_getConnections. exists (MemoryAdapter.getKey u p). split; [|exact Hsaved].
    apply prefix_getKey. by left. }
  split.
  { intros u' p' Hdiff. unfold MemoryAdapter.getConnection, MemoryAdapter.saveConnection.
    cbn. by apply lookup_insert_ne, Hne. }
  split; [done|]. split.
  { unfold MemoryAdapter.getConnection, MemoryAdapter.deleteConnection. cbn.
    apply lookup_delete_eq. }
  split.
  { intros u' p' Hdiff.
    unfold MemoryAdapter.getConnection, MemoryAdapter.deleteConnection,
      MemoryAdapter.saveConnection. cbn.
    rewrite lookup_delete_ne by by apply Hne. by apply lookup_insert_ne, Hne. }
  split.
  { intros Hk. split.
    - intros key. unfold MemoryAdapter.saveConnection. cbn.
      destruct (decide (MemoryAdapter.getKey u p = key)) as [<-|Hkey]; [by eexists _, _|].
      rewrite lookup_insert_ne by done. apply Hk.
    - intros key. unfold MemoryAdapter.deleteConnection, MemoryAdapter.saveConnection. cbn.
      destruct (decide (MemoryAdapter.getKey u p = key)) as [<-|Hkey].
      + rewrite lookup_delete_eq. by intros [? ?].
      + rewrite lookup_delete_ne, lookup_insert_ne by done. apply Hk. }
  split.
  { intros key. unfold MemoryAdapter.clear. cbn. rewrite lookup_empty. by intros [? ?]. }
  unfold MemoryAdapter.getConnections, MemoryAdapter.clear. cbn.
  by rewrite map_to_list_empty.
Qed.


(** ** Dates and timestamps of stored documents (adapters/firestore.ts) *)

Section Documents.
Import FirestoreAdapter.

Lemma Data_induction (P : Data -> Prop) :
  P DUndefined -> P DNull -> (forall b, P (DBool b)) -> (forall n, P (DNum n)) ->
  (forall s, P (DStr s)) -> (forall ms, P (DDate ms)) -> (forall ms, P (DTimestamp ms)) ->
  (forall items, Forall P items -> P (DArray items)) ->
  (forall fields, Forall (fun kv => P (snd kv)) fields -> P (DObject fields)) ->
  forall d, P d.
Proof.
  intros Hu Hn Hb Hz Hs Hd Ht Ha Ho.
  fix IH 1.
  intros [| |b|n|s|ms|ms|items|fields];
    [exact Hu|exact Hn|apply Hb|apply Hz|apply Hs|apply Hd|apply Ht| |].
  - apply Ha. induction items as [|x items IHi]; constructor; [apply IH|exact IHi].
  - apply Ho. induction fields as [|[k v] fields IHf]; constructor; [apply IH|exact IHf].
Qed.


End Documents.


(** ** The PKCE code verifier (utils/security.ts) *)

Lemma urlDigit_safe (n : N) :
  urlSafe (urlDigit n) = true /\ Ascii.eqb (urlDigit n) "=" = false.
Proof.
  unfold urlDigit, Security.base64Digit.
  generalize (N.to_nat n) as k. intros k.
  do 64 (destruct k as [|k]; [by vm_compute|]).
  by vm_compute.
Qed.

Lemma stripPadding_cons (x : ascii) (r : string) :
  Ascii.eqb x "=" = false ->
  Security.stripPadding (String x r) = String x (Security.stripPadding r).
Proof.
  intros Hx. cbn [Security.stripPadding]. rewrite Hx.
  by destruct (Security.stripPadding r).
Qed.

Lemma list_ind3 {A} (P : list A -> Prop) :
  P [] -> (forall a, P [a]) -> (forall a b, P [a; b]) ->
  (forall a b c rest, P rest -> P (a :: b :: c :: rest)) ->
  forall l, P l.
Proof.
  intros H0 H1 H2 H3. fix IH 1.
  intros [|a [|b [|c rest]]]; [exact H0|apply H1|apply H2|apply H3, IH].
Qed.

Lemma base64UrlEncode_length (buffer : list Byte.byte) :
  String.length (Security.base64UrlEncode buffer) = ((4 * length buffer + 2) / 3)%nat /\
  Forall (fun c => urlSafe c = true)
    (list_ascii_of_string (Security.base64UrlEncode buffer)).
Proof.
  unfold Security.base64UrlEncode.
  induction buffer as [|a|a b|a b c rest [IHl IHf]] using list_ind3.
  - split; [reflexivity|constructor].
  - cbn [Security.base64 Security.replaceAll].
    fold (urlDigit (Byte.to_N a / 4)). fold (urlDigit (Byte.to_N a mod 4 * 16)).
    destruct (urlDigit_safe (Byte.to_N a / 4)) as [S1 E1].
    destruct (urlDigit_safe (Byte.to_N a mod 4 * 16)) as [S2 E2].
    rewrite !stripPadding_cons by done.
    split; [reflexivity|]. cbn. by repeat constructor.
  - cbn [Security.base64 Security.replaceAll].
    set (n := (Byte.to_N a * 256 + Byte.to_N b)%N).
    fold (urlDigit (n / 1024)). fold (urlDigit (n / 16 mod 64)).
    fold (urlDigit (n mod 16 * 4)).
    destruct (urlDigit_safe (n / 1024)) as [S1 E1].
    destruct (urlDigit_safe (n / 16 mod 64)) as [S2 E2].
    destruct (urlDigit_safe (n mod 16 * 4)) as [S3 E3].
    rewrite !stripPadding_cons by done.
    split; [reflexivity|]. cbn. by repeat constructor.
  - cbn [Security.base64 Security.replaceAll].
    set (n := (Byte.to_N a * 65536 + Byte.to_N b * 256 + Byte.to_N c)%N).
    fold (urlDigit (n / 262144)). fold (urlDigit (n / 4096 mod 64)).
    fold (urlDigit (n / 64 mod 64)). fold (urlDigit (n mod 64)).
    destruct (urlDigit_safe (n / 262144)) as [S1 E1].
    destruct (urlDigit_safe (n / 4096 mod 64)) as [S2 E2].
    destruct (urlDigit_safe (n / 64 mod 64)) as [S3 E3].
    destruct (urlDigit_safe (n mod 64)) as [S4 E4].
    rewrite !stripPadding_cons by done.
    split.
    + cbn [String.length length]. rewrite IHl.
      replace (4 * S (S (S (length rest))) + 2)%nat
        with ((4 * length rest + 2) + 4 * 3)%nat by lia.
      rewrite Nat.div_add by lia. lia.
    + cbn [list_ascii_of_string]. by repeat constructor.
Qed.

Lemma substring_prefix (m : nat) (s : string) :
  (m <= String.length s)%nat ->
  String.length (String.substring 0 m s) = m /\
  list_ascii_of_string (String.substring 0 m s) = take m (list_ascii_of_string s).
Proof.
  revert s. induction m as [|m IH]; intros [|c s] Hm; simpl in *; try done; try lia.
  destruct (IH s) as [-> ->]; [lia|done].
Qed.

(** X4. For a length between 43 and 128, [generateCodeVerifier] applied to
    the URL-safe encoding of [ceil(length * 3 / 4)] random bytes returns a
    verifier of exactly [length] characters, each a letter, a digit, [-]
    or [_] (no [+], [/] or [=] is left).  For any other length it throws
    the PKCE length error. *)
Theorem generateCodeVerifier_url_safe (length : Z) (buffer : list Byte.byte) :
  (43 <= length <= 128 ->
   Z.of_nat (List.length buffer) = Security.codeVerifierBytes length ->
   exists verifier,
     Security.generateCodeVerifier length (Security.base64UrlEncode buffer)
       = Returned verifier /\
     Z.of_nat (String.length verifier) = length /\
     Forall (fun c => urlSafe c = true) (list_ascii_of_string verifier)) /\
  (length < 43 \/ 128 < length ->
   Security.generateCodeVerifier length (Security.base64UrlEncode buffer)
     = Thrown (Error "PKCE code_verifier must be between 43 and 128 characters")).
Proof.
  unfold Security.generateCodeVerifier. split.
  - intros Hl Hb.
    destruct (Z.ltb_spec length 43); [lia|]. destruct (Z.ltb_spec 128 length); [lia|].
    simpl. eexists. split; [reflexivity|].
    destruct (base64UrlEncode_length buffer) as [Hlen Hsafe].
    assert (Hle : (Z.to_nat length <= String.length (Security.base64UrlEncode buffer))%nat).
    { rewrite Hlen. unfold Security.codeVerifierBytes in Hb.
      pose proof (Z.div_mod (- (length * 3)) 4 ltac:(lia)).
      pose proof (Z.mod_pos_bound (- (length * 3)) 4 ltac:(lia)).
      apply Nat2Z.inj_le. rewrite Nat2Z.inj_div, Nat2Z.inj_add, Nat2Z.inj_mul.
      rewrite Z2Nat.id by lia. apply Z.div_le_lower_bound; lia. }
    destruct (substring_prefix _ _ Hle) as [Hs Hc].
    split; [rewrite Hs; lia|]. rewrite Hc. by apply Forall_take.
  - intros Hout.
    destruct (Z.ltb_spec length 43); [done|]. destruct (Z.ltb_spec 128 length); [done|lia].
Qed.


(** ** Retries of a fetch (utils/media.ts) *)

Lemma fetchLoop_schedule request attempts retries backoffMs :
  forall remaining i lastErr w,
    0 <= i -> Z.of_nat remaining = retries - i -> (0 < remaining)%nat ->
    exists k,
      (k < remaining)%nat /\
      Media.fetchLoop request attempts retries backoffMs remaining i lastErr w
        = (Media.a_outcome (attempts (Z.to_nat i + k)%nat),
           mkWorld (db w) (log w ++ schedule request backoffMs k i)) /\
      (forall j, (j < k)%nat -> transientFailure (attempts (Z.to_nat i + j)%nat)) /\
      (transientFailure (attempts (Z.to_nat i + k)%nat) ->
       Z.of_nat (Z.to_nat i + k) = retries - 1).
Proof.
  induction remaining as [|n IH]; intros i lastErr w Hi Hrem Hpos; [lia|].
  cbn [Media.fetchLoop]. unfold tryCatch, call.
  destruct (Media.a_outcome (attempts (Z.to_nat i))) as [r|err] eqn:Eo; cbn.
  - exists 0%nat. rewrite Nat.add_0_r, Eo. split; [lia|]. split; [done|].
    split; [intros; lia|]. intros [[e He] _]. congruence.
  - destruct (negb (Media.a_socketError (attempts (Z.to_nat i))
                    || Media.a_typeError (attempts (Z.to_nat i)))
              || (i =? retries - 1)) eqn:Ef.
    + exists 0%nat. rewrite Nat.add_0_r, Eo. split; [lia|]. split; [done|].
      split; [intros; lia|]. intros [_ Ht].
      rewrite Ht in Ef. simpl in Ef. apply Z.eqb_eq in Ef. lia.
    + apply orb_false_iff in Ef as [Ht Hne]. apply negb_false_iff in Ht.
      apply Z.eqb_neq in Hne.
      unfold mbind, M_bind, bind, emit, call. cbn.
      destruct (IH (i + 1) err
                  (mkWorld (db w) ((log w ++ [request]) ++ [EvSleep (backoffMs * (i + 1))])))
        as (k & Hk & Hrun & Hbefore & Hlast); [lia|lia|lia|].
      exists (S k). split; [lia|].
      replace (Z.to_nat i + S k)%nat with (Z.to_nat (i + 1) + k)%nat by lia.
      split; [|split; [|done]].
      * rewrite Hrun. cbn. by rewrite <- !app_assoc.
      * intros [|j] Hj.
        -- rewrite Nat.add_0_r. split; [by eexists|done].
        -- replace (Z.to_nat i + S j)%nat with (Z.to_nat (i + 1) + j)%nat by lia.
           apply Hbefore. lia.
Qed.

(** X5. With [retries > 0], [fetchWithRetry] sends the request [k + 1]
    times for some [k < retries] and settles as its last attempt did;
    every attempt before the last failed with a transient error (a socket
    error or a [TypeError]) and was followed by a sleep of [backoffMs * i]
    after the [i]-th attempt; when the last attempt is a transient
    failure too, all [retries] attempts were made.  With [retries <= 0] no request is
    sent and the call throws [undefined]. *)
Theorem fetchWithRetry_schedule (request : Event) (attempts : nat -> Media.Attempt)
    (retries backoffMs : Z) (w : World) :
  (0 < retries ->
   exists k,
     (k < Z.to_nat retries)%nat /\
     Media.fetchWithRetry request attempts retries backoffMs w
       = (Media.a_outcome (attempts k),
          mkWorld (db w) (log w ++ schedule request backoffMs k 0)) /\
     (forall j, (j < k)%nat -> transientFailure (attempts j)) /\
     (transientFailure (attempts k) -> S k = Z.to_nat retries)) /\
  (retries <= 0 ->
   Media.fetchWithRetry request attempts retries backoffMs w
     = (Thrown Media.thrownUndefined, w)).
Proof.
  unfold Media.fetchWithRetry. split.
  - intros Hr.
    destruct (fetchLoop_schedule request attempts retries backoffMs
                (Z.to_nat retries) 0 Media.thrownUndefined w)
      as (k & Hk & Hrun & Hbefore & Hlast); [lia|lia|lia|].
    exists k. split; [done|]. split; [done|]. split; [done|].
    intros Ht. specialize (Hlast Ht). simpl in Hlast. lia.
  - intros Hr. replace (Z.to_nat retries) with 0%nat by lia. reflexivity.
Qed.


(** ** What a handler may change in the store (handlers/*.ts, dispatcher.ts) *)

Section Keeps.
Context (R : MemoryAdapter.t -> MemoryAdapter.t -> Prop).
Context (R_refl : forall s, R s s).
Context (R_trans : forall s1 s2 s3, R s1 s2 -> R s2 s3 -> R s1 s3).

Lemma keeps_ret {A} (a : A) : keeps R (mret a : M A).
Proof. intros w. apply R_refl. Qed.

Lemma keeps_throw {A} (e : JsError) : keeps R (throw e : M A).
Proof. intros w. apply R_refl. Qed.

Lemma keeps_settle {A} (o : Outcome A) : keeps R (settle o).
Proof. intros w. apply R_refl. Qed.

Lemma keeps_call {A} ev (o : Outcome A) : keeps R (call ev o).
Proof. intros w. apply R_refl. Qed.

Lemma keeps_emit ev : keeps R (emit ev).
Proof. apply keeps_call. Qed.

Lemma keeps_dbRead {A} (f : MemoryAdapter.t -> A) : keeps R (dbRead f).
Proof. intros w. apply R_refl. Qed.

Lemma keeps_dbWrite f : (forall s, R s (f s)) -> keeps R (dbWrite f).
Proof. intros Hf w. apply Hf. Qed.

Lemma keeps_bind {A B} (m : M A) (k : A -> M B) :
  keeps R m -> (forall a, keeps R (k a)) -> keeps R (m ≫= k).
Proof.
  intros Hm Hk w. unfold mbind, M_bind, bind. specialize (Hm w).
  destruct (m w) as [[a|e] w1]; simpl in *; [|done].
  eapply R_trans; [exact Hm|apply Hk].
Qed.

Lemma keeps_tryCatch {A} (m : M A) (h : JsError -> M A) :
  keeps R m -> (forall e, keeps R (h e)) -> keeps R (tryCatch m h).
Proof.
  intros Hm Hh w. unfold tryCatch. specialize (Hm w).
  destruct (m w) as [[a|e] w1]; simpl in *; [done|].
  eapply R_trans; [exact Hm|apply Hh].
Qed.

Lemma keeps_tryFinally {A} (m : M A) (f : M unit) :
  keeps R m -> keeps R f -> keeps R (tryFinally m f).
Proof.
  intros Hm Hf w. unfold tryFinally. specialize (Hm w).
  destruct (m w) as [r w1]; simpl in *.
  eapply R_trans; [exact Hm|apply Hf].
Qed.

Lemma keeps_attempt {A} (m : M A) : keeps R m -> keeps R (attempt m).
Proof.
  intros Hm w. unfold attempt. specialize (Hm w). by destruct (m w).
Qed.

End Keeps.

Lemma ownRecords_refl p s : ownRecords p s s.
Proof. by repeat split. Qed.

Lemma ownRecords_trans p s1 s2 s3 :
  ownRecords p s1 s2 -> ownRecords p s2 s3 -> ownRecords p s1 s3.
Proof.
  intros (Ho1 & Hd1 & Hf1) (Ho2 & Hd2 & Hf2). split; [congruence|]. split.
  - intros key. by rewrite Hd2, Hd1.
  - intros u' p' Hne. by rewrite Hf2, Hf1.
Qed.

Lemma ownRecords_updateConnection p u upd s :
  ownRecords p s (MemoryAdapter.updateConnection u p upd s).
Proof.
  unfold ownRecords, MemoryAdapter.updateConnection, MemoryAdapter.getConnection.
  destruct (MemoryAdapter.connections s !! MemoryAdapter.getKey u p) as [existing|] eqn:E;
    [|by repeat split].
  simpl. split; [done|]. split.
  - intros key. destruct (decide (key = MemoryAdapter.getKey u p)) as [->|Hne].
    + rewrite lookup_insert_eq, E. by split.
    + by rewrite lookup_insert_ne.
  - intros u' p' Hne. apply lookup_insert_ne.
    intros K. apply getKey_inj in K as [_ ->]. done.
Qed.

Lemma keeps_updateConnection p u upd :
  keeps (ownRecords p) (updateConnection u p upd).
Proof. apply keeps_dbWrite. intros s. apply ownRecords_updateConnection. Qed.

Ltac keeps_step :=
  first
    [ apply keeps_ret; apply ownRecords_refl
    | apply keeps_throw; apply ownRecords_refl
    | apply keeps_settle; apply ownRecords_refl
    | apply keeps_updateConnection
    | apply keeps_call; apply ownRecords_refl
    | apply keeps_emit; apply ownRecords_refl
    | apply keeps_dbRead; apply ownRecords_refl
    | apply keeps_bind; [apply ownRecords_trans| |intros ?]
    | apply keeps_tryCatch; [apply ownRecords_trans| |intros ?]
    | apply keeps_tryFinally; [apply ownRecords_trans| |]
    | apply keeps_attempt
    | match goal with
      | |- keeps _ (if ?b then _ else _) => destruct b
      | |- keeps _ (match ?x with _ => _ end) => destruct x
      | |- keeps _ (let '(_, _) := ?x in _) => destruct x
      end ].

Ltac keeps_own := repeat keeps_step.

Section HandlerFrame.
Context `{Libs}.

Lemma keeps_twitter_refresh config conn net :
  keeps (ownRecords twitter) (TwitterConnectionProvider.refreshToken config conn net).
Proof. unfold TwitterConnectionProvider.refreshToken. keeps_own. Qed.

Lemma keeps_twitter config u conn o net :
  keeps (ownRecords twitter) (TwitterHandler.sendPost config u conn o net).
Proof.
  unfold TwitterHandler.sendPost, TwitterHandler.publish, TwitterHandler.uploadMedia,
    Media.downloadMedia.
  keeps_own; apply keeps_twitter_refresh.
Qed.

Lemma keeps_linkedin config u conn o net :
  keeps (ownRecords linkedin) (LinkedInHandler.sendPost config u conn o net).
Proof.
  unfold LinkedInHandler.sendPost, LinkedInHandler.publish, LinkedInHandler.uploadMedia,
    LinkedInConnectionProvider.refreshToken.
  keeps_own.
Qed.

Lemma keeps_putChunks net chunks : forall i,
  keeps (ownRecords tiktok) (TikTokHandler.putChunks net i chunks).
Proof. induction chunks as [|c chunks IH]; intros i; simpl; keeps_own. apply IH. Qed.

Lemma keeps_tiktok config u conn o net :
  keeps (ownRecords tiktok) (TikTokHandler.sendPost config u conn o net).
Proof.
  unfold TikTokHandler.sendPost, TikTokHandler.upload, TikTokHandler.finish,
    TikTokHandler.handleVideoUpload, TikTokHandler.handlePhotoUpload,
    TikTokHandler.initVideoUpload, TikTokHandler.initPhotoUpload,
    TikTokHandler.cleanupTempFile, TikTokConnectionProvider.refreshToken.
  keeps_own; apply keeps_putChunks.
Qed.

Lemma keeps_discord u conn o net :
  keeps (ownRecords discord) (DiscordHandler.sendPost u conn o net).
Proof. unfold DiscordHandler.sendPost. keeps_own. Qed.

Lemma keeps_threads u conn o net :
  keeps (ownRecords threads) (ThreadsHandler.sendPost u conn o net).
Proof. unfold ThreadsHandler.sendPost. keeps_own. Qed.

Lemma keeps_devto u conn o net :
  keeps (ownRecords devto) (DevtoHandler.sendPost u conn o net).
Proof. unfold DevtoHandler.sendPost. keeps_own. Qed.

Lemma keeps_github u conn o :
  keeps (ownRecords github) (GitHubHandler.sendPost u conn o).
Proof. unfold GitHubHandler.sendPost. keeps_own. Qed.

Lemma keeps_pollJob n final : keeps (ownRecords bluesky) (BlueskyHandler.pollJob n final).
Proof. induction n as [|n IH]; simpl; keeps_own. apply IH. Qed.

Lemma keeps_bluesky u conn o net :
  keeps (ownRecords bluesky) (BlueskyHandler.sendPost u conn o net).
Proof.
  unfold BlueskyHandler.sendPost, BlueskyHandler.resumeSession, BlueskyHandler.uploadMedia,
    BlueskyHandler.publish, BlueskyHandler.uploadVideo, Media.downloadMedia,
    BlueskyConnectionProvider.refreshToken.
  keeps_own; apply keeps_pollJob.
Qed.

Lemma keeps_handlers config p h u conn o nets :
  PostDispatcher.handlers config p = Some h ->
  keeps (ownRecords p) (h u conn o nets).
Proof.
  destruct config as [tw li bs tt th dv dc gh].
  destruct p; simpl; unfold PostDispatcher.present.
  - destruct tw; [|done]. intros [= <-]. apply keeps_twitter.
  - destruct li; [|done]. intros [= <-]. apply keeps_linkedin.
  - destruct bs; [|done]. intros [= <-]. apply keeps_bluesky.
  - destruct tt; [|done]. intros [= <-]. apply keeps_tiktok.
  - destruct dv; [|done]. intros [= <-]. apply keeps_devto.
  - destruct th; [|done]. intros [= <-]. apply keeps_threads.
  - destruct dc; [|done]. intros [= <-]. apply keeps_discord.
  - destruct gh; [|done]. intros [= <-]. apply keeps_github.
Qed.

(** X6. [postToPlatform] for platform [p], whatever the handler and the
    network do, creates no connection and deletes none, leaves every
    OAuth state as it was, and leaves the connection of every other
    platform (of any user) as it was. *)
Theorem postToPlatform_frame (config : PostDispatcher.PlatformConfig) (p : Platform)
    (userId : string) (options : PostOptions) (nets : PostDispatcher.Nets) (w : World) :
  ownRecords p (db w)
    (db (snd (PostDispatcher.postToPlatform config p userId options nets w))).
Proof.
  revert w.
  change (keeps (ownRecords p)
            (PostDispatcher.postToPlatform config p userId options nets)).
  unfold PostDispatcher.postToPlatform, PostDispatcher.start.
  destruct (PostDispatcher.handlers config p) as [handler|] eqn:Hh; [|keeps_own].
  intros w. unfold_monad. simpl.
  destruct (MemoryAdapter.getConnection userId p (db w)) as [connection|]; simpl;
    [|apply ownRecords_refl].
  pose proof (keeps_handlers config p handler userId connection options nets Hh w) as Hk.
  by destruct (handler userId connection options nets w) as [[r|e] w'].
Qed.

End HandlerFrame.


(** ** What [postToAll] may change in the store (dispatcher.ts) *)

Lemma onlyPlatforms_refl targets s : onlyPlatforms targets s s.
Proof. by repeat split. Qed.

Lemma onlyPlatforms_trans targets s1 s2 s3 :
  onlyPlatforms targets s1 s2 -> onlyPlatforms targets s2 s3 -> onlyPlatforms targets s1 s3.
Proof.
  intros (Ho1 & Hd1 & Hf1) (Ho2 & Hd2 & Hf2). split; [congruence|]. split.
  - intros key. by rewrite Hd2, Hd1.
  - intros u' p' Hne. by rewrite Hf2, Hf1.
Qed.

Lemma ownRecords_onlyPlatforms p targets s s' :
  p ∈ targets -> ownRecords p s s' -> onlyPlatforms targets s s'.
Proof.
  intros Hin (Ho & Hd & Hf). split; [done|]. split; [done|].
  intros u' p' Hne. apply Hf. intros ->. done.
Qed.

Section SettleFrame.
Variable targets : list Platform.
Variable jobs : list (M PostResult).
Hypothesis jobs_keep : forall i job, jobs !! i = Some job -> keeps (onlyPlatforms targets) job.

Lemma keeps_complete slots index :
  keeps (onlyPlatforms targets) (PostDispatcher.complete jobs slots index).
Proof.
  unfold PostDispatcher.complete.
  destruct (jobs !! index) as [job|] eqn:Hjob;
    [|apply keeps_ret, onlyPlatforms_refl].
  destruct (slots !! index) as [[o|]|];
    try (apply keeps_ret, onlyPlatforms_refl).
  apply keeps_bind; [apply onlyPlatforms_trans| |intros ?; apply keeps_ret, onlyPlatforms_refl].
  apply keeps_attempt. by eapply jobs_keep.
Qed.

Lemma keeps_completeAll order : forall slots,
  keeps (onlyPlatforms targets) (PostDispatcher.completeAll jobs slots order).
Proof.
  induction order as [|index later IH]; intros slots; simpl.
  - apply keeps_ret, onlyPlatforms_refl.
  - apply keeps_bind; [apply onlyPlatforms_trans|apply keeps_complete|apply IH].
Qed.

Lemma keeps_allSettled order :
  keeps (onlyPlatforms targets) (PostDispatcher.allSettled jobs order).
Proof.
  unfold PostDispatcher.allSettled.
  apply keeps_bind; [apply onlyPlatforms_trans|apply keeps_completeAll|].
  intros ?. apply keeps_ret, onlyPlatforms_refl.
Qed.

End SettleFrame.

Section DispatchFrame.
Context `{Libs}.

Lemma start_keeps config p u o n w :
  exists job,
    PostDispatcher.start config p u o n w = (Returned job, w) /\
    keeps (ownRecords p) job.
Proof.
  unfold PostDispatcher.start.
  destruct (PostDispatcher.handlers config p) as [handler|] eqn:Hh.
  - unfold mbind, M_bind, bind, dbRead, mret, M_ret, ret.
    destruct (MemoryAdapter.getConnection u p (db w)) as [connection|] eqn:Hc.
    + eexists. split; [reflexivity|].
      apply keeps_tryCatch; [apply ownRecords_trans|by apply (keeps_handlers config p)|].
      intros e. apply keeps_ret, ownRecords_refl.
    + eexists. split; [reflexivity|]. apply keeps_throw, ownRecords_refl.
  - eexists. split; [reflexivity|]. apply keeps_throw, ownRecords_refl.
Qed.

Lemma startAll_keeps config u o nets targets ps : forall index w,
  (forall p, p ∈ ps -> p ∈ targets) ->
  exists jobs,
    PostDispatcher.startAll config u o nets index ps w = (Returned jobs, w) /\
    forall i job, jobs !! i = Some job -> keeps (onlyPlatforms targets) job.
Proof.
  induction ps as [|p ps IH]; intros index w Hsub; simpl.
  - exists []. split; [reflexivity|]. intros i job Hi. done.
  - destruct (start_keeps config p u o (nets index) w) as (job & Hstart & Hjob).
    destruct (IH (S index) w) as (jobs & Hrun & Hjobs).
    { intros q Hq. apply Hsub. by right. }
    exists (job :: jobs). unfold mbind, M_bind, bind. rewrite Hstart, Hrun.
    split; [reflexivity|].
    intros [|i] job' Hi; simpl in Hi.
    + injection Hi as <-. intros w1.
      apply (ownRecords_onlyPlatforms p); [apply Hsub; by left|apply Hjob].
    + by eapply Hjobs.
Qed.

(** X7. [postToAll], in whatever order its calls complete, creates no
    connection and deletes none, leaves every OAuth state as it was, and
    leaves the connections of every platform outside the target list as
    they were. *)
Theorem postToAll_frame (config : PostDispatcher.PlatformConfig) (userId : string)
    (options : PostOptions) (platforms : option (list Platform))
    (nets : nat -> PostDispatcher.Nets) (order : list nat) (w : World) :
  onlyPlatforms (default (PostDispatcher.keys config) platforms) (db w)
    (db (snd (PostDispatcher.postToAll config userId options platforms nets order w))).
Proof.
  unfold PostDispatcher.postToAll.
  set (targets := default (PostDispatcher.keys config) platforms).
  destruct (startAll_keeps config userId options nets targets targets 0%nat w)
    as (jobs & Hstart & Hjobs); [done|].
  unfold mbind, M_bind, bind. rewrite Hstart.
  pose proof (keeps_allSettled targets jobs Hjobs order w) as Hk.
  destruct (PostDispatcher.allSettled jobs order w) as [[results|e] w']; exact Hk.
Qed.

End DispatchFrame.


(** ** The chunks of a TikTok video upload (handlers/tiktok.ts) *)

Lemma streamChunks_lookup (c fileSize : Z) : 0 < c ->
  forall (n : nat) (b : Z) (i : nat),
    fileSize - b <= Z.of_nat n * c ->
    TikTokHandler.streamChunks n b fileSize c !! i
    = if b + Z.of_nat i * c <? fileSize
      then Some (b + Z.of_nat i * c, Z.min (b + (Z.of_nat i + 1) * c) fileSize - 1)
      else None.
Proof.
  intros Hc. induction n as [|n IH]; intros b i Hfuel; cbn [TikTokHandler.streamChunks].
  - destruct (Z.ltb_spec (b + Z.of_nat i * c) fileSize); [nia|done].
  - destruct (Z.leb_spec fileSize b) as [Hdone|Hmore].
    + destruct (Z.ltb_spec (b + Z.of_nat i * c) fileSize); [nia|done].
    + destruct i as [|i]; cbn [lookup list_lookup].
      * destruct (Z.ltb_spec (b + Z.of_nat 0 * c) fileSize); [|lia].
        f_equal. f_equal; lia.
      * rewrite IH by lia.
        destruct (Z.min_spec c (fileSize - b)) as [[Hlt ->]|[Hge ->]].
        -- replace (b + c + Z.of_nat i * c) with (b + Z.of_nat (S i) * c) by lia.
           destruct (Z.ltb_spec (b + Z.of_nat (S i) * c) fileSize); [|done].
           f_equal. f_equal. lia.
        -- destruct (Z.ltb_spec (b + (fileSize - b) + Z.of_nat i * c) fileSize); [nia|].
           destruct (Z.ltb_spec (b + Z.of_nat (S i) * c) fileSize); [nia|done].
Qed.

Lemma totalChunks_ceilDiv (S : Z) : 0 < S ->
  TikTokHandler.totalChunks S = TikTokHandler.ceilDiv S (TikTokHandler.effectiveChunkSize S)
  /\ 0 < TikTokHandler.effectiveChunkSize S.
Proof.
  intros HS.
  unfold TikTokHandler.effectiveChunkSize, TikTokHandler.totalChunks,
    TikTokHandler.chunkSizing.
  assert (Hmin : TikTokHandler.MIN_CHUNK_SIZE_BYTES = 5242880) by reflexivity.
  assert (Hmax : TikTokHandler.MAX_CHUNK_SIZE_BYTES = 67108864) by reflexivity.
  assert (Hdef : TikTokHandler.DEFAULT_CHUNK_SIZE_BYTES = 20971520) by reflexivity.
  rewrite Hmin, Hmax, Hdef.
  assert (Hself : TikTokHandler.ceilDiv S S = 1).
  { pose proof (ceilDiv_spec S S HS). nia. }
  destruct (Z.ltb_spec S 5242880); simpl; [by rewrite Hself|].
  destruct (Z.leb_spec S 67108864); simpl; [by rewrite Hself|].
  destruct (Z.ltb_spec 1000 (TikTokHandler.ceilDiv S 20971520)); simpl; [|split; [done|lia]].
  split; [done|lia].
Qed.

(** X8. For a file of positive size, a read stream whose chunks have the
    effective chunk size yields exactly the [totalChunks] that
    [handleVideoUpload] announces to TikTok; chunk [i] starts at byte
    [i * chunkSize], ends at [min((i + 1) * chunkSize, fileSize) - 1] and
    is not empty.  When the init request returns a publish id and an upload
    URL and every upload and the publish request succeed,
    [handleVideoUpload] sends one init request, [totalChunks] chunk
    uploads and one publish request, in this order, and returns the
    publish id. *)
Theorem videoChunks_cover (fileSize : Z) :
  0 < fileSize ->
  let c := TikTokHandler.effectiveChunkSize fileSize in
  let chunks :=
    TikTokHandler.streamChunks (Z.to_nat (TikTokHandler.ceilDiv fileSize c)) 0 fileSize c in
  Z.of_nat (length chunks) = TikTokHandler.totalChunks fileSize /\
  (forall i first last,
     chunks !! i = Some (first, last) ->
     first = Z.of_nat i * c /\
     last = Z.min ((Z.of_nat i + 1) * c) fileSize - 1 /\
     first <= last) /\
  forall net w init,
    TikTokHandler.videoInit net = Returned (Some init) ->
    nonEmpty (TikTokHandler.publish_id init) = true ->
    nonEmpty (TikTokHandler.upload_url init) = true ->
    (forall i, TikTokHandler.putChunk net i = Returned tt) ->
    TikTokHandler.videoPublish net = Returned tt ->
    TikTokHandler.handleVideoUpload fileSize net w
    = (Returned (TikTokHandler.publish_id init),
       mkWorld (db w)
         (log w ++ [EvMedia tiktok]
                ++ replicate (Z.to_nat (TikTokHandler.totalChunks fileSize))
                     (EvMedia tiktok)
                ++ [EvPublish tiktok])).
Proof.
  intros HS c chunks.
  destruct (totalChunks_ceilDiv fileSize HS) as [Htotal Hc]. fold c in Htotal, Hc.
  pose proof (ceilDiv_spec fileSize c Hc) as Hcover.
  pose proof (ceilDiv_pos fileSize c Hc HS) as Hone.
  assert (Hlookup : forall i : nat,
            chunks !! i
            = if Z.of_nat i * c <? fileSize
              then Some (Z.of_nat i * c, Z.min ((Z.of_nat i + 1) * c) fileSize - 1)
              else None).
  { intros i. unfold chunks. rewrite (streamChunks_lookup c fileSize Hc) by lia.
    reflexivity. }
  assert (Hlen : Z.of_nat (length chunks) = TikTokHandler.totalChunks fileSize).
  { rewrite Htotal.
    assert (Hin : is_Some (chunks !! Z.to_nat (TikTokHandler.ceilDiv fileSize c - 1))).
    { rewrite Hlookup.
      destruct (Z.ltb_spec (Z.of_nat (Z.to_nat (TikTokHandler.ceilDiv fileSize c - 1)) * c)
                  fileSize); [by eexists|nia]. }
    assert (Hout : chunks !! Z.to_nat (TikTokHandler.ceilDiv fileSize c) = None).
    { rewrite Hlookup.
      destruct (Z.ltb_spec (Z.of_nat (Z.to_nat (TikTokHandler.ceilDiv fileSize c)) * c)
                  fileSize); [nia|done]. }
    apply lookup_lt_is_Some in Hin. apply lookup_ge_None in Hout. lia. }
  split; [exact Hlen|]. split.
  - intros i first last Hi. rewrite Hlookup in Hi.
    destruct (Z.ltb_spec (Z.of_nat i * c) fileSize); [|done].
    injection Hi as <- <-. split; [done|]. split; [done|]. lia.
  - intros net w init Hinit Hid Hurl Hput Hpublish.
    rewrite <- Hlen, Nat2Z.id.
    assert (Hchunks : forall (l : list (Z * Z)) i w0,
              TikTokHandler.putChunks net i l w0
              = (Returned tt,
                 mkWorld (db w0) (log w0 ++ replicate (length l) (EvMedia tiktok)))).
    { induction l as [|chunk rest IH]; intros i w0; simpl.
      - unfold mret, M_ret, ret. destruct w0. by rewrite app_nil_r.
      - unfold mbind, M_bind, bind, call. rewrite Hput. simpl.
        rewrite IH. simpl. by rewrite <- app_assoc. }
    unfold TikTokHandler.handleVideoUpload, TikTokHandler.initVideoUpload.
    unfold chunks, c, TikTokHandler.effectiveChunkSize in *.
    destruct (TikTokHandler.chunkSizing fileSize) as [size total]. cbn [fst] in *.
    destruct (Z.ltb_spec 0 size) as [_|]; [|lia].
    unfold mbind, M_bind, bind, call, mret, M_ret, ret, throw. rewrite Hinit. cbn.
    rewrite Hid, Hurl. cbn. rewrite Hchunks. cbn. rewrite Hpublish. cbn.
    by rewrite <- !app_assoc.
Qed.


(** ** The number of requests of one post (handlers/*.ts) *)

Section AtMost.
Context (P : Event -> bool).

Lemma atMost_weaken {A} (m : M A) n n' :
  atMost P n m -> (n <= n')%nat -> atMost P n' m.
Proof. intros Hm Hn w. destruct (Hm w) as (r & E & L). exists r. split; [done|lia]. Qed.

Lemma atMost_ret {A} (a : A) : atMost P 0 (mret a : M A).
Proof. intros w. exists []. by rewrite app_nil_r. Qed.

Lemma atMost_throw {A} (e : JsError) : atMost P 0 (throw e : M A).
Proof. intros w. exists []. by rewrite app_nil_r. Qed.

Lemma atMost_settle {A} (o : Outcome A) : atMost P 0 (settle o).
Proof. intros w. exists []. by rewrite app_nil_r. Qed.

Lemma atMost_dbWrite f : atMost P 0 (dbWrite f).
Proof. intros w. exists []. by rewrite app_nil_r. Qed.

Lemma atMost_updateConnection u p upd : atMost P 0 (updateConnection u p upd).
Proof. apply atMost_dbWrite. Qed.

Lemma atMost_call {A} ev (o : Outcome A) : atMost P 1 (call ev o).
Proof.
  intros w. exists [ev]. split; [reflexivity|]. simpl. destruct (P ev); simpl; lia.
Qed.

Lemma atMost_call_other {A} ev (o : Outcome A) : P ev = false -> atMost P 0 (call ev o).
Proof.
  intros HP w. exists [ev]. split; [reflexivity|]. simpl. rewrite HP. simpl. lia.
Qed.

Lemma atMost_emit ev : P ev = false -> atMost P 0 (emit ev).
Proof. apply atMost_call_other. Qed.

Lemma atMost_bind {A B} (m : M A) (k : A -> M B) n1 n2 :
  atMost P n1 m -> (forall a, atMost P n2 (k a)) -> atMost P (n1 + n2) (m ≫= k).
Proof.
  intros Hm Hk w. unfold mbind, M_bind, bind.
  destruct (Hm w) as (r1 & E1 & L1).
  destruct (m w) as [[a|e] w1]; simpl in *.
  - destruct (Hk a w1) as (r2 & E2 & L2). exists (r1 ++ r2).
    rewrite E2, E1, app_assoc. split; [reflexivity|].
    rewrite List.filter_app, length_app. lia.
  - exists r1. split; [done|lia].
Qed.

Lemma atMost_tryCatch {A} (m : M A) (h : JsError -> M A) n1 n2 :
  atMost P n1 m -> (forall e, atMost P n2 (h e)) -> atMost P (n1 + n2) (tryCatch m h).
Proof.
  intros Hm Hh w. unfold tryCatch.
  destruct (Hm w) as (r1 & E1 & L1).
  destruct (m w) as [[a|e] w1]; simpl in *.
  - exists r1. split; [done|lia].
  - destruct (Hh e w1) as (r2 & E2 & L2). exists (r1 ++ r2).
    rewrite E2, E1, app_assoc. split; [reflexivity|].
    rewrite List.filter_app, length_app. lia.
Qed.

Lemma atMost_tryFinally {A} (m : M A) (f : M unit) n1 n2 :
  atMost P n1 m -> atMost P n2 f -> atMost P (n1 + n2) (tryFinally m f).
Proof.
  intros Hm Hf w. unfold tryFinally.
  destruct (Hm w) as (r1 & E1 & L1).
  destruct (m w) as [r w1]; simpl in *.
  destruct (Hf w1) as (r2 & E2 & L2). exists (r1 ++ r2).
  rewrite E2, E1, app_assoc. split; [reflexivity|].
  rewrite List.filter_app, length_app. lia.
Qed.

Lemma atMost_attempt {A} (m : M A) n : atMost P n m -> atMost P n (attempt m).
Proof.
  intros Hm w. unfold attempt. destruct (Hm w) as (r1 & E1 & L1).
  destruct (m w) as [r w1]; simpl in *. by exists r1.
Qed.

Lemma atMost_if {A} (b : bool) (m1 m2 : M A) n1 n2 :
  atMost P n1 m1 -> atMost P n2 m2 -> atMost P (Nat.max n1 n2) (if b then m1 else m2).
Proof. intros H1 H2. destruct b; eapply atMost_weaken; eauto; lia. Qed.

Lemma atMost_option {A B} (x : option B) (f : B -> M A) (g : M A) n1 n2 :
  (forall b, atMost P n1 (f b)) -> atMost P n2 g ->
  atMost P (Nat.max n1 n2) (match x with Some b => f b | None => g end).
Proof. intros H1 H2. destruct x; eapply atMost_weaken; eauto; lia. Qed.

Lemma atMost_outcome {A B} (x : Outcome B) (f : B -> M A) (g : JsError -> M A) n1 n2 :
  (forall b, atMost P n1 (f b)) -> (forall e, atMost P n2 (g e)) ->
  atMost P (Nat.max n1 n2) (match x with Returned b => f b | Thrown e => g e end).
Proof. intros H1 H2. destruct x; eapply atMost_weaken; eauto; lia. Qed.

Lemma atMost_flow {A R B} (x : Flow R B) (f : R -> M A) (g : B -> M A) n1 n2 :
  (forall r, atMost P n1 (f r)) -> (forall b, atMost P n2 (g b)) ->
  atMost P (Nat.max n1 n2) (match x with Return_ r => f r | Next b => g b end).
Proof. intros H1 H2. destruct x; eapply atMost_weaken; eauto; lia. Qed.

End AtMost.

Ltac atMost_step :=
  first
    [ apply atMost_ret | apply atMost_throw | apply atMost_settle
    | apply atMost_updateConnection | apply atMost_dbWrite
    | apply atMost_call_other; reflexivity | apply atMost_emit; reflexivity
    | apply atMost_call
    | eapply atMost_bind; [|intros ?]
    | eapply atMost_tryCatch; [|intros ?]
    | eapply atMost_tryFinally
    | apply atMost_attempt
    | eapply atMost_if
    | eapply atMost_option; [intros ?|]
    | eapply atMost_outcome; [intros ?|intros ?]
    | eapply atMost_flow; [intros ?|intros ?]
    | match goal with
      | |- atMost _ _ (let '(_, _) := ?x in _) => destruct x
      | |- atMost _ _ (match ?x with (_, _) => _ end) => destruct x
      end ].

(** The bound is computed along the structure of the code and then
    compared with the one claimed. *)
Ltac atMost_bound := eapply atMost_weaken; [repeat atMost_step|vm_compute; lia].

Section Bounds.
Context `{Libs}.

Lemma atMost_putChunks P net chunks :
  P (EvMedia tiktok) = false ->
  forall i, atMost P 0 (TikTokHandler.putChunks net i chunks).
Proof.
  intros HP. induction chunks as [|c chunks IH]; intros i; simpl.
  - apply atMost_ret.
  - change 0%nat with (0 + 0)%nat. apply atMost_bind; [|intros ?; apply IH].
    by apply atMost_call_other.
Qed.

Lemma atMost_pollJob P n final :
  P (EvMedia bluesky) = false -> P (EvSleep 1000) = false ->
  atMost P 0 (BlueskyHandler.pollJob n final).
Proof.
  intros HP HS. induction n as [|n IH]; simpl.
  - change 0%nat with (0 + (0 + 0))%nat.
    apply atMost_bind; [apply atMost_call_other, HP|intros ?].
    apply atMost_bind; [apply atMost_emit, HS|intros ?]. apply atMost_ret.
  - change 0%nat with (0 + (0 + 0))%nat.
    apply atMost_bind; [apply atMost_call_other, HP|intros ?].
    apply atMost_bind; [apply atMost_emit, HS|intros ?]. apply IH.
Qed.

Lemma publish_twitter config u conn o net :
  atMost (isPublish twitter) 2 (TwitterHandler.sendPost config u conn o net).
Proof.
  unfold TwitterHandler.sendPost, TwitterHandler.publish, TwitterHandler.uploadMedia,
    Media.downloadMedia, TwitterConnectionProvider.refreshToken.
  atMost_bound.
Qed.

Lemma refresh_twitter_publish config u conn (needsRefresh : bool) net :
  atMost (isRefresh twitter) (if needsRefresh then 0 else 1)%nat
    (TwitterHandler.publish config u conn needsRefresh net).
Proof.
  unfold TwitterHandler.publish, TwitterConnectionProvider.refreshToken.
  destruct needsRefresh; cbn [negb].
  - eapply atMost_weaken;
      [eapply atMost_tryCatch;
         [repeat atMost_step|intros e; rewrite andb_false_r; repeat atMost_step]
      |vm_compute; lia].
  - atMost_bound.
Qed.

Lemma refresh_twitter config u conn o net :
  atMost (isRefresh twitter) 1 (TwitterHandler.sendPost config u conn o net).
Proof.
  unfold TwitterHandler.sendPost, TwitterHandler.uploadMedia,
    Media.downloadMedia, TwitterConnectionProvider.refreshToken.
  cbv zeta.
  destruct (TwitterHandler.needsRefresh conn (TwitterHandler.now net)); cbv iota;
    (eapply atMost_weaken;
       [repeat first [apply refresh_twitter_publish|atMost_step]|vm_compute; lia]).
Qed.

Lemma publish_linkedin config u conn o net :
  atMost (isPublish linkedin) 2 (LinkedInHandler.sendPost config u conn o net).
Proof.
  unfold LinkedInHandler.sendPost, LinkedInHandler.publish, LinkedInHandler.uploadMedia,
    LinkedInConnectionProvider.refreshToken.
  atMost_bound.
Qed.

Lemma refresh_linkedin config u conn o net :
  atMost (isRefresh linkedin) 1 (LinkedInHandler.sendPost config u conn o net).
Proof.
  unfold LinkedInHandler.sendPost, LinkedInHandler.publish, LinkedInHandler.uploadMedia,
    LinkedInConnectionProvider.refreshToken.
  atMost_bound.
Qed.

Lemma publish_tiktok config u conn o net :
  atMost (isPublish tiktok) 2 (TikTokHandler.sendPost config u conn o net).
Proof.
  unfold TikTokHandler.sendPost, TikTokHandler.upload, TikTokHandler.finish,
    TikTokHandler.handleVideoUpload, TikTokHandler.handlePhotoUpload,
    TikTokHandler.initVideoUpload, TikTokHandler.initPhotoUpload,
    TikTokHandler.cleanupTempFile, TikTokConnectionProvider.refreshToken.
  eapply atMost_weaken; [repeat atMost_step; by apply atMost_putChunks|vm_compute; lia].
Qed.

Lemma refresh_tiktok config u conn o net :
  atMost (isRefresh tiktok) 1 (TikTokHandler.sendPost config u conn o net).
Proof.
  unfold TikTokHandler.sendPost, TikTokHandler.upload, TikTokHandler.finish,
    TikTokHandler.handleVideoUpload, TikTokHandler.handlePhotoUpload,
    TikTokHandler.initVideoUpload, TikTokHandler.initPhotoUpload,
    TikTokHandler.cleanupTempFile, TikTokConnectionProvider.refreshToken.
  eapply atMost_weaken; [repeat atMost_step; by apply atMost_putChunks|vm_compute; lia].
Qed.

Lemma publish_bluesky u conn o net :
  atMost (isPublish bluesky) 2 (BlueskyHandler.sendPost u conn o net).
Proof.
  unfold BlueskyHandler.sendPost, BlueskyHandler.resumeSession, BlueskyHandler.uploadMedia,
    BlueskyHandler.publish, BlueskyHandler.uploadVideo, Media.downloadMedia,
    BlueskyConnectionProvider.refreshToken.
  eapply atMost_weaken; [repeat atMost_step; by apply atMost_pollJob|vm_compute; lia].
Qed.

Lemma refresh_bluesky u conn o net :
  atMost (isRefresh bluesky) 1 (BlueskyHandler.sendPost u conn o net).
Proof.
  unfold BlueskyHandler.sendPost, BlueskyHandler.resumeSession, BlueskyHandler.uploadMedia,
    BlueskyHandler.publish, BlueskyHandler.uploadVideo, Media.downloadMedia,
    BlueskyConnectionProvider.refreshToken.
  eapply atMost_weaken; [repeat atMost_step; by apply atMost_pollJob|vm_compute; lia].
Qed.

Lemma publish_threads u conn o net :
  atMost (isPublish threads) 2 (ThreadsHandler.sendPost u conn o net).
Proof. unfold ThreadsHandler.sendPost. atMost_bound. Qed.

Lemma publish_devto u conn o net :
  atMost (isPublish devto) 2 (DevtoHandler.sendPost u conn o net).
Proof. unfold DevtoHandler.sendPost. atMost_bound. Qed.

Lemma publish_discord u conn o net :
  atMost (isPublish discord) 2 (DiscordHandler.sendPost u conn o net).
Proof. unfold DiscordHandler.sendPost. atMost_bound. Qed.

Lemma publish_github u conn o :
  atMost (isPublish github) 2 (GitHubHandler.sendPost u conn o).
Proof. unfold GitHubHandler.sendPost. atMost_bound. Qed.

Lemma refresh_threads u conn o net :
  atMost (isRefresh threads) 1 (ThreadsHandler.sendPost u conn o net).
Proof. unfold ThreadsHandler.sendPost. atMost_bound. Qed.

Lemma refresh_devto u conn o net :
  atMost (isRefresh devto) 1 (DevtoHandler.sendPost u conn o net).
Proof. unfold DevtoHandler.sendPost. atMost_bound. Qed.

Lemma refresh_discord u conn o net :
  atMost (isRefresh discord) 1 (DiscordHandler.sendPost u conn o net).
Proof. unfold DiscordHandler.sendPost. atMost_bound. Qed.

Lemma refresh_github u conn o :
  atMost (isRefresh github) 1 (GitHubHandler.sendPost u conn o).
Proof. unfold GitHubHandler.sendPost. atMost_bound. Qed.

Lemma handlers_atMost (config : PostDispatcher.PlatformConfig) (p : Platform)
    (handler : PostDispatcher.PlatformHandler) (userId : string) (connection : Obj)
    (options : PostOptions) (nets : PostDispatcher.Nets) :
  PostDispatcher.handlers config p = Some handler ->
  atMost (isPublish p) 2 (handler userId connection options nets) /\
  atMost (isRefresh p) 1 (handler userId connection options nets).
Proof.
  destruct config as [tw li bs tt th dv dc gh].
  destruct p; simpl; unfold PostDispatcher.present.
  - destruct tw; [|done]. intros [= <-]. split; [apply publish_twitter|apply refresh_twitter].
  - destruct li; [|done]. intros [= <-]. split; [apply publish_linkedin|apply refresh_linkedin].
  - destruct bs; [|done]. intros [= <-]. split; [apply publish_bluesky|apply refresh_bluesky].
  - destruct tt; [|done]. intros [= <-]. split; [apply publish_tiktok|apply refresh_tiktok].
  - destruct dv; [|done]. intros [= <-]. split; [apply publish_devto|apply refresh_devto].
  - destruct th; [|done]. intros [= <-]. split; [apply publish_threads|apply refresh_threads].
  - destruct dc; [|done]. intros [= <-]. split; [apply publish_discord|apply refresh_discord].
  - destruct gh; [|done]. intros [= <-]. split; [apply publish_github|apply refresh_github].
Qed.

(** X9. One call of a registered handler's [sendPost] sends at most two
    publish requests and enters [refreshToken] at most once, whatever the
    connection, the options and the responses are: no handler retries in
    a loop. *)
Theorem requests_bounded (config : PostDispatcher.PlatformConfig) (p : Platform)
    (handler : PostDispatcher.PlatformHandler) (userId : string) (connection : Obj)
    (options : PostOptions) (nets : PostDispatcher.Nets) (w : World) :
  PostDispatcher.handlers config p = Some handler ->
  exists requests : list Event,
    log (snd (handler userId connection options nets w)) = log w ++ requests /\
    (length (List.filter (isPublish p) requests) <= 2)%nat /\
    (length (List.filter (isRefresh p) requests) <= 1)%nat.
Proof.
  intros Hh.
  destruct (handlers_atMost config p handler userId connection options nets Hh)
    as [Hpublish Hrefresh].
  destruct (Hpublish w) as (requests & Hlog & Hp).
  destruct (Hrefresh w) as (requests' & Hlog' & Hr).
  rewrite Hlog in Hlog'. apply app_inv_head in Hlog' as <-.
  by exists requests.
Qed.

End Bounds.


(** ** The temp file of a TikTok video (handlers/tiktok.ts) *)

Lemma emits_finally_last {A} (P : Event -> Prop) (m : M A) ev :
  emits P m ->
  forall w, exists rest : list Event,
    log (snd (tryFinally m (emit ev) w)) = log w ++ rest ++ [ev] /\ Forall P rest.
Proof.
  intros Hm w. unfold tryFinally, emit, call.
  destruct (Hm w) as (rest & E & F). destruct (m w) as [r w1]; simpl in *.
  exists rest. by rewrite E, app_assoc.
Qed.

Lemma emits_putChunks_any P net chunks :
  P (EvMedia tiktok) -> forall i, emits P (TikTokHandler.putChunks net i chunks).
Proof.
  intros HP. induction chunks as [|c chunks IH]; intros i; simpl; repeat emits_step; auto.
Qed.

Lemma emits_handleVideoUpload_any P fileSize net :
  P (EvMedia tiktok) -> P (EvPublish tiktok) ->
  emits P (TikTokHandler.handleVideoUpload fileSize net).
Proof.
  intros HM HP. unfold TikTokHandler.handleVideoUpload, TikTokHandler.initVideoUpload.
  repeat emits_step; auto; by apply emits_putChunks_any.
Qed.

Lemma finish_cleanup_last u net filePath (publishId : M (option string)) :
  emits notCleanup publishId ->
  forall w, exists rest : list Event,
    log (snd (TikTokHandler.finish u net (Some filePath) publishId w))
      = log w ++ rest ++ [EvCleanup filePath] /\
    Forall notCleanup rest.
Proof.
  intros Hp. unfold TikTokHandler.finish, TikTokHandler.cleanupTempFile.
  apply emits_finally_last.
  unfold TikTokHandler.handlePhotoUpload, TikTokHandler.initPhotoUpload.
  repeat emits_step; try exact Hp; by intros path.
Qed.

Lemma finish_no_cleanup u net (publishId : M (option string)) :
  emits notCleanup publishId ->
  emits notCleanup (TikTokHandler.finish u net None publishId).
Proof.
  intros Hp. unfold TikTokHandler.finish.
  unfold TikTokHandler.handlePhotoUpload, TikTokHandler.initPhotoUpload.
  repeat emits_step; try exact Hp; by intros path.
Qed.

Lemma bind_attempt_call {A B} ev (o : Outcome A) (k : Outcome A -> M B) w :
  (attempt (call ev o) ≫= k) w = k o (mkWorld (db w) (log w ++ [ev])).
Proof. reflexivity. Qed.

Lemma bind_emit {B} ev (k : M B) w :
  (emit ev ≫= fun _ => k) w = k (mkWorld (db w) (log w ++ [ev])).
Proof. reflexivity. Qed.



(** ** Request sequences and outcomes
    (handlers/threads.ts, utils/media.ts, dispatcher.ts) *)

(** Decides [startsWith] of a message whose head is a literal. *)
Ltac starts_with :=
  unfold startsWith; cbn [message Error];
  repeat (rewrite prefix_cons; cbn [Ascii.eqb Bool.eqb andb]);
  apply prefix_nil.

(** X11. With an access token and a Threads user id, the Threads handler
    sends the container request, waits 30 seconds and sends the publish
    request, and nothing else, when the container request is answered with
    an id; when it is not, the container request is the only request
    and the call returns a failed result. *)
Theorem threads_request_sequence (userId : string) (connection : Obj)
    (options : PostOptions) (net : ThreadsHandler.Net) (w : World) :
  truthy (field connection "accessToken") = true ->
  truthy (field connection "threadsUserId") = true ->
  let run := ThreadsHandler.sendPost userId connection options net w in
  (forall response containerId,
     ThreadsHandler.container net = Returned response ->
     r_ok response = true -> r_json response = Returned containerId ->
     log (snd run) = log w ++ [EvPublish threads; EvSleep 30000; EvPublish threads]) /\
  ((forall response containerId,
      ThreadsHandler.container net = Returned response ->
      r_ok response = true -> r_json response <> Returned containerId) ->
   log (snd run) = log w ++ [EvPublish threads] /\
   exists result, fst run = Returned result /\ success result = false).
Proof.
  intros Ht Hu. unfold ThreadsHandler.sendPost. rewrite Ht, Hu. cbn [negb].
  split.
  - intros response containerId Hc Hok Hjson.
    unfold_monad. rewrite Hc. cbn. rewrite Hok. cbn. rewrite Hjson. cbn.
    destruct (ThreadsHandler.publish net) as [publishResponse|e]; cbn.
    + destruct (r_ok publishResponse); cbn.
      * destruct (r_json publishResponse); cbn; by rewrite <- !app_assoc.
      * destruct (r_text publishResponse); cbn; by rewrite <- !app_assoc.
    + by rewrite <- !app_assoc.
  - intros Hfail. unfold_monad.
    destruct (ThreadsHandler.container net) as [response|e] eqn:Hc; cbn.
    + destruct (r_ok response) eqn:Hok; cbn.
      * destruct (r_json response) as [containerId|e] eqn:Hjson; cbn.
        -- by destruct (Hfail response containerId).
        -- split; [done|]. by eexists.
      * destruct (r_text response); cbn; (split; [done|]); by eexists.
    + split; [done|]. by eexists.
Qed.


Section DispatchOutcomes.
Context `{Libs}.


End DispatchOutcomes.


(** ** The OAuth handshake from start to end (connections/*.ts) *)

Lemma obj_lookup_here (k : string) (v : JsVal) (rest : list (string * JsVal)) :
  obj ((k, v) :: rest) !! k = Some v.
Proof. unfold obj. cbn [list_to_map foldr]. apply lookup_insert_eq. Qed.

Lemma obj_lookup_next (k k' : string) (v : JsVal) (rest : list (string * JsVal)) :
  k' <> k -> obj ((k', v) :: rest) !! k = obj rest !! k.
Proof. intros Hne. unfold obj. cbn [list_to_map foldr]. by apply lookup_insert_ne. Qed.

(** Reads a field of an object literal. *)
Ltac obj_lookup :=
  repeat first
    [ apply obj_lookup_here
    | rewrite obj_lookup_next by (intros [=]) ].

Section Handshake.
Context `{Libs}.

(** X14. For LinkedIn, Twitter, TikTok and Threads with client credentials
    configured: [initiateAuth] returns a state, and [handleCallback]
    with that state and answered token and profile requests returns a
    connection that is stored under the user who started the handshake,
    carries that user's id and the granted access token, is marked
    valid, and the state is consumed. *)
Theorem oauth_handshake_completes (userId redirectUri code : string) (w : World) :
  (* LinkedIn *)
  (forall config authNet net token sub,
     configured config = true ->
     LinkedInConnectionProvider.cb_token net = Returned token ->
     LinkedInConnectionProvider.cb_profile net = Returned sub ->
     exists url state w1 connection w2,
       LinkedInConnectionProvider.initiateAuth config userId redirectUri authNet w
         = (Returned (url, state), w1) /\
       LinkedInConnectionProvider.handleCallback config code state redirectUri net w1
         = (Returned connection, w2) /\
       MemoryAdapter.getConnection userId linkedin (db w2) = Some connection /\
       connection !! "uid" = Some (VStr userId) /\
       connection !! "accessToken"
         = Some (VStr (LinkedInConnectionProvider.access_token token)) /\
       connection !! "isValid" = Some (VBool true) /\
       MemoryAdapter.getOAuthState state (db w2) = None) /\
  (* Twitter *)
  (forall config authNet net grant user,
     configured config = true ->
     TwitterConnectionProvider.cb_login net = Returned grant ->
     TwitterConnectionProvider.cb_me net = Returned (Some user) ->
     exists url state w1 connection w2,
       TwitterConnectionProvider.initiateAuth config userId redirectUri authNet w
         = (Returned (url, state), w1) /\
       TwitterConnectionProvider.handleCallback config code state redirectUri net w1
         = (Returned connection, w2) /\
       MemoryAdapter.getConnection userId twitter (db w2) = Some connection /\
       connection !! "uid" = Some (VStr userId) /\
       connection !! "accessToken"
         = Some (VStr (TwitterConnectionProvider.tg_accessToken grant)) /\
       connection !! "isValid" = Some (VBool true) /\
       MemoryAdapter.getOAuthState state (db w2) = None) /\
  (* TikTok *)
  (forall config authNet net token user,
     configured config = true ->
     TikTokConnectionProvider.cb_token net = Returned token ->
     TikTokConnectionProvider.cb_user net = Returned user ->
     exists url state w1 connection w2,
       TikTokConnectionProvider.initiateAuth config userId redirectUri authNet w
         = (Returned (url, state), w1) /\
       TikTokConnectionProvider.handleCallback config code state redirectUri net w1
         = (Returned connection, w2) /\
       MemoryAdapter.getConnection userId tiktok (db w2) = Some connection /\
       connection !! "uid" = Some (VStr userId) /\
       connection !! "accessToken"
         = Some (VStr (TikTokConnectionProvider.access_token token)) /\
       connection !! "isValid" = Some (VBool true) /\
       MemoryAdapter.getOAuthState state (db w2) = None) /\
  (* Threads *)
  (forall config authNet net tokenResponse token userResponse threadsUserId,
     configured config = true ->
     ThreadsConnectionProvider.cb_tokenResponse net = Returned tokenResponse ->
     r_ok tokenResponse = true -> r_json tokenResponse = Returned token ->
     ThreadsConnectionProvider.cb_userResponse net = Returned userResponse ->
     r_ok userResponse = true -> r_json userResponse = Returned threadsUserId ->
     exists url state w1 connection w2,
       ThreadsConnectionProvider.initiateAuth config userId redirectUri authNet w
         = (Returned (url, state), w1) /\
       ThreadsConnectionProvider.handleCallback config code state redirectUri net w1
         = (Returned connection, w2) /\
       MemoryAdapter.getConnection userId threads (db w2) = Some connection /\
       connection !! "uid" = Some (VStr userId) /\
       connection !! "accessToken"
         = Some (VStr (ThreadsConnectionProvider.access_token token)) /\
       connection !! "isValid" = Some (VBool true) /\
       MemoryAdapter.getOAuthState state (db w2) = None).
Proof.
  destruct w as [s l].
  split; [|split; [|split]].
  - intros config authNet net token sub Hc Ht Hp.
    unfold LinkedInConnectionProvider.initiateAuth,
      LinkedInConnectionProvider.handleCallback,
      BaseConnectionProvider.saveOAuthState, BaseConnectionProvider.getOAuthState,
      BaseConnectionProvider.deleteOAuthState, BaseConnectionProvider.saveConnection.
    rewrite Hc. cbn [negb]. unfold_monad. cbn.
    do 5 eexists. split; [reflexivity|].
    unfold MemoryAdapter.getOAuthState. cbn. rewrite lookup_insert_eq. cbn.
    rewrite Ht, Hp. cbn.
    split; [reflexivity|].
    unfold MemoryAdapter.getConnection. cbn. rewrite lookup_insert_eq.
    split; [reflexivity|]. split; [obj_lookup|]. split; [obj_lookup|].
    split; [obj_lookup|]. apply lookup_delete_eq.
  - intros config authNet net grant user Hc Ht Hp.
    unfold TwitterConnectionProvider.initiateAuth,
      TwitterConnectionProvider.handleCallback,
      BaseConnectionProvider.saveOAuthState, BaseConnectionProvider.getOAuthState,
      BaseConnectionProvider.deleteOAuthState, BaseConnectionProvider.saveConnection.
    rewrite Hc. cbn [negb]. destruct (TwitterConnectionProvider.ia_link authNet) as [url cv].
    unfold_monad. cbn.
    do 5 eexists. split; [reflexivity|].
    unfold MemoryAdapter.getOAuthState. cbn. rewrite lookup_insert_eq. cbn.
    rewrite Ht, Hp. cbn.
    split; [reflexivity|].
    unfold MemoryAdapter.getConnection. cbn. rewrite lookup_insert_eq.
    split; [reflexivity|]. split; [obj_lookup|]. split; [obj_lookup|].
    split; [obj_lookup|]. apply lookup_delete_eq.
  - intros config authNet net token user Hc Ht Hp.
    unfold TikTokConnectionProvider.initiateAuth,
      TikTokConnectionProvider.handleCallback,
      BaseConnectionProvider.saveOAuthState, BaseConnectionProvider.getOAuthState,
      BaseConnectionProvider.deleteOAuthState, BaseConnectionProvider.saveConnection.
    rewrite Hc. cbn [negb]. unfold_monad. cbn.
    do 5 eexists. split; [reflexivity|].
    unfold MemoryAdapter.getOAuthState. cbn. rewrite lookup_insert_eq. cbn.
    rewrite Ht, Hp. cbn.
    split; [reflexivity|].
    unfold MemoryAdapter.getConnection. cbn. rewrite lookup_insert_eq.
    split; [reflexivity|]. split; [obj_lookup|]. split; [obj_lookup|].
    split; [obj_lookup|]. apply lookup_delete_eq.
  - intros config authNet net tokenResponse token userResponse threadsUserId
      Hc Ht Hok Hjson Hu Huok Hujson.
    unfold ThreadsConnectionProvider.initiateAuth,
      ThreadsConnectionProvider.handleCallback,
      BaseConnectionProvider.saveOAuthState, BaseConnectionProvider.getOAuthState,
      BaseConnectionProvider.deleteOAuthState, BaseConnectionProvider.saveConnection.
    rewrite Hc. cbn [negb]. unfold_monad. cbn.
    do 5 eexists. split; [reflexivity|].
    unfold MemoryAdapter.getOAuthState. cbn. rewrite lookup_insert_eq. cbn.
    rewrite Ht. cbn. rewrite Hok. cbn. rewrite Hjson. cbn. rewrite Hu. cbn.
    rewrite Huok. cbn. rewrite Hujson. cbn.
    split; [reflexivity|].
    unfold MemoryAdapter.getConnection. cbn. rewrite lookup_insert_eq.
    split; [reflexivity|]. split; [obj_lookup|]. split; [obj_lookup|].
    split; [obj_lookup|]. apply lookup_delete_eq.
Qed.

End Handshake.


(** ** A callback that fails (client.ts) *)

Ltac failed_callback :=
  unfold BaseConnectionProvider.saveOAuthState, BaseConnectionProvider.getOAuthState,
    BaseConnectionProvider.deleteOAuthState, BaseConnectionProvider.saveConnection;
  unfold_monad; cbn;
  repeat (run_step; cbn); intros; simplify_eq/=; reflexivity.

(** X15. When [SocialAuth.handleCallback] throws, for whatever reason and
    platform, the stored connections are exactly those from before the
    call. *)
Theorem failed_callback_saves_nothing (config : PostDispatcher.PlatformConfig)
    (platform : Platform) (code state redirectUri : string)
    (nets : SocialAuth.CallbackNets) (w : World) (error : JsError) (w' : World) :
  SocialAuth.handleCallback config platform code state redirectUri nets w
    = (Thrown error, w') ->
  MemoryAdapter.connections (db w') = MemoryAdapter.connections (db w).
Proof.
  destruct w as [s l]. unfold SocialAuth.handleCallback.
  destruct platform.
  - destruct (PostDispatcher.cfg_twitter config) as [c|]; [|by intros [= _ <-]].
    unfold TwitterConnectionProvider.handleCallback. failed_callback.
  - destruct (PostDispatcher.cfg_linkedin config) as [c|]; [|by intros [= _ <-]].
    unfold LinkedInConnectionProvider.handleCallback. failed_callback.
  - by intros [= _ <-].
  - destruct (PostDispatcher.cfg_tiktok config) as [c|]; [|by intros [= _ <-]].
    unfold TikTokConnectionProvider.handleCallback. failed_callback.
  - by intros [= _ <-].
  - destruct (PostDispatcher.cfg_threads config) as [c|]; [|by intros [= _ <-]].
    unfold ThreadsConnectionProvider.handleCallback. failed_callback.
  - by intros [= _ <-].
  - by intros [= _ <-].
Qed.


(** ** Token refresh by the providers (connections/*.ts) *)

Lemma obj_lookup_none (k : string) (fields : list (string * JsVal)) :
  k ∉ fields.*1 -> obj fields !! k = None.
Proof. intros Hk. unfold obj. by apply not_elem_of_list_to_map_1. Qed.

Ltac refreshed :=
  unfold refreshedFrom;
  repeat split;
  first
    [ apply spread_lookup_update; obj_lookup
    | apply spread_lookup_frame; apply obj_lookup_none; cbn;
      rewrite !elem_of_cons, elem_of_nil; intros H'; decompose [or] H';
      first [discriminate|done] ].

Section ProviderRefresh.
Context `{Libs}.

(** X16. [refreshToken] of the Twitter, LinkedIn and TikTok providers, with
    client credentials configured: without a stored refresh token it
    throws [Cannot refresh: Missing ... refresh token] before any request;
    when the token request fails it throws that error and writes
    nothing; when it succeeds it returns and stores (under the
    connection's own uid) a record with the new access token, the new
    refresh token or else the old one, [isValid = true],
    [needsReconnection = false] and the uid and platform it had. *)
Theorem refreshToken_outcomes (connection : Obj) (w : World) :
  (* Twitter *)
  (forall config net,
     configured config = true ->
     let run := TwitterConnectionProvider.refreshToken config connection net w in
     (truthy (field connection "refreshToken") = false ->
      run = (Thrown (Error "Cannot refresh: Missing Twitter refresh token"),
             mkWorld (db w) (log w ++ [EvRefreshToken twitter]))) /\
     (truthy (field connection "refreshToken") = true ->
      forall e, TwitterConnectionProvider.rf_grant net = Thrown e ->
      fst run = Thrown e /\ db (snd run) = db w) /\
     (truthy (field connection "refreshToken") = true ->
      forall grant, TwitterConnectionProvider.rf_grant net = Returned grant ->
      exists updated,
        fst run = Returned updated /\
        db (snd run)
          = MemoryAdapter.updateConnection (uidOf connection) twitter updated (db w) /\
        refreshedFrom connection updated
          (TwitterConnectionProvider.tg_accessToken grant)
          (TwitterConnectionProvider.tg_refreshToken grant))) /\
  (* LinkedIn *)
  (forall config net,
     configured config = true ->
     let run := LinkedInConnectionProvider.refreshToken config connection net w in
     (truthy (field connection "refreshToken") = false ->
      run = (Thrown (Error "Cannot refresh: Missing LinkedIn refresh token"),
             mkWorld (db w) (log w ++ [EvRefreshToken linkedin]))) /\
     (truthy (field connection "refreshToken") = true ->
      forall e, LinkedInConnectionProvider.rf_token net = Thrown e ->
      fst run = Thrown e /\ db (snd run) = db w) /\
     (truthy (field connection "refreshToken") = true ->
      forall token, LinkedInConnectionProvider.rf_token net = Returned token ->
      exists updated,
        fst run = Returned updated /\
        db (snd run)
          = MemoryAdapter.updateConnection (uidOf connection) linkedin updated (db w) /\
        refreshedFrom connection updated
          (LinkedInConnectionProvider.access_token token)
          (LinkedInConnectionProvider.refresh_token token))) /\
  (* TikTok *)
  (forall config net,
     configured config = true ->
     let run := TikTokConnectionProvider.refreshToken config connection net w in
     (truthy (field connection "refreshToken") = false ->
      run = (Thrown (Error "Cannot refresh: Missing TikTok refresh token"),
             mkWorld (db w) (log w ++ [EvRefreshToken tiktok]))) /\
     (truthy (field connection "refreshToken") = true ->
      forall e, TikTokConnectionProvider.rf_token net = Thrown e ->
      fst run = Thrown e /\ db (snd run) = db w) /\
     (truthy (field connection "refreshToken") = true ->
      forall token, TikTokConnectionProvider.rf_token net = Returned token ->
      exists updated,
        fst run = Returned updated /\
        db (snd run)
          = MemoryAdapter.updateConnection (uidOf connection) tiktok updated (db w) /\
        refreshedFrom connection updated
          (TikTokConnectionProvider.access_token token)
          (TikTokConnectionProvider.refresh_token token))).
Proof.
  split; [|split].
  - intros config net Hc. unfold TwitterConnectionProvider.refreshToken.
    rewrite Hc. cbn [negb]. unfold updateConnection. unfold_monad.
    split; [by intros ->|]. split.
    + intros -> e ->. by cbn.
    + intros -> grant ->. cbn. eexists. split; [reflexivity|]. split; [reflexivity|].
      refreshed.
  - intros config net Hc. unfold LinkedInConnectionProvider.refreshToken.
    rewrite Hc. cbn [negb]. unfold updateConnection. unfold_monad.
    split; [by intros ->|]. split.
    + intros -> e ->. by cbn.
    + intros -> grant ->. cbn. eexists. split; [reflexivity|]. split; [reflexivity|].
      refreshed.
  - intros config net Hc. unfold TikTokConnectionProvider.refreshToken.
    rewrite Hc. cbn [negb]. unfold updateConnection. unfold_monad.
    split; [by intros ->|]. split.
    + intros -> e ->. by cbn.
    + intros -> grant ->. cbn. eexists. split; [reflexivity|]. split; [reflexivity|].
      refreshed.
Qed.


End ProviderRefresh.


(** ** Authentication errors (utils/security.ts) *)

Lemma lowerChar_idemp (c : ascii) : lowerChar (lowerChar c) = lowerChar c.
Proof. destruct c as [[] [] [] [] [] [] [] []]; reflexivity. Qed.

Lemma toLowerCase_idemp (s : string) : toLowerCase (toLowerCase s) = toLowerCase s.
Proof. induction s as [|c s IH]; [done|]. simpl. by rewrite lowerChar_idemp, IH. Qed.

(** X18. [isAuthError]: a status of 401 or 403 (read from [status],
    [response.status] or [code], in this order) is an authentication
    error on every platform; what is one without a platform is one on
    every platform; for a platform other than twitter, bluesky and
    linkedin the platform adds nothing; and the answer does not depend on
    the case of the message. *)
Theorem isAuthError_platform_independent (platform : string) (err : JsError) :
  (statusOf err = Some 401 \/ statusOf err = Some 403 ->
   Security.isAuthError platform err = true) /\
  (Security.isAuthError "" err = true -> Security.isAuthError platform err = true) /\
  (platform <> "twitter" -> platform <> "bluesky" -> platform <> "linkedin" ->
   Security.isAuthError platform err = Security.isAuthError "" err) /\
  Security.isAuthError platform (lowerMessage err) = Security.isAuthError platform err.
Proof.
  unfold Security.isAuthError, statusOf, lowerMessage. cbn [message err_status
    err_responseStatus err_code err_data].
  rewrite toLowerCase_idemp.
  set (status := Security.numOr _ _).
  set (msg := toLowerCase (message err)).
  split; [|split; [|split]].
  - intros [->| ->]; reflexivity.
  - change (String.eqb "" "twitter") with false.
    change (String.eqb "" "bluesky") with false.
    change (String.eqb "" "linkedin") with false. cbv iota.
    destruct (Security.statusIs status 401 || Security.statusIs status 403); [done|].
    destruct (includes msg "authentication" || includes msg "authenticate"); [done|].
    destruct (includes msg "invalid_token" || includes msg "invalid_grant"); done.
  - intros Ht Hb Hl.
    apply String.eqb_neq in Ht, Hb, Hl. rewrite Ht, Hb, Hl.
    change (String.eqb "" "twitter") with false.
    change (String.eqb "" "bluesky") with false.
    change (String.eqb "" "linkedin") with false. reflexivity.
  - reflexivity.
Qed.


(** ** The media blocks of the handlers (handlers/*.ts) *)

Section MediaBlocks.
Context `{Libs}.

Lemma downloadMedia_run p fetched w :
  exists o, Media.downloadMedia p fetched w = (o, mkWorld (db w) (log w ++ [EvMedia p])).
Proof.
  unfold Media.downloadMedia. unfold_monad.
  destruct fetched as [response|e]; cbn; [|by eexists].
  destruct (negb (Media.okStatus (Media.f_status response))); cbn; [by eexists|].
  destruct (Media.maxSize (platformName p) <? Media.f_length response); by eexists.
Qed.

Lemma twitter_uploadMedia_harmless options net :
  harmless (fun ev => ev = EvMedia twitter) (TwitterHandler.uploadMedia options net).
Proof.
  intros w. unfold TwitterHandler.uploadMedia.
  destruct (media options) as [url|].
  - unfold tryCatch at 1. unfold mbind at 1. unfold M_bind, bind.
    destruct (downloadMedia_run twitter (TwitterHandler.download net) w) as [o ->].
    destruct o as [[len [mt|]]|e]; cbn.
    + destruct (nonEmpty mt); cbn.
      * unfold_monad.
        destruct (Media.getTwitterMediaTypeCategory mt); cbn;
          [destruct (TwitterHandler.upload net); cbn|];
          eexists _, _; (split; [by rewrite <- ?app_assoc|]); by repeat constructor.
      * eexists _, _. split; [reflexivity|]. by repeat constructor.
    + eexists _, _. split; [reflexivity|]. by repeat constructor.
    + eexists _, _. split; [reflexivity|]. by repeat constructor.
  - exists None, []. split; [|constructor]. unfold mret, M_ret, ret.
    destruct w. by rewrite app_nil_r.
Qed.

Lemma linkedin_uploadMedia_harmless options net :
  harmless (fun ev => ev = EvMedia linkedin) (LinkedInHandler.uploadMedia options net).
Proof.
  intros w. unfold LinkedInHandler.uploadMedia.
  destruct (media options) as [url|].
  - unfold_monad.
    destruct (LinkedInHandler.register net) as [[uploadUrl asset]|e]; cbn;
      [destruct (LinkedInHandler.binaryGet net); cbn;
         [destruct (LinkedInHandler.binaryPut net); cbn|]|];
      eexists _, _; (split; [by rewrite <- ?app_assoc|]); by repeat constructor.
  - exists None, []. split; [|constructor]. unfold mret, M_ret, ret.
    destruct w. by rewrite app_nil_r.
Qed.

Lemma pollJob_harmless_or_throws n final w :
  exists o (events : list Event),
    BlueskyHandler.pollJob n final w = (o, mkWorld (db w) (log w ++ events)) /\
    Forall (fun ev => ev <> EvPublish bluesky) events.
Proof.
  revert w. induction n as [|n IH]; intros w; cbn [BlueskyHandler.pollJob]; unfold_monad.
  - destruct final; cbn; eexists _, _; (split; [by rewrite <- ?app_assoc|]);
      by repeat constructor.
  - cbn. destruct (IH (mkWorld (db w) ((log w ++ [EvMedia bluesky]) ++ [EvSleep 1000])))
      as (o & events & -> & F).
    cbn. exists o, (EvMedia bluesky :: EvSleep 1000 :: events).
    split; [by rewrite <- !app_assoc|]. by repeat constructor.
Qed.

Lemma bluesky_uploadMedia_harmless options net :
  harmless (fun ev => ev <> EvPublish bluesky) (BlueskyHandler.uploadMedia options net) /\
  returns (BlueskyHandler.uploadMedia options net)
    (fun flow => forall r, flow = Return_ r -> success r = false).
Proof.
  split.
  - intros w. unfold BlueskyHandler.uploadMedia.
    destruct (media options) as [url|].
    + destruct (Media.isVideoFile url).
      * destruct (BlueskyHandler.sessionAtMedia net); cbn [negb].
        -- unfold BlueskyHandler.uploadVideo. unfold_monad.
           destruct (BlueskyHandler.serviceAuth (BlueskyHandler.video net)); cbn;
             [|eexists _, _; (split; [by rewrite <- ?app_assoc|]); by repeat constructor].
           destruct (BlueskyHandler.videoFetch (BlueskyHandler.video net)) as [response|e];
             cbn;
             [|eexists _, _; (split; [by rewrite <- ?app_assoc|]); by repeat constructor].
           destruct (negb (r_ok response)); cbn;
             [eexists _, _; (split; [by rewrite <- ?app_assoc|]); by repeat constructor|].
           destruct (BlueskyHandler.uploadJob (BlueskyHandler.video net)) as [[blob|]|e];
             cbn.
           ++ destruct (BlueskyHandler.dimensions (BlueskyHandler.video net)); cbn;
                eexists _, _; (split; [by rewrite <- ?app_assoc|]); by repeat constructor.
           ++ destruct (pollJob_harmless_or_throws
                          (BlueskyHandler.pending (BlueskyHandler.video net))
                          (BlueskyHandler.finalStatus (BlueskyHandler.video net))
                          (mkWorld (db w)
                             (((log w ++ [EvMedia bluesky]) ++ [EvMedia bluesky])
                              ++ [EvMedia bluesky])))
                as (o & events & E & F).
              unfold_monad. rewrite E. cbn.
              destruct o as [blob|e]; cbn;
                [destruct (BlueskyHandler.dimensions (BlueskyHandler.video net)); cbn|];
                eexists _, (EvMedia bluesky :: EvMedia bluesky :: EvMedia bluesky :: events);
                (split; [by rewrite <- !app_assoc|]); by repeat constructor.
           ++ eexists _, _; (split; [by rewrite <- ?app_assoc|]); by repeat constructor.
        -- exists (Return_ (failed bluesky "Bluesky agent session lost before video upload.")), [].
           split; [|constructor]. unfold_monad. destruct w. by rewrite app_nil_r.
      * unfold tryCatch at 1. unfold mbind at 1. unfold M_bind, bind.
        destruct (downloadMedia_run bluesky (BlueskyHandler.download net) w) as [o ->].
        destruct o as [[len mt]|e]; cbn.
        -- destruct (BlueskyHandler.BLUESKY_LIMIT_MB * 1024 * 1024 <? len); cbn;
             [eexists _, _; (split; [reflexivity|]); by repeat constructor|].
           destruct (BlueskyHandler.sessionAtMedia net); cbn;
             [|eexists _, _; (split; [reflexivity|]); by repeat constructor].
           unfold_monad. destruct (BlueskyHandler.uploadBlob net); cbn;
             eexists _, _; (split; [by rewrite <- ?app_assoc|]); by repeat constructor.
        -- eexists _, _; (split; [reflexivity|]); by repeat constructor.
    + exists (Next tt), []. split; [|constructor]. unfold mret, M_ret, ret.
      destruct w. by rewrite app_nil_r.
  - unfold BlueskyHandler.uploadMedia, BlueskyHandler.uploadVideo, Media.downloadMedia.
    repeat ret_step; intros r [= <-]; reflexivity.
Qed.

End MediaBlocks.


(** ** Media failures and missing credentials (handlers/*.ts) *)

Section Policy.
Context `{Libs}.

(** X19. A failure in the media block does not stop a Twitter or a LinkedIn
    post: whatever the download and the upload did, the publish runs next,
    on an unchanged store, after media events only.  For Bluesky the media
    block never throws and never publishes, and a result it returns is a
    failed result that [sendPost] returns as its own. *)
Theorem media_failure_policy (userId : string) (options : PostOptions) (w : World) :
  (* Twitter: the tweet is sent after the media block, whatever it did *)
  (forall config connection net,
     truthy (field connection "accessToken") = true ->
     TwitterHandler.needsRefresh connection (TwitterHandler.now net) = false ->
     exists mediaEvents : list Event,
       Forall (fun ev => ev = EvMedia twitter) mediaEvents /\
       TwitterHandler.sendPost config userId connection options net w
       = TwitterHandler.publish config userId connection false net
           (mkWorld (db w) (log w ++ mediaEvents))) /\
  (* LinkedIn: likewise *)
  (forall config connection net,
     truthy (field connection "accessToken") = true ->
     truthy (field connection "linkedInUserId") = true ->
     Security.isTokenExpired (field connection "accessToken") (LinkedInHandler.now net)
       = false ->
     exists mediaEvents : list Event,
       Forall (fun ev => ev = EvMedia linkedin) mediaEvents /\
       LinkedInHandler.sendPost config userId connection options net w
       = LinkedInHandler.publish userId net (mkWorld (db w) (log w ++ mediaEvents))) /\
  (* Bluesky: a failure in the media block is the result of the post *)
  (forall net,
     harmless (fun ev => ev <> EvPublish bluesky) (BlueskyHandler.uploadMedia options net) /\
     returns (BlueskyHandler.uploadMedia options net)
       (fun flow => forall r, flow = Return_ r -> success r = false)) /\
  (forall connection net result w',
     truthy (field connection "handle") = true ->
     truthy (field connection "did") = true ->
     truthy (field connection "accessJwt") = true ->
     truthy (field connection "refreshJwt") = true ->
     BlueskyHandler.resume net = Returned tt ->
     BlueskyHandler.uploadMedia options net (mkWorld (db w) (log w ++ [EvResume bluesky]))
       = (Returned (Return_ result), w') ->
     BlueskyHandler.sendPost userId connection options net w = (Returned result, w')).
Proof.
  split; [|split; [|split]].
  - intros config connection net Ht Hn.
    unfold TwitterHandler.sendPost. rewrite Ht, Hn. cbn [negb].
    unfold mbind at 1. unfold M_bind, bind. cbn. rewrite Ht. cbn [negb].
    destruct (twitter_uploadMedia_harmless options net w) as (a & events & E & F).
    exists events. split; [done|]. unfold mbind, M_bind, bind. by rewrite E.
  - intros config connection net Ht Hu He.
    unfold LinkedInHandler.sendPost. rewrite Ht, Hu, He. cbn [negb].
    unfold mbind at 1. unfold M_bind, bind. cbn.
    destruct (linkedin_uploadMedia_harmless options net w) as (a & events & E & F).
    exists events. split; [done|]. unfold mbind, M_bind, bind. by rewrite E.
  - intros net. apply bluesky_uploadMedia_harmless.
  - intros connection net result w' Hh Hd Ha Hr Hresume Hmedia.
    unfold BlueskyHandler.sendPost, BlueskyHandler.resumeSession.
    rewrite Hh, Hd, Ha, Hr, Hresume. cbn [negb orb].
    unfold_monad. cbn. by rewrite Hmedia.
Qed.

Lemma sendPost_missing_credentials (userId : string) (options : PostOptions) (w : World) :
  (forall config connection net,
     truthy (field connection "accessToken") = false ->
     TwitterHandler.sendPost config userId connection options net w
       = (Thrown (Error "Missing Twitter accessToken"), w)) /\
  (forall config connection net,
     truthy (field connection "accessToken") = false ->
     LinkedInHandler.sendPost config userId connection options net w
       = (Thrown (Error "Missing LinkedIn accessToken"), w)) /\
  (forall config connection net,
     truthy (field connection "accessToken") = true ->
     truthy (field connection "linkedInUserId") = false ->
     LinkedInHandler.sendPost config userId connection options net w
       = (Thrown (Error
            "Missing LinkedIn memberId. Ensure this is stored upon user connection."), w)) /\
  (forall config connection net,
     truthy (field connection "accessToken") = false ->
     TikTokHandler.sendPost config userId connection options net w
       = (Thrown (Error "Missing TikTok accessToken"), w)) /\
  (forall config connection net,
     truthy (field connection "accessToken") = true ->
     media options = None ->
     TikTokHandler.sendPost config userId connection options net w
       = (Thrown (Error "Missing mediaUrl for TikTok post"), w)) /\
  (forall connection net,
     truthy (field connection "accessToken") = false ->
     ThreadsHandler.sendPost userId connection options net w
       = (Thrown (Error "Missing Threads accessToken"), w)) /\
  (forall connection net,
     truthy (field connection "accessToken") = true ->
     truthy (field connection "threadsUserId") = false ->
     ThreadsHandler.sendPost userId connection options net w
       = (Thrown (Error
            "Missing Threads userId. Ensure this is stored upon user connection."), w)) /\
  (forall connection net,
     truthy (field connection "apiKey") = false ->
     DevtoHandler.sendPost userId connection options net w
       = (Thrown (Error "Missing Dev.to API key"), w)) /\
  (forall connection net,
     truthy (field connection "webhookUrl") = false ->
     DiscordHandler.sendPost userId connection options net w
       = (Thrown (Error "Discord webhook URL is missing"), w)) /\
  (forall connection,
     truthy (field connection "token") = false ->
     GitHubHandler.sendPost userId connection options w
       = (Thrown (Error "Missing GitHub token"), w)) /\
  (forall connection net,
     truthy (field connection "handle") = false \/
     truthy (field connection "did") = false \/
     truthy (field connection "accessJwt") = false \/
     truthy (field connection "refreshJwt") = false ->
     BlueskyHandler.sendPost userId connection options net w
       = (Returned (failed bluesky
            "Missing required Bluesky credentials (handle, did, accessJwt, refreshJwt)."),
          w)).
Proof.
  repeat split.
  - intros config connection net Ht. unfold TwitterHandler.sendPost. by rewrite Ht.
  - intros config connection net Ht. unfold LinkedInHandler.sendPost. by rewrite Ht.
  - intros config connection net Ht Hu. unfold LinkedInHandler.sendPost. by rewrite Ht, Hu.
  - intros config connection net Ht. unfold TikTokHandler.sendPost. by rewrite Ht.
  - intros config connection net Ht Hm. unfold TikTokHandler.sendPost. by rewrite Ht, Hm.
  - intros connection net Ht. unfold ThreadsHandler.sendPost. by rewrite Ht.
  - intros connection net Ht Hu. unfold ThreadsHandler.sendPost. by rewrite Ht, Hu.
  - intros connection net Hk. unfold DevtoHandler.sendPost. by rewrite Hk.
  - intros connection net Hk. unfold DiscordHandler.sendPost. by rewrite Hk.
  - intros connection Hk. unfold GitHubHandler.sendPost. by rewrite Hk.
  - intros connection net Hk. unfold BlueskyHandler.sendPost.
    destruct Hk as [-> | [-> | [-> | ->]]]; cbn [negb orb]; rewrite ?orb_true_r; reflexivity.
Qed.

Lemma postToPlatform_thrown config p handler userId connection options nets w msg :
  PostDispatcher.handlers config p = Some handler ->
  MemoryAdapter.getConnection userId p (db w) = Some connection ->
  handler userId connection options nets w = (Thrown (Error msg), w) ->
  msg <> "" ->
  PostDispatcher.postToPlatform config p userId options nets w
    = (Returned (failed p msg), w).
Proof.
  intros Hh Hc Hrun Hmsg. unfold PostDispatcher.postToPlatform, PostDispatcher.start.
  rewrite Hh. unfold_monad. cbn. rewrite Hc. cbn. rewrite Hrun. cbn.
  unfold failed, strOr. by destruct msg.
Qed.

Lemma postToPlatform_returned config p handler userId connection options nets w result :
  PostDispatcher.handlers config p = Some handler ->
  MemoryAdapter.getConnection userId p (db w) = Some connection ->
  handler userId connection options nets w = (Returned result, w) ->
  PostDispatcher.postToPlatform config p userId options nets w = (Returned result, w).
Proof.
  intros Hh Hc Hrun. unfold PostDispatcher.postToPlatform, PostDispatcher.start.
  rewrite Hh. unfold_monad. cbn. rewrite Hc. cbn. by rewrite Hrun.
Qed.

(** X20. When the stored connection lacks a credential that its handler
    needs (for TikTok also when the post has no media), [postToPlatform]
    returns a failed result that carries the handler's own message, and
    it does so before any request and any write: the store and the log
    are as before.  The Bluesky handler returns that result itself; the
    other handlers throw and the dispatcher turns the error into the
    result. *)
Theorem missing_credentials_fail_fast (config : PostDispatcher.PlatformConfig)
    (userId : string) (options : PostOptions) (nets : PostDispatcher.Nets) (w : World) :
  let post p := PostDispatcher.postToPlatform config p userId options nets w in
  let stored p connection :=
    is_Some (PostDispatcher.handlers config p) /\
    MemoryAdapter.getConnection userId p (db w) = Some connection in
  (forall connection,
     stored twitter connection -> truthy (field connection "accessToken") = false ->
     post twitter = (Returned (failed twitter "Missing Twitter accessToken"), w)) /\
  (forall connection,
     stored linkedin connection -> truthy (field connection "accessToken") = false ->
     post linkedin = (Returned (failed linkedin "Missing LinkedIn accessToken"), w)) /\
  (forall connection,
     stored linkedin connection -> truthy (field connection "accessToken") = true ->
     truthy (field connection "linkedInUserId") = false ->
     post linkedin
       = (Returned (failed linkedin
            "Missing LinkedIn memberId. Ensure this is stored upon user connection."), w)) /\
  (forall connection,
     stored tiktok connection -> truthy (field connection "accessToken") = false ->
     post tiktok = (Returned (failed tiktok "Missing TikTok accessToken"), w)) /\
  (forall connection,
     stored tiktok connection -> truthy (field connection "accessToken") = true ->
     media options = None ->
     post tiktok = (Returned (failed tiktok "Missing mediaUrl for TikTok post"), w)) /\
  (forall connection,
     stored threads connection -> truthy (field connection "accessToken") = false ->
     post threads = (Returned (failed threads "Missing Threads accessToken"), w)) /\
  (forall connection,
     stored threads connection -> truthy (field connection "accessToken") = true ->
     truthy (field connection "threadsUserId") = false ->
     post threads
       = (Returned (failed threads
            "Missing Threads userId. Ensure this is stored upon user connection."), w)) /\
  (forall connection,
     stored devto connection -> truthy (field connection "apiKey") = false ->
     post devto = (Returned (failed devto "Missing Dev.to API key"), w)) /\
  (forall connection,
     stored discord connection -> truthy (field connection "webhookUrl") = false ->
     post discord = (Returned (failed discord "Discord webhook URL is missing"), w)) /\
  (forall connection,
     stored github connection -> truthy (field connection "token") = false ->
     post github = (Returned (failed github "Missing GitHub token"), w)) /\
  (forall connection,
     stored bluesky connection ->
     truthy (field connection "handle") = false \/
     truthy (field connection "did") = false \/
     truthy (field connection "accessJwt") = false \/
     truthy (field connection "refreshJwt") = false ->
     post bluesky
       = (Returned (failed bluesky
            "Missing required Bluesky credentials (handle, did, accessJwt, refreshJwt)."),
          w)).
Proof.
  cbv zeta.
  destruct (sendPost_missing_credentials userId options w)
    as (Htw & Hli & Hli' & Htt & Htt' & Hth & Hth' & Hdv & Hdc & Hgh & Hbs).
  repeat split; intros connection [[handler Hh] Hc].
  - intros Hk.
    apply (postToPlatform_thrown config twitter handler userId connection options nets w _ Hh Hc); [|discriminate].
    cbn in Hh. unfold PostDispatcher.present in Hh.
    destruct (PostDispatcher.cfg_twitter config) as [c|]; [|done]. injection Hh as <-.
    exact (Htw c connection (PostDispatcher.net_twitter nets) Hk).
  - intros Hk.
    apply (postToPlatform_thrown config linkedin handler userId connection options nets w _ Hh Hc); [|discriminate].
    cbn in Hh. unfold PostDispatcher.present in Hh.
    destruct (PostDispatcher.cfg_linkedin config) as [c|]; [|done]. injection Hh as <-.
    exact (Hli c connection (PostDispatcher.net_linkedin nets) Hk).
  - intros Hk Hx.
    apply (postToPlatform_thrown config linkedin handler userId connection options nets w _ Hh Hc); [|discriminate].
    cbn in Hh. unfold PostDispatcher.present in Hh.
    destruct (PostDispatcher.cfg_linkedin config) as [c|]; [|done]. injection Hh as <-.
    exact (Hli' c connection (PostDispatcher.net_linkedin nets) Hk Hx).
  - intros Hk.
    apply (postToPlatform_thrown config tiktok handler userId connection options nets w _ Hh Hc); [|discriminate].
    cbn in Hh. unfold PostDispatcher.present in Hh.
    destruct (PostDispatcher.cfg_tiktok config) as [c|]; [|done]. injection Hh as <-.
    exact (Htt c connection (PostDispatcher.net_tiktok nets) Hk).
  - intros Hk Hx.
    apply (postToPlatform_thrown config tiktok handler userId connection options nets w _ Hh Hc); [|discriminate].
    cbn in Hh. unfold PostDispatcher.present in Hh.
    destruct (PostDispatcher.cfg_tiktok config) as [c|]; [|done]. injection Hh as <-.
    exact (Htt' c connection (PostDispatcher.net_tiktok nets) Hk Hx).
  - intros Hk.
    apply (postToPlatform_thrown config threads handler userId connection options nets w _ Hh Hc); [|discriminate].
    cbn in Hh. unfold PostDispatcher.present in Hh.
    destruct (PostDispatcher.cfg_threads config) as [c|]; [|done]. injection Hh as <-.
    exact (Hth connection (PostDispatcher.net_threads nets) Hk).
  - intros Hk Hx.
    apply (postToPlatform_thrown config threads handler userId connection options nets w _ Hh Hc); [|discriminate].
    cbn in Hh. unfold PostDispatcher.present in Hh.
    destruct (PostDispatcher.cfg_threads config) as [c|]; [|done]. injection Hh as <-.
    exact (Hth' connection (PostDispatcher.net_threads nets) Hk Hx).
  - intros Hk.
    apply (postToPlatform_thrown config devto handler userId connection options nets w _ Hh Hc); [|discriminate].
    cbn in Hh. unfold PostDispatcher.present in Hh.
    destruct (PostDispatcher.cfg_devto config); [|done]. injection Hh as <-.
    exact (Hdv connection (PostDispatcher.net_devto nets) Hk).
  - intros Hk.
    apply (postToPlatform_thrown config discord handler userId connection options nets w _ Hh Hc); [|discriminate].
    cbn in Hh. unfold PostDispatcher.present in Hh.
    destruct (PostDispatcher.cfg_discord config); [|done]. injection Hh as <-.
    exact (Hdc connection (PostDispatcher.net_discord nets) Hk).
  - intros Hk.
    apply (postToPlatform_thrown config github handler userId connection options nets w _ Hh Hc); [|discriminate].
    cbn in Hh. unfold PostDispatcher.present in Hh.
    destruct (PostDispatcher.cfg_github config); [|done]. injection Hh as <-.
    exact (Hgh connection Hk).
  - intros Hk.
    apply (postToPlatform_returned config bluesky handler userId connection options nets w _ Hh Hc).
    cbn in Hh. unfold PostDispatcher.present in Hh.
    destruct (PostDispatcher.cfg_bluesky config); [|done]. injection Hh as <-.
    exact (Hbs connection (PostDispatcher.net_bluesky nets) Hk).
Qed.

End Policy.


(** ** The texts of a Discord message and of a TikTok post
    (handlers/discord.ts, handlers/tiktok.ts) *)

Lemma substring_length (n : nat) (s : string) :
  String.length (String.substring 0 n s) = Nat.min n (String.length s).
Proof.
  revert s. induction n as [|n IH]; intros [|c s]; simpl; try done.
  by rewrite IH.
Qed.

Lemma substring_nonEmpty (n : nat) (s : string) :
  (0 < n)%nat -> s <> "" -> String.substring 0 n s <> "".
Proof. destruct n; [lia|]. by destruct s. Qed.

Lemma substring_prefix_of (n : nat) (s : string) :
  String.prefix (String.substring 0 n s) s = true.
Proof.
  revert s. induction n as [|n IH]; intros [|c s]; try done.
  cbn [String.substring String.prefix]. destruct (ascii_dec c c); [apply IH|done].
Qed.

Lemma append_nonEmpty (a b : string) : a <> "" -> a +:+ b <> "".
Proof. by destruct a. Qed.

Lemma strOr_cases (s d : string) :
  (s <> "" /\ strOr s d = s) \/ (s = "" /\ strOr s d = d).
Proof. unfold strOr. destruct s; [by right|by left]. Qed.

(** X21. The content of a Discord message is never empty and at most 2000
    characters long; it is a prefix of the trimmed text, or, when the
    trimmed text is empty, of the fallback text. *)
Theorem discord_content_bounds (options : PostOptions) :
  let content := DiscordHandler.content options in
  content <> "" /\
  (String.length content <= 2000)%nat /\
  (String.prefix content (trim (text options)) = true \/
   trim (text options) = "" /\
   String.prefix content (DiscordHandler.fallbackText options) = true).
Proof.
  unfold DiscordHandler.content, DiscordHandler.DISCORD_CHAR_LIMIT.
  assert (Hfallback : DiscordHandler.fallbackText options <> "").
  { unfold DiscordHandler.fallbackText.
    destruct (projectName options) as [name|]; [|done]. by destruct (nonEmpty name). }
  split; [|split].
  - apply substring_nonEmpty; [lia|]. by apply strOr_nonEmpty.
  - rewrite substring_length. lia.
  - destruct (strOr_cases (trim (text options)) (DiscordHandler.fallbackText options))
      as [[_ ->]|[-> ->]].
    + left. apply substring_prefix_of.
    + right. split; [done|]. apply substring_prefix_of.
Qed.

(** X22. The title of a TikTok post has at most 90 characters and its
    description at most 4000, and each is a prefix of the text; the title
    of a video is never empty (an empty text gives [New Video Post]). *)
Theorem tiktok_post_info_bounds (text : string) :
  TikTokHandler.videoTitle text <> "" /\
  (String.length (TikTokHandler.videoTitle text) <= 90)%nat /\
  (String.length (TikTokHandler.videoDescription text) <= 4000)%nat /\
  (String.length (TikTokHandler.photoTitle text) <= 90)%nat /\
  (String.length (TikTokHandler.photoDescription text) <= 4000)%nat /\
  (text <> "" -> String.prefix (TikTokHandler.videoTitle text) text = true) /\
  String.prefix (TikTokHandler.videoDescription text) text = true /\
  String.prefix (TikTokHandler.photoTitle text) text = true /\
  String.prefix (TikTokHandler.photoDescription text) text = true.
Proof.
  unfold TikTokHandler.videoTitle, TikTokHandler.videoDescription,
    TikTokHandler.photoTitle, TikTokHandler.photoDescription, TikTokHandler.clip.
  assert (Hclip : forall n fallback,
            (String.length fallback <= n)%nat ->
            (String.length
               (strOr (String.substring 0 (Nat.min (String.length text) n) text) fallback)
             <= n)%nat).
  { intros n fallback Hf.
    destruct (strOr_cases (String.substring 0 (Nat.min (String.length text) n) text)
                fallback) as [[_ ->]|[_ ->]]; [|done].
    rewrite substring_length. lia. }
  assert (Hprefix : forall n,
            String.prefix
              (strOr (String.substring 0 (Nat.min (String.length text) n) text) "")
              text = true).
  { intros n.
    destruct (strOr_cases (String.substring 0 (Nat.min (String.length text) n) text) "")
      as [[_ ->]|[_ ->]]; [apply substring_prefix_of|by destruct text]. }
  split; [by apply strOr_nonEmpty|].
  split; [apply Hclip; simpl; lia|].
  split; [apply Hclip; simpl; lia|].
  split; [apply Hclip; simpl; lia|].
  split; [apply Hclip; simpl; lia|].
  split; [|by repeat split].
  intros Ht.
  destruct (strOr_cases (String.substring 0 (Nat.min (String.length text) 90) text)
              "New Video Post") as [[_ ->]|[He _]]; [apply substring_prefix_of|].
  destruct text; [done|]. discriminate He.
Qed.


(** ** Title and body of a Dev.to article (handlers/devto.ts) *)

Lemma string_length_append (a b : string) :
  String.length (a +:+ b) = (String.length a + String.length b)%nat.
Proof. induction a as [|c a IH]; [done|]. cbn. by rewrite IH. Qed.

Lemma splitLines_head (text : string) :
  exists line0 rest, splitLines text = line0 :: rest.
Proof.
  induction text as [|c text (line0 & rest & IH)]; [by eexists _, _|].
  cbn [splitLines]. destruct (Ascii.eqb c LF); [by eexists _, _|].
  rewrite IH. by eexists _, _.
Qed.

(** X23. [parseContent] never returns an empty title: the title is the
    trimmed first line, or it has at most 60 characters; the body is
    empty only for an empty text; and a text of one line is its own body
    with a title of at most 60 characters. *)
Theorem parseContent_title (text : string) :
  let line0 := default "" (head (splitLines text)) in
  let title := fst (DevtoHandler.parseContent text) in
  let body := snd (DevtoHandler.parseContent text) in
  title <> "" /\
  (title = trim line0 \/ (String.length title <= 60)%nat) /\
  (body = "" -> text = "") /\
  (splitLines text = [text] ->
   body = text /\ (String.length title <= 60)%nat).
Proof.
  unfold DevtoHandler.parseContent. cbv zeta.
  destruct (splitLines_head text) as (line0 & rest & Hlines). rewrite Hlines.
  cbn [head default from_option lookup list_lookup fst snd]. unfold id.
  assert (Hshort : forall firstLine,
            let title :=
              if (60 <? String.length firstLine)%nat
              then String.substring 0 57 firstLine +:+ "..."
              else strOr firstLine "Untitled Article" in
            title <> "" /\ (String.length title <= 60)%nat).
  { intros firstLine. cbn zeta.
    destruct (Nat.ltb_spec 60 (String.length firstLine)) as [Hlong|Hfit].
    - split.
      + apply append_nonEmpty, substring_nonEmpty; [lia|].
        intros ->. simpl in Hlong. lia.
      + rewrite string_length_append, substring_length.
        change (String.length "...") with 3%nat. lia.
    - split; [by apply strOr_nonEmpty|].
      destruct (strOr_cases firstLine "Untitled Article") as [[_ ->]|[_ ->]];
        [done|cbn; lia]. }
  match goal with
  | |- context [if ?c then (_, _) else _] => destruct c eqn:Hcond
  end; cbn [fst snd].
  - apply andb_true_iff in Hcond as [[Hlen Ht]%andb_true_iff _].
    split; [by apply nonEmpty_ne|]. split; [by left|]. split.
    + intros Hb.
      destruct (strOr_cases (trim (joinLines (drop 2 (line0 :: rest)))) text)
        as [[Hne E]|[_ E]]; rewrite E in Hb; [by rewrite Hb in Hne|done].
    + intros [= -> ->]. discriminate Hlen.
  - destruct (Hshort (trim line0)) as [Hne Hle].
    split; [exact Hne|]. split; [by right|]. split; [done|]. by intros _.
Qed.


(** ** Tags of a Dev.to article (handlers/devto.ts) *)

Lemma allChars_app (f : ascii -> bool) (a b : string) :
  allChars f (a +:+ b) = allChars f a && allChars f b.
Proof. induction a as [|c a IH]; [done|]. cbn. by rewrite IH, andb_assoc. Qed.

Lemma lowerChar_tag (c : ascii) : isWordChar c = true -> isTagChar (lowerChar c) = true.
Proof.
  destruct c as [[] [] [] [] [] [] [] []]; vm_compute; congruence.
Qed.

Lemma toLowerCase_tag (word : string) :
  allChars isWordChar word = true -> allChars isTagChar (toLowerCase word) = true.
Proof.
  induction word as [|c word IH]; [done|]. cbn [allChars toLowerCase].
  intros [Hc Hw]%andb_true_iff. by rewrite lowerChar_tag, IH.
Qed.

Lemma hashtags_words (text : string) (current : option string) :
  (forall word, current = Some word -> allChars isWordChar word = true) ->
  Forall (fun word => allChars isWordChar word = true) (DevtoHandler.hashtags text current).
Proof.
  revert current. induction text as [|c text IH]; intros current Hcur.
  - cbn [DevtoHandler.hashtags]. destruct current as [word|]; [|constructor].
    destruct (nonEmpty word); [|constructor]. constructor; [by apply Hcur|constructor].
  - cbn [DevtoHandler.hashtags]. destruct current as [word|].
    + destruct (isWordChar c) eqn:Hc.
      * apply IH. intros w [= <-]. rewrite allChars_app, (Hcur word eq_refl). cbn.
        by rewrite Hc.
      * apply Forall_app. split.
        -- destruct (nonEmpty word); [|constructor].
           constructor; [by apply Hcur|constructor].
        -- apply IH. intros w. by destruct (Ascii.eqb c "#"); intros [= <-].
    + apply IH. intros w. by destruct (Ascii.eqb c "#"); intros [= <-].
Qed.

Lemma pushTag_well_formed (tags : list string) (word : string) :
  allChars isWordChar word = true ->
  NoDup tags /\ Forall wellFormedTag tags ->
  NoDup (DevtoHandler.pushTag tags word) /\
  Forall wellFormedTag (DevtoHandler.pushTag tags word).
Proof.
  intros Hword [Hnd Hall]. unfold DevtoHandler.pushTag. cbv zeta.
  destruct (_ && _) eqn:Hcond; [|done].
  apply andb_true_iff in Hcond as [[Hpos Hle]%andb_true_iff Hnew].
  apply negb_true_iff, bool_decide_eq_false in Hnew.
  apply Nat.ltb_lt in Hpos. apply Nat.leb_le in Hle.
  split.
  - apply NoDup_app. split; [done|]. split; [|apply NoDup_singleton].
    intros tag Hin ->%list_elem_of_singleton. done.
  - apply Forall_app. split; [done|]. constructor; [|constructor].
    split; [lia|by apply toLowerCase_tag].
Qed.

Lemma foldl_pushTag (words tags : list string) :
  Forall (fun word => allChars isWordChar word = true) words ->
  NoDup tags /\ Forall wellFormedTag tags ->
  NoDup (foldl DevtoHandler.pushTag tags words) /\
  Forall wellFormedTag (foldl DevtoHandler.pushTag tags words).
Proof.
  revert tags. induction words as [|word words IH]; intros tags Hwords Htags; [done|].
  apply Forall_cons in Hwords as [Hword Hwords]. cbn [foldl].
  apply IH; [done|]. by apply pushTag_well_formed.
Qed.



(** ** Discord webhook URLs (connections/discord.ts) *)

Lemma append_assoc (a b c : string) : (a +:+ b) +:+ c = a +:+ (b +:+ c).
Proof. induction a as [|x a IH]; [done|]. cbn. by rewrite IH. Qed.

Lemma toLowerCase_app (a b : string) :
  toLowerCase (a +:+ b) = toLowerCase a +:+ toLowerCase b.
Proof. induction a as [|x a IH]; [done|]. cbn. by rewrite IH. Qed.

Lemma toLowerCase_split (l1 l2 s : string) :
  toLowerCase s = l1 +:+ l2 ->
  exists p1 p2, s = p1 +:+ p2 /\ toLowerCase p1 = l1 /\ toLowerCase p2 = l2.
Proof.
  revert s. induction l1 as [|x l1 IH]; intros s Hs.
  - by exists "", s.
  - destruct s as [|c s]; [discriminate|]. cbn in Hs. injection Hs as Hc Hs.
    destruct (IH s Hs) as (p1 & p2 & -> & H1 & H2).
    exists (String c p1), p2. cbn. by rewrite Hc, H1.
Qed.

Lemma stripPrefixCI_Some (literal s rest : string) :
  stripPrefixCI literal s = Some rest <->
  exists p, s = p +:+ rest /\ toLowerCase p = literal.
Proof.
  revert s. induction literal as [|a literal IH]; intros s.
  - cbn. split.
    + intros [= ->]. by exists "".
    + intros (p & -> & Hp). by destruct p.
  - destruct s as [|b s]; cbn [stripPrefixCI].
    + split; [done|]. intros (p & Hs & Hp). by destruct p.
    + destruct (Ascii.eqb_spec (lowerChar b) a) as [<-|Hne].
      * rewrite IH. split.
        -- intros (p & -> & <-). by exists (String b p).
        -- intros (p & Hs & Hp). destruct p as [|c p]; [done|].
           cbn in Hs, Hp. injection Hs as -> ->. injection Hp as Hp. by exists p.
      * split; [done|]. intros (p & Hs & Hp). destruct p as [|c p]; [done|].
        cbn in Hs, Hp. injection Hs as -> ->. by injection Hp as Hc _.
Qed.

Lemma stripPrefixCI_None (a : ascii) (literal p rest : string) (x : ascii) (l : string) :
  toLowerCase p = String x l -> x <> a ->
  stripPrefixCI (String a literal) (p +:+ rest) = None.
Proof.
  intros Hp Hx. destruct p as [|b p]; [done|]. cbn in *. injection Hp as Hb _.
  destruct (Ascii.eqb_spec (lowerChar b) a); [congruence|done].
Qed.

Lemma takeWhile_dropWhile (f : ascii -> bool) (s : string) :
  s = takeWhile f s +:+ dropWhile f s /\
  allChars f (takeWhile f s) = true /\
  headSatisfies f (dropWhile f s) = false.
Proof.
  induction s as [|c s (IH1 & IH2 & IH3)]; [done|]. cbn [takeWhile dropWhile].
  destruct (f c) eqn:Hc; cbn; [|by rewrite Hc]. by rewrite Hc, <- IH1.
Qed.

Lemma takeWhile_maximal (f : ascii -> bool) (a b : string) :
  allChars f a = true -> headSatisfies f b = false ->
  takeWhile f (a +:+ b) = a /\ dropWhile f (a +:+ b) = b.
Proof.
  intros Ha Hb. induction a as [|c a IH].
  - cbn. destruct b as [|c b]; [done|]. cbn in *. by rewrite Hb.
  - cbn in *. apply andb_true_iff in Ha as [-> Ha]. destruct (IH Ha) as [-> ->]. done.
Qed.

Lemma slash_only (p : string) : toLowerCase p = "/" -> p = "/".
Proof.
  destruct p as [|c [|d p]]; try done. cbn. intros [= Hc]. f_equal.
  revert Hc. by destruct c as [[] [] [] [] [] [] [] []]; vm_compute.
Qed.

Lemma nonEmpty_false (s : string) : nonEmpty s = false <-> s = "".
Proof. by destruct s. Qed.

(** X25. [parseWebhookUrl] returns [(id, token)] exactly when the trimmed
    URL is, without regard to case, one of the six Discord webhook
    prefixes (discord.com or discordapp.com, plain or under ptb. or
    canary., over https) followed by a non-empty id of digits, a slash
    and a non-empty token of letters, digits, [_] and [-] that ends where
    the first other character stands. *)
Theorem parseWebhookUrl_matches (webhookUrl webhookId webhookToken : string) :
  DiscordConnectionProvider.parseWebhookUrl webhookUrl = Some (webhookId, webhookToken) <->
  exists front rest,
    trim webhookUrl = front +:+ webhookId +:+ "/" +:+ webhookToken +:+ rest /\
    toLowerCase front ∈ webhookPrefixes /\
    webhookId <> "" /\ allChars isDigit webhookId = true /\
    webhookToken <> "" /\ allChars isTokenChar webhookToken = true /\
    headSatisfies isTokenChar rest = false.
Proof.
  unfold DiscordConnectionProvider.parseWebhookUrl. split.
  - destruct (stripPrefixCI "https://" (trim webhookUrl)) as [afterScheme|] eqn:H1;
      [|done]. cbn [mbind option_bind].
    apply stripPrefixCI_Some in H1 as (p1 & -> & Hp1).
    set (afterSubdomain := match stripPrefixCI "ptb." afterScheme with
                           | Some rest => rest
                           | None => optionalPrefixCI "canary." afterScheme
                           end).
    assert (Hsub : exists p2, afterScheme = p2 +:+ afterSubdomain /\
                     (toLowerCase p2 = "" \/ toLowerCase p2 = "ptb." \/
                      toLowerCase p2 = "canary.")).
    { subst afterSubdomain.
      destruct (stripPrefixCI "ptb." afterScheme) as [r|] eqn:H2.
      - apply stripPrefixCI_Some in H2 as (p & -> & Hp). exists p. auto.
      - unfold optionalPrefixCI.
        destruct (stripPrefixCI "canary." afterScheme) as [r|] eqn:H3.
        + apply stripPrefixCI_Some in H3 as (p & -> & Hp). exists p. auto.
        + exists "". auto. }
    clearbody afterSubdomain. destruct Hsub as (p2 & -> & Hp2).
    destruct (stripPrefixCI "discord" afterSubdomain) as [afterName|] eqn:H3; [|done].
    cbn [mbind option_bind]. apply stripPrefixCI_Some in H3 as (p3 & -> & Hp3).
    assert (Happ : exists p4, afterName = p4 +:+ optionalPrefixCI "app" afterName /\
                     (toLowerCase p4 = "" \/ toLowerCase p4 = "app")).
    { unfold optionalPrefixCI.
      destruct (stripPrefixCI "app" afterName) as [r|] eqn:H4.
      - apply stripPrefixCI_Some in H4 as (p & -> & Hp). exists p. auto.
      - exists "". auto. }
    destruct Happ as (p4 & Hname & Hp4).
    destruct (stripPrefixCI ".com/api/webhooks/" (optionalPrefixCI "app" afterName))
      as [afterPath|] eqn:H5; [|done].
    cbn [mbind option_bind]. apply stripPrefixCI_Some in H5 as (p5 & H5 & Hp5).
    rewrite H5 in Hname. subst afterName.
    destruct (takeWhile_dropWhile isDigit afterPath) as (Hpath & Hid & _).
    destruct (nonEmpty (takeWhile isDigit afterPath)) eqn:Hne; [|done]. cbn [negb].
    destruct (stripPrefixCI "/" (dropWhile isDigit afterPath)) as [afterId|] eqn:H6;
      [|done].
    cbn [mbind option_bind]. apply stripPrefixCI_Some in H6 as (p6 & H6 & Hp6).
    apply slash_only in Hp6 as ->.
    destruct (takeWhile_dropWhile isTokenChar afterId) as (Htok & Htoken & Hrest).
    destruct (nonEmpty (takeWhile (λ c, isWordChar c || Ascii.eqb c "-") afterId))
      eqn:Hne'; [|done]. cbn [negb].
    intros [= <- <-].
    exists (p1 +:+ p2 +:+ p3 +:+ p4 +:+ p5), (dropWhile isTokenChar afterId).
    split; [|split; [|split; [|split; [|split]]]].
    + rewrite !append_assoc. do 5 f_equal. rewrite Hpath at 1. f_equal.
      rewrite H6. cbn [String.append]. f_equal. exact Htok.
    + rewrite !toLowerCase_app, Hp1, Hp3, Hp5. unfold webhookPrefixes.
      destruct Hp2 as [-> | [-> | ->]]; destruct Hp4 as [-> | ->];
        cbn [String.append]; rewrite !elem_of_cons; auto 10.
    + by apply nonEmpty_ne.
    + exact Hid.
    + by apply nonEmpty_ne.
    + split; [exact Htoken|exact Hrest].
  - intros (front & rest & Hurl & Hfront & Hid & Hdigits & Htoken & Hchars & Hrest).
    rewrite Hurl. unfold optionalPrefixCI.
    assert (Hpath : forall afterPath,
              afterPath = webhookId +:+ "/" +:+ webhookToken +:+ rest ->
              (let webhookId := takeWhile isDigit afterPath in
               if negb (nonEmpty webhookId) then None
               else
                 afterId ← stripPrefixCI "/" (dropWhile isDigit afterPath);
                 let webhookToken :=
                   takeWhile (fun c => isWordChar c || Ascii.eqb c "-") afterId in
                 if negb (nonEmpty webhookToken) then None
                 else Some (webhookId, webhookToken))
              = Some (webhookId, webhookToken)).
    { intros afterPath ->. cbv zeta.
      destruct (takeWhile_maximal isDigit webhookId ("/" +:+ webhookToken +:+ rest))
        as [-> ->]; [done|done|].
      destruct webhookId as [|c i]; [done|]. cbn [nonEmpty negb].
      cbn [String.append stripPrefixCI mbind option_bind].
      change (lowerChar "/") with "/"%char. cbn [Ascii.eqb Bool.eqb].
      destruct (takeWhile_maximal isTokenChar webhookToken rest) as [Ht _]; [done|done|].
      cbn [mbind option_bind]. unfold isTokenChar in Ht. rewrite Ht. by destruct webhookToken. }
    unfold webhookPrefixes in Hfront. rewrite !elem_of_cons in Hfront.
    destruct Hfront as [H | [H | [H | [H | [H | [H | H]]]]]];
      [| | | | | |by apply elem_of_nil in H].
    + change "https://discord.com/api/webhooks/"
        with ("https://" +:+ "discord" +:+ ".com/api/webhooks/") in H.
      apply toLowerCase_split in H as (p1 & ? & -> & Hp1 & H).
      apply toLowerCase_split in H as (p3 & p5 & -> & Hp3 & Hp5).
      rewrite !append_assoc.
      rewrite (proj2 (stripPrefixCI_Some "https://" _ _)) by eauto.
      cbn [mbind option_bind].
      rewrite (stripPrefixCI_None "p" _ p3 _ "d" "iscord") by done.
      rewrite (stripPrefixCI_None "c" _ p3 _ "d" "iscord") by done.
      cbn [default from_option]. unfold id.
      rewrite (proj2 (stripPrefixCI_Some "discord" _ _)) by eauto.
      cbn [mbind option_bind].
      rewrite (stripPrefixCI_None "a" _ p5 _ "." "com/api/webhooks/") by done.
      cbn [default from_option]. unfold id.
      rewrite (proj2 (stripPrefixCI_Some ".com/api/webhooks/" _ _)) by eauto.
      cbn [mbind option_bind]. by apply Hpath.
    + change "https://discordapp.com/api/webhooks/"
        with ("https://" +:+ "discord" +:+ "app" +:+ ".com/api/webhooks/") in H.
      apply toLowerCase_split in H as (p1 & ? & -> & Hp1 & H).
      apply toLowerCase_split in H as (p3 & ? & -> & Hp3 & H).
      apply toLowerCase_split in H as (p4 & p5 & -> & Hp4 & Hp5).
      rewrite !append_assoc.
      rewrite (proj2 (stripPrefixCI_Some "https://" _ _)) by eauto.
      cbn [mbind option_bind].
      rewrite (stripPrefixCI_None "p" _ p3 _ "d" "iscord") by done.
      rewrite (stripPrefixCI_None "c" _ p3 _ "d" "iscord") by done.
      cbn [default from_option]. unfold id.
      rewrite (proj2 (stripPrefixCI_Some "discord" _ _)) by eauto.
      cbn [mbind option_bind].
      rewrite (proj2 (stripPrefixCI_Some "app" _ _)) by eauto.
      cbn [default from_option]. unfold id.
      rewrite (proj2 (stripPrefixCI_Some ".com/api/webhooks/" _ _)) by eauto.
      cbn [mbind option_bind]. by apply Hpath.
    + change "https://ptb.discord.com/api/webhooks/"
        with ("https://" +:+ "ptb." +:+ "discord" +:+ ".com/api/webhooks/") in H.
      apply toLowerCase_split in H as (p1 & ? & -> & Hp1 & H).
      apply toLowerCase_split in H as (p2 & ? & -> & Hp2 & H).
      apply toLowerCase_split in H as (p3 & p5 & -> & Hp3 & Hp5).
      rewrite !append_assoc.
      rewrite (proj2 (stripPrefixCI_Some "https://" _ _)) by eauto.
      cbn [mbind option_bind].
      rewrite (proj2 (stripPrefixCI_Some "ptb." _ _)) by eauto.
      rewrite (proj2 (stripPrefixCI_Some "discord" _ _)) by eauto.
      cbn [mbind option_bind].
      rewrite (stripPrefixCI_None "a" _ p5 _ "." "com/api/webhooks/") by done.
      cbn [default from_option]. unfold id.
      rewrite (proj2 (stripPrefixCI_Some ".com/api/webhooks/" _ _)) by eauto.
      cbn [mbind option_bind]. by apply Hpath.
    + change "https://ptb.discordapp.com/api/webhooks/"
        with ("https://" +:+ "ptb." +:+ "discord" +:+ "app" +:+ ".com/api/webhooks/") in H.
      apply toLowerCase_split in H as (p1 & ? & -> & Hp1 & H).
      apply toLowerCase_split in H as (p2 & ? & -> & Hp2 & H).
      apply toLowerCase_split in H as (p3 & ? & -> & Hp3 & H).
      apply toLowerCase_split in H as (p4 & p5 & -> & Hp4 & Hp5).
      rewrite !append_assoc.
      rewrite (proj2 (stripPrefixCI_Some "https://" _ _)) by eauto.
      cbn [mbind option_bind].
      rewrite (proj2 (stripPrefixCI_Some "ptb." _ _)) by eauto.
      rewrite (proj2 (stripPrefixCI_Some "discord" _ _)) by eauto.
      cbn [mbind option_bind].
      rewrite (proj2 (stripPrefixCI_Some "app" _ _)) by eauto.
      cbn [default from_option]. unfold id.
      rewrite (proj2 (stripPrefixCI_Some ".com/api/webhooks/" _ _)) by eauto.
      cbn [mbind option_bind]. by apply Hpath.
    + change "https://canary.discord.com/api/webhooks/"
        with ("https://" +:+ "canary." +:+ "discord" +:+ ".com/api/webhooks/") in H.
      apply toLowerCase_split in H as (p1 & ? & -> & Hp1 & H).
      apply toLowerCase_split in H as (p2 & ? & -> & Hp2 & H).
      apply toLowerCase_split in H as (p3 & p5 & -> & Hp3 & Hp5).
      rewrite !append_assoc.
      rewrite (proj2 (stripPrefixCI_Some "https://" _ _)) by eauto.
      cbn [mbind option_bind].
      rewrite (stripPrefixCI_None "p" _ p2 _ "c" "anary.") by done.
      rewrite (proj2 (stripPrefixCI_Some "canary." _ _)) by eauto.
      cbn [default from_option]. unfold id.
      rewrite (proj2 (stripPrefixCI_Some "discord" _ _)) by eauto.
      cbn [mbind option_bind].
      rewrite (stripPrefixCI_None "a" _ p5 _ "." "com/api/webhooks/") by done.
      cbn [default from_option]. unfold id.
      rewrite (proj2 (stripPrefixCI_Some ".com/api/webhooks/" _ _)) by eauto.
      cbn [mbind option_bind]. by apply Hpath.
    + change "https://canary.discordapp.com/api/webhooks/"
        with ("https://" +:+ "canary." +:+ "discord" +:+ "app" +:+ ".com/api/webhooks/") in H.
      apply toLowerCase_split in H as (p1 & ? & -> & Hp1 & H).
      apply toLowerCase_split in H as (p2 & ? & -> & Hp2 & H).
      apply toLowerCase_split in H as (p3 & ? & -> & Hp3 & H).
      apply toLowerCase_split in H as (p4 & p5 & -> & Hp4 & Hp5).
      rewrite !append_assoc.
      rewrite (proj2 (stripPrefixCI_Some "https://" _ _)) by eauto.
      cbn [mbind option_bind].
      rewrite (stripPrefixCI_None "p" _ p2 _ "c" "anary.") by done.
      rewrite (proj2 (stripPrefixCI_Some "canary." _ _)) by eauto.
      cbn [default from_option]. unfold id.
      rewrite (proj2 (stripPrefixCI_Some "discord" _ _)) by eauto.
      cbn [mbind option_bind].
      rewrite (proj2 (stripPrefixCI_Some "app" _ _)) by eauto.
      cbn [default from_option]. unfold id.
      rewrite (proj2 (stripPrefixCI_Some ".com/api/webhooks/" _ _)) by eauto.
      cbn [mbind option_bind]. by apply Hpath.
Qed.


(** ** Connecting a platform (client.ts) *)

#[local] Arguments DiscordConnectionProvider.parseWebhookUrl : simpl never.
#[local] Arguments includes : simpl never.
#[local] Arguments trim : simpl never.
#[local] Arguments Security.generateId : simpl never.
#[local] Arguments Security.generateState : simpl never.
#[local] Arguments SocialAuth.given : simpl never.
#[local] Arguments orElse : simpl never.
#[local] Arguments orUndefined : simpl never.
#[local] Arguments configured : simpl never.

Section Connect.
Context `{Libs}.

Ltac connect_run :=
  unfold TwitterConnectionProvider.initiateAuth, LinkedInConnectionProvider.initiateAuth,
    TikTokConnectionProvider.initiateAuth, ThreadsConnectionProvider.initiateAuth,
    BlueskyConnectionProvider.connect, DevtoConnectionProvider.connect,
    DiscordConnectionProvider.connect, GitHubConnectionProvider.connect,
    BaseConnectionProvider.saveOAuthState, BaseConnectionProvider.saveConnection;
  unfold_monad; cbn;
  repeat (run_step; cbn).

(** X26. [SocialAuth.connect]: a call that throws leaves the store as it
    was.  A call that returns a connection is one for Bluesky, Dev.to,
    Discord or GitHub, and that connection is stored under (userId,
    platform), carries the user's id and the platform's name and is
    marked valid, with the OAuth states untouched.  A call that returns
    an authorization URL is one for an OAuth platform; it stores no
    connection, and a state record of this user is stored. *)
Theorem connect_outcomes (config : PostDispatcher.PlatformConfig) (platform : Platform)
    (userId : string) (options : SocialAuth.ConnectOptions)
    (nets : SocialAuth.ConnectNets) (w : World) :
  let run := SocialAuth.connect config platform userId options nets w in
  (forall error, fst run = Thrown error -> db (snd run) = db w) /\
  (forall connection,
     fst run = Returned (SocialAuth.Connection connection) ->
     tokenPlatform platform = true /\
     MemoryAdapter.getConnection userId platform (db (snd run)) = Some connection /\
     connection !! "uid" = Some (VStr userId) /\
     connection !! "platform" = Some (VStr (platformName platform)) /\
     connection !! "isValid" = Some (VBool true) /\
     MemoryAdapter.oauthStates (db (snd run)) = MemoryAdapter.oauthStates (db w)) /\
  (forall authUrl,
     fst run = Returned (SocialAuth.AuthUrl authUrl) ->
     tokenPlatform platform = false /\
     MemoryAdapter.connections (db (snd run)) = MemoryAdapter.connections (db w) /\
     exists state stored,
       MemoryAdapter.getOAuthState state (db (snd run)) = Some stored /\
       os_uid stored = userId /\ os_state stored = state).
Proof.
  destruct w as [s l]. cbv zeta. unfold SocialAuth.connect. cbv zeta.
  destruct platform.
  all: connect_run.
  all: (split; [|split]); intros; simplify_eq/=.
  all: try reflexivity.
  all: try (split; [reflexivity|]; split; [reflexivity|]; eexists _, _;
            split; [apply lookup_insert_eq|split; reflexivity]).
  all: try (split; [reflexivity|]; split; [apply lookup_insert_eq|];
            split; [by obj_lookup|]; split; [by obj_lookup|];
            split; [by obj_lookup|reflexivity]).
Qed.
End Connect.


(** ** Refreshing a token on request (client.ts) *)

#[local] Arguments truthy : simpl never.
#[local] Arguments jsonErrorField : simpl never.
#[local] Arguments spread : simpl never.
#[local] Arguments coalesce : simpl never.

Lemma getConnection_updateConnection_Some (u u' : string) (p p' : Platform)
    (updates : Obj) (s : MemoryAdapter.t) :
  is_Some (MemoryAdapter.getConnection u p s) ->
  is_Some (MemoryAdapter.getConnection u p (MemoryAdapter.updateConnection u' p' updates s)).
Proof.
  unfold MemoryAdapter.getConnection, MemoryAdapter.updateConnection. cbv zeta.
  intros Hc. destruct (MemoryAdapter.connections s !! MemoryAdapter.getKey u' p') eqn:E;
    [|done].
  cbn. destruct (decide (MemoryAdapter.getKey u' p' = MemoryAdapter.getKey u p)) as [->|Hne].
  - rewrite lookup_insert_eq. by eexists.
  - by rewrite lookup_insert_ne.
Qed.

Lemma getConnection_updateConnection_same (u : string) (p : Platform)
    (updates existing : Obj) (s : MemoryAdapter.t) :
  MemoryAdapter.getConnection u p s = Some existing ->
  MemoryAdapter.getConnection u p (MemoryAdapter.updateConnection u p updates s)
    = Some (spread existing updates).
Proof.
  unfold MemoryAdapter.getConnection, MemoryAdapter.updateConnection. cbv zeta.
  intros ->. cbn. apply lookup_insert_eq.
Qed.

Lemma oauthStates_updateConnection (u : string) (p : Platform) (updates : Obj)
    (s : MemoryAdapter.t) :
  MemoryAdapter.oauthStates (MemoryAdapter.updateConnection u p updates s)
    = MemoryAdapter.oauthStates s.
Proof.
  unfold MemoryAdapter.updateConnection. cbv zeta.
  by destruct (MemoryAdapter.connections s !! MemoryAdapter.getKey u p).
Qed.

Section ClientRefresh.
Context `{Libs}.

Lemma refreshed_record (u u' : string) (p : Platform) (connection existing : Obj)
    (fields : list (string * JsVal)) (s : MemoryAdapter.t) :
  MemoryAdapter.getConnection u p s = Some existing ->
  obj fields !! "isValid" = Some (VBool true) ->
  obj fields !! "needsReconnection" = Some (VBool false) ->
  let updated := spread connection (obj fields) in
  let s' := MemoryAdapter.updateConnection u p updated
              (MemoryAdapter.updateConnection u' p updated s) in
  exists stored,
    MemoryAdapter.getConnection u p s' = Some stored /\
    stored !! "isValid" = Some (VBool true) /\
    stored !! "needsReconnection" = Some (VBool false) /\
    MemoryAdapter.oauthStates s' = MemoryAdapter.oauthStates s.
Proof.
  intros Hc Hv Hn updated s'.
  destruct (getConnection_updateConnection_Some u u' p p updated s) as [c' Hc'];
    [by eexists|].
  exists (spread c' updated). split; [by apply getConnection_updateConnection_same|].
  split; [by apply spread_lookup_update, spread_lookup_update|].
  split; [by apply spread_lookup_update, spread_lookup_update|].
  subst s'. by rewrite !oauthStates_updateConnection.
Qed.

(** X27. [SocialAuth.refreshToken] throws [No connection found for platform
    p] when the user has no connection, and [Token refresh not supported
    for platform: p] for a stored Dev.to, Threads, Discord or GitHub
    connection, in both cases before any request and any write.  When it
    returns, the platform is Twitter, LinkedIn, Bluesky or TikTok and the
    connection stored under (userId, platform) is marked valid and not in
    need of reconnection, with the OAuth states untouched. *)
Theorem client_refreshToken_outcomes (config : PostDispatcher.PlatformConfig)
    (platform : Platform) (userId : string) (nets : SocialAuth.RefreshNets) (w : World) :
  let run := SocialAuth.refreshToken config platform userId nets w in
  (MemoryAdapter.getConnection userId platform (db w) = None ->
   run = (Thrown (Error ("No connection found for platform " +:+ platformName platform)),
          w)) /\
  (is_Some (MemoryAdapter.getConnection userId platform (db w)) ->
   refreshable platform = false ->
   run = (Thrown (Error ("Token refresh not supported for platform: "
                         +:+ platformName platform)), w)) /\
  (fst run = Returned tt ->
   refreshable platform = true /\
   exists stored,
     MemoryAdapter.getConnection userId platform (db (snd run)) = Some stored /\
     stored !! "isValid" = Some (VBool true) /\
     stored !! "needsReconnection" = Some (VBool false) /\
     MemoryAdapter.oauthStates (db (snd run)) = MemoryAdapter.oauthStates (db w)).
Proof.
  destruct w as [s l]. cbv zeta. unfold SocialAuth.refreshToken.
  split; [|split].
  - intros Hnone. cbn [db] in Hnone. unfold_monad. cbn. by rewrite Hnone.
  - intros [connection Hc] Hp. cbn [db] in Hc. unfold_monad. cbn. rewrite Hc.
    by destruct platform.
  - unfold_monad. cbn [db fst snd].
    destruct (MemoryAdapter.getConnection userId platform s) as [connection|] eqn:Hc;
      [|done].
    destruct platform; try done.
    + destruct (PostDispatcher.cfg_twitter config) as [c|]; [|done].
      unfold TwitterConnectionProvider.refreshToken, updateConnection. unfold_monad. cbn.
      repeat (run_step; cbn); try done. intros _. split; [done|].
      eapply refreshed_record; [exact Hc|obj_lookup..].
    + destruct (PostDispatcher.cfg_linkedin config) as [c|]; [|done].
      unfold LinkedInConnectionProvider.refreshToken, updateConnection. unfold_monad. cbn.
      repeat (run_step; cbn); try done. intros _. split; [done|].
      eapply refreshed_record; [exact Hc|obj_lookup..].
    + unfold BlueskyConnectionProvider.refreshToken, updateConnection. unfold_monad. cbn.
      repeat (run_step; cbn); try done. intros _. split; [done|].
      eapply refreshed_record; [exact Hc|obj_lookup..].
    + destruct (PostDispatcher.cfg_tiktok config) as [c|]; [|done].
      unfold TikTokConnectionProvider.refreshToken, updateConnection. unfold_monad. cbn.
      repeat (run_step; cbn); try done. intros _. split; [done|].
      eapply refreshed_record; [exact Hc|obj_lookup..].
Qed.

End ClientRefresh.


(** ** Sample runs *)


(** A video of 100 MiB is cut into the five chunks announced. *)
Lemma videoChunks_cover_witness :
  let c := TikTokHandler.effectiveChunkSize 104857600 in
  Z.of_nat (length (TikTokHandler.streamChunks
                      (Z.to_nat (TikTokHandler.ceilDiv 104857600 c)) 0 104857600 c))
    = TikTokHandler.totalChunks 104857600.
Proof.
  intros c. apply (videoChunks_cover 104857600). reflexivity.
Defined.

(** The sample Threads post stays within the bounds. *)
Lemma requests_bounded_witness :
  exists requests : list Event,
    log (snd (ThreadsHandler.sendPost "u1" threadsConnection sampleOptions threadsPublished
                sampleWorld)) = [] ++ requests /\
    (length (List.filter (isPublish threads) requests) <= 2)%nat /\
    (length (List.filter (isRefresh threads) requests) <= 1)%nat.
Proof.
  exact (@requests_bounded sampleLibs sampleConfig threads _ "u1" threadsConnection
           sampleOptions sampleNets sampleWorld eq_refl).
Defined.

(** The sample Threads post: container, wait, publish. *)
Lemma threads_request_sequence_witness :
  log (snd (ThreadsHandler.sendPost "u1" threadsConnection sampleOptions threadsPublished
              sampleWorld))
    = [] ++ [EvPublish threads; EvSleep 30000; EvPublish threads].
Proof.
  destruct (threads_request_sequence "u1" threadsConnection sampleOptions threadsPublished
              sampleWorld eq_refl eq_refl) as [Hpublished _].
  exact (Hpublished _ "container-1" eq_refl eq_refl eq_refl).
Defined.

(** A LinkedIn callback on a network that is down throws and saves no
    connection. *)
Lemma failed_callback_saves_nothing_witness :
  let run := SocialAuth.handleCallback sampleConfig linkedin "code" "s1" "https://app/cb"
               linkedinCallbackOffline pendingWorld in
  fst run = Thrown (Error "fetch failed") /\
  MemoryAdapter.connections (db (snd run)) = MemoryAdapter.connections sampleStore.
Proof.
  intros run. split; [reflexivity|].
  apply (failed_callback_saves_nothing sampleConfig linkedin "code" "s1" "https://app/cb"
           linkedinCallbackOffline pendingWorld (Error "fetch failed") (snd run)).
  reflexivity.
Defined.

